(** * OptiScope portfolio analytics: strategy classifier, metric aggregator
      and snapshot service

    A shallow embedding of
      - server/src/services/analytics.ts  (classifyStrategy, daysBetween,
        bucketHoldingPeriod, tradePnl, tradeBasis, calculateAnalyticsSnapshot)
      - server/src/models/analytics.ts    (upsertAnalyticsSnapshot,
        getLatestAnalyticsSnapshot)
      - server/src/routes/analytics.ts    (GET /summary, POST /recalculate)
      - server/src/tasks/analytics.ts     (recalculateAnalyticsForUser,
        recalculateAnalyticsForAllUsers) and the cron callback of index.ts.

    Conventions of the embedding.
      - A finite JavaScript [number] holding an amount is a rational [Q]; the
        arithmetic is exact (IEEE rounding of intermediate sums is not
        modelled).  Integer-valued numbers (counts, milliseconds, days) are [Z].
      - [null] is [None].
      - A JavaScript [Map] is an association list in insertion order.
      - [Array.prototype.sort] is a stable sort; it is written as a stable
        insertion sort driven by the source's comparator.
      - Code that awaits the database runs in a small state-and-exception
        monad over a [World]: the tables, the clock and the console. *)

From Stdlib Require Import List String Ascii Bool ZArith QArith Qabs Qround.
From Stdlib Require Import Lia Lqa Permutation Sorted.
Import ListNotations.

Local Open Scope string_scope.
Local Open Scope list_scope.
Local Open Scope Z_scope.

(* ------------------------------------------------------------------ *)
(** ** JavaScript primitives used by the source *)

(** [x > y] and [x < y] on numbers. *)
Definition Qgtb (x y : Q) : bool := negb (Qle_bool x y).
Definition Qltb (x y : Q) : bool := negb (Qle_bool y x).

(** [Number.prototype.toFixed(2)] followed by [Number(...)]: the nearest
    multiple of 1/100, a tie going to the larger magnitude (toFixed treats the
    sign apart and, of two candidates, picks the larger n).  The argument is
    the exact value.  The source rounds the double nearest to it, which on a
    value halfway between two cents lies on one side or the other, so that
    the source may give either cent there; what is stated of a rounded
    quotient is therefore stated with [roundedToCents] below. *)
Definition toFixed2 (x : Q) : Q :=
  let n := Qfloor (Qabs x * 100 + (1 # 2))%Q in
  if Qltb x 0 then (- n) # 100 else n # 100.

(** [Math.round] of a non-negative quotient [a / b] of integers: ties go up. *)
Definition Math_round_div (a b : Z) : Z := (2 * a + b) / (2 * b).

(** Truthiness of a [string | null]. *)
Definition truthy (s : option string) : bool :=
  match s with
  | None => false
  | Some s => negb (String.eqb s "")
  end.

(** [a ?? b]. *)
Definition nullish {A} (a : option A) (b : A) : A :=
  match a with Some x => x | None => b end.

(** [new Set(xs).size] for strings. *)
Definition Set_size (xs : list string) : nat :=
  List.length (nodup string_dec xs).

(** *** [Map] in insertion order *)
Module JsMap.
Section WithKey.
Context {K V : Type} (eqb : K -> K -> bool).

Fixpoint get (k : K) (m : list (K * V)) : option V :=
  match m with
  | [] => None
  | (k', v) :: m' => if eqb k k' then Some v else get k m'
  end.

(** [set] overwrites in place an existing key and appends a new one. *)
Fixpoint set (k : K) (v : V) (m : list (K * V)) : list (K * V) :=
  match m with
  | [] => [(k, v)]
  | (k', v') :: m' =>
      if eqb k k' then (k', v) :: m' else (k', v') :: set k v m'
  end.
End WithKey.
End JsMap.

(** *** [Array.prototype.sort(cmp)]
    The comparator returns a number; a [NaN] result counts as [0]
    (SortCompare), which the comparators below fold in themselves.  An element
    moves in front of another only when it compares strictly smaller, so
    equal elements keep their order. *)
Section ArraySort.
Context {A : Type} (cmp : A -> A -> Z).

Fixpoint sort_insert (x : A) (l : list A) : list A :=
  match l with
  | [] => [x]
  | y :: l' => if cmp x y <=? 0 then x :: y :: l' else y :: sort_insert x l'
  end.

Fixpoint Array_sort (l : list A) : list A :=
  match l with
  | [] => []
  | x :: l' => sort_insert x (Array_sort l')
  end.
End ArraySort.

(* ------------------------------------------------------------------ *)
(** ** Data model (models/trade.ts, services/analytics.ts) *)

Inductive OptionType := call | put.
Inductive Position := long | short.
Inductive TradeStatus := status_open | status_closed | status_rolled.

Inductive StrategyKey := single | verticalSpread | ironCondor | other.

Definition OptionType_eqb (a b : OptionType) : bool :=
  match a, b with call, call | put, put => true | _, _ => false end.

Definition Position_eqb (a b : Position) : bool :=
  match a, b with long, long | short, short => true | _, _ => false end.

Definition StrategyKey_eqb (a b : StrategyKey) : bool :=
  match a, b with
  | single, single | verticalSpread, verticalSpread
  | ironCondor, ironCondor | other, other => true
  | _, _ => false
  end.

Record OptionLegRecord := mkLeg {
  leg_id : string;
  legType : OptionType;
  position : Position;
  strike : Q;
  expiry : string;
  quantity : Z;
  price : option Q
}.

Record TradeRecord := mkTrade {
  trade_id : string;
  userId : string;
  symbol : string;
  trade_strategy : option string;
  status : TradeStatus;
  openedAt : string;
  closedAt : option string;
  netCredit : option Q;
  netDebit : option Q;
  notes : option string;
  createdAt : string;
  updatedAt : string;
  legs : list OptionLegRecord
}.

Module StrategyMetric.
Record t := mk {
  strategy : StrategyKey;
  total : Z;
  wins : Z;
  losses : Z;
  averagePnl : Q
}.
End StrategyMetric.

Module EquityPoint.
Record t := mk { date : string; cumulativePnl : Q }.
End EquityPoint.

Module HoldingBucket.
Record t := mk { bucket : string; count : Z }.
End HoldingBucket.

Module Totals.
Record t := mk {
  winRate : Q;
  averagePnl : Q;
  averagePnlPct : Q;
  expectancy : Q;
  averageHoldDays : Q;
  closedTrades : Z
}.
End Totals.

Record AnalyticsSnapshot := mkSnapshot {
  generatedAt : Z;
  totals : Totals.t;
  strategyBreakdown : list StrategyMetric.t;
  equityCurve : list EquityPoint.t;
  holdingPeriods : list HoldingBucket.t
}.

(* ------------------------------------------------------------------ *)
(** ** Strategy classifier *)

Definition classifyStrategy (trade : TradeRecord) : StrategyKey :=
  let legs := legs trade in
  if (List.length legs =? 0)%nat then other
  else if (List.length legs =? 1)%nat then single
  else if (List.length legs =? 2)%nat then
    match legs with
    | first :: second :: _ =>
        if String.eqb (expiry first) (expiry second)
           && OptionType_eqb (legType first) (legType second)
        then verticalSpread else other
    | _ => other
    end
  else
    if (List.length legs =? 4)%nat
       && (let expiries := map expiry legs in
           let positions := map position legs in
           let hasLongAndShort :=
             existsb (Position_eqb long) positions
             && existsb (Position_eqb short) positions in
           let hasBothTypes :=
             existsb (fun leg => OptionType_eqb (legType leg) call) legs
             && existsb (fun leg => OptionType_eqb (legType leg) put) legs in
           (Set_size expiries =? 1)%nat && hasLongAndShort && hasBothTypes)
    then ironCondor
    else other.

(* ------------------------------------------------------------------ *)
(** ** Metric aggregator and snapshot service *)

Definition MS_PER_DAY : Z := 1000 * 60 * 60 * 24.
Definition ONE_DAY_MS : Z := 24 * 60 * 60 * 1000.
Definition DEFAULT_LABEL : string := "portfolio".

Definition bucketHoldingPeriod (days : Z) : string :=
  if days <=? 3 then "0-3d"
  else if days <=? 7 then "4-7d"
  else if days <=? 30 then "8-30d"
  else "31d+".

Definition tradePnl (trade : TradeRecord) : Q :=
  let credit := nullish (netCredit trade) 0%Q in
  let debit := nullish (netDebit trade) 0%Q in
  (credit - debit)%Q.

Definition tradeBasis (trade : TradeRecord) : Q :=
  let credit := Qabs (nullish (netCredit trade) 0%Q) in
  let debit := Qabs (nullish (netDebit trade) 0%Q) in
  let basis := if Qgtb debit 0 then debit else credit in
  if Qeq_bool basis 0 then 1%Q else basis.

(** [pnlPct] of the aggregation loop: [(pnl / basis) * 100]. *)
Definition pnlPct (trade : TradeRecord) : Q :=
  let pnl := tradePnl trade in
  let basis := tradeBasis trade in
  ((pnl / basis) * 100)%Q.

(** Accumulators of the aggregation loop. *)
Module Acc.
Record t := mk {
  wins : Z;
  losses : Z;
  pnlSum : Q;
  pnlPctSum : Q;
  holdSum : Z;
  winPnlSum : Q;
  lossPnlSum : Q
}.
Definition zero : t := mk 0 0 0%Q 0%Q 0 0%Q 0%Q.
End Acc.

Module Stats.
Record t := mk { total : Z; wins : Z; losses : Z; pnlSum : Q }.
Definition zero : t := mk 0 0 0 0%Q.
End Stats.

Record LoopState := mkLoop {
  acc : Acc.t;
  strategyMap : list (StrategyKey * Stats.t);
  holdingBuckets : list (string * Z)
}.

Definition loopInit : LoopState := mkLoop Acc.zero [] [].

Definition divByCount (count : Z) (x : Q) : Q :=
  if count =? 0 then 0%Q else (x / inject_Z count)%Q.

Definition bucketLabels : list string := ["0-3d"; "4-7d"; "8-30d"; "31d+"]%string.

(** Outcome of an awaited computation. *)
Inductive outcome (A : Type) :=
| Ok (a : A)
| Throw (e : string).
Arguments Ok {A} a.
Arguments Throw {A} e.

Module StoredAnalyticsSnapshot.
Record t := mk {
  userId : string;
  label : string;
  reportDate : Z;
  calculatedAt : Z;
  snapshot : AnalyticsSnapshot
}.
End StoredAnalyticsSnapshot.

(** The statements [pool.query] is given. *)
Inductive Query :=
| SelectUsers
| SelectTrades (userId : string)
| SelectLatestSummary (userId label : string)
| UpsertSummary (userId label : string).

(** The database, the clock and the console.  [queryRejects] says which
    statements the pool rejects; [clock n] is what the n-th reading of the
    time returns. *)
Record World := mkWorld {
  users : list string;
  tradeRows : string -> list TradeRecord;
  analytics_summaries : list StoredAnalyticsSnapshot.t;
  queryRejects : Query -> bool;
  clock : nat -> Z;
  ticks : nat;
  console : list string
}.

Definition M (A : Type) : Type := World -> outcome A * World.

Definition ret {A} (a : A) : M A := fun w => (Ok a, w).

Definition bind {A B} (m : M A) (k : A -> M B) : M B :=
  fun w =>
    match m w with
    | (Ok a, w') => k a w'
    | (Throw e, w') => (Throw e, w')
    end.

(** [try { m } catch (error) { h error }]. *)
Definition try_catch {A} (m : M A) (h : string -> M A) : M A :=
  fun w =>
    match m w with
    | (Ok a, w') => (Ok a, w')
    | (Throw e, w') => h e w'
    end.

Declare Scope js_scope.
Delimit Scope js_scope with js.
Notation "x <- m ;; k" := (bind m (fun x => k))
  (at level 61, m at next level, right associativity) : js_scope.
Notation "m ;; k" := (bind m (fun _ => k))
  (at level 61, right associativity) : js_scope.

(** [pool.query(q)]: rejects, or hands over the tables. *)
Definition pool_query (q : Query) : M World :=
  fun w => if queryRejects w q then (Throw "query failed"%string, w) else (Ok w, w).

(** [new Date()] / [Date.now()]. *)
Definition Date_now : M Z :=
  fun w =>
    (Ok (clock w (ticks w)),
     mkWorld (users w) (tradeRows w) (analytics_summaries w) (queryRejects w)
             (clock w) (S (ticks w)) (console w)).

Definition console_error (msg : string) : M unit :=
  fun w =>
    (Ok tt,
     mkWorld (users w) (tradeRows w) (analytics_summaries w) (queryRejects w)
             (clock w) (ticks w) (console w ++ [msg])).

Definition set_summaries (rows : list StoredAnalyticsSnapshot.t) : M unit :=
  fun w =>
    (Ok tt,
     mkWorld (users w) (tradeRows w) rows (queryRejects w)
             (clock w) (ticks w) (console w)).

Definition listTrades (userId : string) : M (list TradeRecord) :=
  (w <- pool_query (SelectTrades userId) ;;
   ret (tradeRows w userId))%js.

Fixpoint for_of {A} (xs : list A) (body : A -> M unit) : M unit :=
  match xs with
  | [] => ret tt
  | x :: xs' => (body x ;; for_of xs' body)%js
  end.

(** JSON body of the two analytics routes. *)
Module Response.
Record t := mk {
  statusCode : Z;
  data : AnalyticsSnapshot;
  reportDate : Z;
  calculatedAt : Z;
  refreshed : bool
}.
End Response.

Section Program.

(** [new Date(s).getTime()]; [None] stands for [NaN]. *)
Variable Date_getTime : string -> option Z.

(** The [DATE] under which the store files a timestamp ([report_date]). *)
Variable toDate : Z -> Z.

Definition daysBetween (start end_ : string) : Z :=
  match Date_getTime start, Date_getTime end_ with
  | Some startMs, Some endMs =>
      let diff := Z.max 0 (endMs - startMs) in
      Math_round_div diff MS_PER_DAY
  | _, _ => 0
  end.

(** [holdDays] of the aggregation loop. *)
Definition holdDays (trade : TradeRecord) : Z :=
  daysBetween (openedAt trade) (nullish (closedAt trade) (openedAt trade)).

(** Comparator of [sortedClosed]; a [NaN] difference orders nothing. *)
Definition byCloseDate (a b : TradeRecord) : Z :=
  let aDate := nullish (closedAt a) (openedAt a) in
  let bDate := nullish (closedAt b) (openedAt b) in
  match Date_getTime aDate, Date_getTime bDate with
  | Some ta, Some tb => ta - tb
  | _, _ => 0
  end.

(** Body of the first loop: [cumulative += pnl; equityBase.push(...)]. *)
Definition equityStep (st : Q * list EquityPoint.t) (trade : TradeRecord)
  : Q * list EquityPoint.t :=
  let '(cumulative, equityBase) := st in
  let pnl := tradePnl trade in
  let cumulative := (cumulative + pnl)%Q in
  let date := nullish (closedAt trade) (openedAt trade) in
  (cumulative, equityBase ++ [EquityPoint.mk date (toFixed2 cumulative)]).

(** Body of the second loop. *)
Definition loopStep (st : LoopState) (trade : TradeRecord) : LoopState :=
  let pnl := tradePnl trade in
  let pnlPct := pnlPct trade in
  let holdDays := holdDays trade in
  let bucket := bucketHoldingPeriod holdDays in
  let holdingBuckets' :=
    JsMap.set String.eqb bucket
      (nullish (JsMap.get String.eqb bucket (holdingBuckets st)) 0 + 1)
      (holdingBuckets st) in
  let t := acc st in
  let strategy := classifyStrategy trade in
  let cur :=
    nullish (JsMap.get StrategyKey_eqb strategy (strategyMap st)) Stats.zero in
  let cur :=
    Stats.mk (Stats.total cur + 1) (Stats.wins cur) (Stats.losses cur)
             (Stats.pnlSum cur + pnl)%Q in
  let pnlSum' := (Acc.pnlSum t + pnl)%Q in
  let pnlPctSum' := (Acc.pnlPctSum t + pnlPct)%Q in
  let holdSum' := Acc.holdSum t + holdDays in
  let '(t', cur') :=
    if Qgtb pnl 0 then
      (Acc.mk (Acc.wins t + 1) (Acc.losses t) pnlSum' pnlPctSum' holdSum'
              (Acc.winPnlSum t + pnl)%Q (Acc.lossPnlSum t),
       Stats.mk (Stats.total cur) (Stats.wins cur + 1) (Stats.losses cur)
                (Stats.pnlSum cur))
    else if Qltb pnl 0 then
      (Acc.mk (Acc.wins t) (Acc.losses t + 1) pnlSum' pnlPctSum' holdSum'
              (Acc.winPnlSum t) (Acc.lossPnlSum t + Qabs pnl)%Q,
       Stats.mk (Stats.total cur) (Stats.wins cur) (Stats.losses cur + 1)
                (Stats.pnlSum cur))
    else
      (Acc.mk (Acc.wins t) (Acc.losses t) pnlSum' pnlPctSum' holdSum'
              (Acc.winPnlSum t) (Acc.lossPnlSum t),
       Stats.mk (Stats.total cur + 0) (Stats.wins cur) (Stats.losses cur)
                (Stats.pnlSum cur)) in
  mkLoop t' (JsMap.set StrategyKey_eqb strategy cur' (strategyMap st))
         holdingBuckets'.

Definition toStrategyMetric (entry : StrategyKey * Stats.t) : StrategyMetric.t :=
  let '(strategy, stats) := entry in
  StrategyMetric.mk strategy (Stats.total stats) (Stats.wins stats)
    (Stats.losses stats)
    (if Stats.total stats =? 0 then 0%Q
     else toFixed2 (Stats.pnlSum stats / inject_Z (Stats.total stats))).

Definition byTotalDesc (a b : StrategyMetric.t) : Z :=
  StrategyMetric.total b - StrategyMetric.total a.

(** Everything [calculateAnalyticsSnapshot] does between reading the trades
    and reading the clock. *)
Definition snapshotOf (trades : list TradeRecord) (generatedAt : Z)
  : AnalyticsSnapshot :=
  let closedTrades := filter (fun trade => truthy (closedAt trade)) trades in
  let sortedClosed := Array_sort byCloseDate closedTrades in
  let equityBase := snd (fold_left equityStep sortedClosed (0%Q, [])) in
  let st := fold_left loopStep closedTrades loopInit in
  let totals := acc st in
  let closedCount := Z.of_nat (List.length closedTrades) in
  let winRate := divByCount closedCount (inject_Z (Acc.wins totals)) in
  let averagePnl := divByCount closedCount (Acc.pnlSum totals) in
  let averagePnlPct := divByCount closedCount (Acc.pnlPctSum totals) in
  let averageHoldDays :=
    divByCount closedCount (inject_Z (Acc.holdSum totals)) in
  let avgWin := divByCount (Acc.wins totals) (Acc.winPnlSum totals) in
  let avgLoss := divByCount (Acc.losses totals) (Acc.lossPnlSum totals) in
  let expectancy := (avgWin * winRate - avgLoss * (1 - winRate))%Q in
  let strategyBreakdown :=
    Array_sort byTotalDesc (map toStrategyMetric (strategyMap st)) in
  let holdingPeriods :=
    map (fun bucket =>
           HoldingBucket.mk bucket
             (nullish (JsMap.get String.eqb bucket (holdingBuckets st)) 0))
        bucketLabels in
  mkSnapshot generatedAt
    (Totals.mk (toFixed2 (winRate * 100)) (toFixed2 averagePnl)
               (toFixed2 averagePnlPct) (toFixed2 expectancy)
               (toFixed2 averageHoldDays) closedCount)
    strategyBreakdown equityBase holdingPeriods.

Definition calculateAnalyticsSnapshot (userId : string) : M AnalyticsSnapshot :=
  (trades <- listTrades userId ;;
   generatedAt <- Date_now ;;
   ret (snapshotOf trades generatedAt))%js.

(** [INSERT ... ON CONFLICT (user_id, label, report_date) DO UPDATE SET
    snapshot, calculated_at]. *)
Definition sameKey (a b : StoredAnalyticsSnapshot.t) : bool :=
  String.eqb (StoredAnalyticsSnapshot.userId a) (StoredAnalyticsSnapshot.userId b)
  && String.eqb (StoredAnalyticsSnapshot.label a) (StoredAnalyticsSnapshot.label b)
  && (StoredAnalyticsSnapshot.reportDate a =? StoredAnalyticsSnapshot.reportDate b).

Fixpoint upsertRow (row : StoredAnalyticsSnapshot.t)
         (rows : list StoredAnalyticsSnapshot.t) : list StoredAnalyticsSnapshot.t :=
  match rows with
  | [] => [row]
  | r :: rows' =>
      if sameKey row r
      then StoredAnalyticsSnapshot.mk
             (StoredAnalyticsSnapshot.userId r) (StoredAnalyticsSnapshot.label r)
             (StoredAnalyticsSnapshot.reportDate r)
             (StoredAnalyticsSnapshot.calculatedAt row)
             (StoredAnalyticsSnapshot.snapshot row) :: rows'
      else r :: upsertRow row rows'
  end.

(** The optional parameters [label] and [reportDate] are [None] when the
    caller leaves them out; their defaults are then evaluated. *)
Definition upsertAnalyticsSnapshot (userId : string) (snapshot : AnalyticsSnapshot)
           (label : option string) (reportDate : option Z)
  : M StoredAnalyticsSnapshot.t :=
  (let label := nullish label DEFAULT_LABEL in
   reportDate <- match reportDate with
                 | Some d => ret d
                 | None => Date_now
                 end ;;
   now <- Date_now ;;
   w <- pool_query (UpsertSummary userId label) ;;
   let row := StoredAnalyticsSnapshot.mk userId label (toDate reportDate) now
                snapshot in
   set_summaries (upsertRow row (analytics_summaries w)) ;;
   ret row)%js.

(** [ORDER BY report_date DESC, calculated_at DESC LIMIT 1]. *)
Definition newer (a b : StoredAnalyticsSnapshot.t) : bool :=
  (StoredAnalyticsSnapshot.reportDate a >? StoredAnalyticsSnapshot.reportDate b)
  || ((StoredAnalyticsSnapshot.reportDate a =? StoredAnalyticsSnapshot.reportDate b)
      && (StoredAnalyticsSnapshot.calculatedAt a
          >? StoredAnalyticsSnapshot.calculatedAt b)).

Definition latestRow (rows : list StoredAnalyticsSnapshot.t)
  : option StoredAnalyticsSnapshot.t :=
  fold_left
    (fun best r =>
       match best with
       | None => Some r
       | Some b => if newer r b then Some r else Some b
       end)
    rows None.

Definition getLatestAnalyticsSnapshot (userId : string) (label : option string)
  : M (option StoredAnalyticsSnapshot.t) :=
  (let label := nullish label DEFAULT_LABEL in
   w <- pool_query (SelectLatestSummary userId label) ;;
   ret (latestRow
          (filter (fun r =>
                     String.eqb (StoredAnalyticsSnapshot.userId r) userId
                     && String.eqb (StoredAnalyticsSnapshot.label r) label)
                  (analytics_summaries w))))%js.

(** GET /summary, after [requireAuth] has set [req.user.id]. *)
Definition getSummary (userId : string) : M Response.t :=
  (existing <- getLatestAnalyticsSnapshot userId None ;;
   now <- Date_now ;;
   let shouldRecompute :=
     match existing with
     | None => true
     | Some e => now - StoredAnalyticsSnapshot.calculatedAt e >? ONE_DAY_MS
     end in
   match negb shouldRecompute, existing with
   | true, Some e =>
       ret (Response.mk 200 (StoredAnalyticsSnapshot.snapshot e)
              (StoredAnalyticsSnapshot.reportDate e)
              (StoredAnalyticsSnapshot.calculatedAt e) false)
   | _, _ =>
       snapshot <- calculateAnalyticsSnapshot userId ;;
       stored <- upsertAnalyticsSnapshot userId snapshot None None ;;
       ret (Response.mk 200 (StoredAnalyticsSnapshot.snapshot stored)
              (StoredAnalyticsSnapshot.reportDate stored)
              (StoredAnalyticsSnapshot.calculatedAt stored) true)
   end)%js.

(** POST /recalculate. *)
Definition forceRecalculate (userId : string) : M Response.t :=
  (snapshot <- calculateAnalyticsSnapshot userId ;;
   stored <- upsertAnalyticsSnapshot userId snapshot None None ;;
   ret (Response.mk 201 (StoredAnalyticsSnapshot.snapshot stored)
          (StoredAnalyticsSnapshot.reportDate stored)
          (StoredAnalyticsSnapshot.calculatedAt stored) true))%js.

(** tasks/analytics.ts *)
Definition recalculateAnalyticsForUser (userId : string) : M unit :=
  (snapshot <- calculateAnalyticsSnapshot userId ;;
   upsertAnalyticsSnapshot userId snapshot None None ;;
   ret tt)%js.

Definition recalculateAnalyticsForAllUsers : M unit :=
  (result <- pool_query SelectUsers ;;
   for_of (users result) recalculateAnalyticsForUser)%js.

(** The callback given to [cron.schedule] in index.ts. *)
Definition cronCallback : M unit :=
  try_catch recalculateAnalyticsForAllUsers
    (fun error => console_error "Analytics cron failed").

End Program.

(* ------------------------------------------------------------------ *)
(** ** Authentication in front of the analytics routes
    (middleware/auth.ts, lib/token.ts, routes/analytics.ts) *)

Module TokenPayload.
Record t := mk { sub : string; email : string }.
End TokenPayload.

Module AuthUser.
Record t := mk { id : string; email : string }.
End AuthUser.

(** What [requireAuth] does with a request: answer it itself, or set
    [req.user] and call [next()]. *)
Inductive AuthResult :=
| AuthRejected (statusCode : Z) (message : string)
| AuthNext (user : AuthUser.t).

(** What a route sends: the analytics body, or a status with a message. *)
Inductive HttpResponse :=
| JsonBody (body : Response.t)
| JsonMessage (statusCode : Z) (message : string).

Section Routes.

(** [new Date(s).getTime()] and the [DATE] of a timestamp, as above. *)
Variable Date_getTime : string -> option Z.
Variable toDate : Z -> Z.

(** [jwt.verify(token, config.jwtSecret)]: the payload, or an exception. *)
Variable verifyToken : string -> outcome TokenPayload.t.

(** The accounts: whether the pool rejects
    [SELECT id, email FROM users WHERE id = $1], and the column [email]. *)
Variable accountLookupRejects : string -> bool.
Variable emailOf : string -> string.

Definition selectAccount (id : string) : M (list AuthUser.t) :=
  fun w =>
    if accountLookupRejects id then (Throw "query failed", w)
    else (Ok (map (fun u => AuthUser.mk u (emailOf u))
                  (filter (String.eqb id) (users w))),
          w).

Definition requireAuth (authorization : option string) : M AuthResult :=
  match authorization with
  | None => ret (AuthRejected 401 "Authorization header missing")
  | Some header =>
      if String.eqb header "" || negb (String.prefix "Bearer " header)
      then ret (AuthRejected 401 "Authorization header missing")
      else
        let token :=
          String.substring (String.length "Bearer ")
                           (String.length header - String.length "Bearer ")
                           header in
        match verifyToken token with
        | Throw _ =>
            (console_error "Token verification failed:" ;;
             ret (AuthRejected 401 "Invalid or expired token"))%js
        | Ok payload =>
            try_catch
              (rows <- selectAccount (TokenPayload.sub payload) ;;
               match rows with
               | [] => ret (AuthRejected 401 "Account no longer exists")
               | user :: _ =>
                   ret (AuthNext (AuthUser.mk (AuthUser.id user)
                                              (AuthUser.email user)))
               end)%js
              (fun error =>
                 (console_error "Authentication lookup failed:" ;;
                  ret (AuthRejected 500 "Unable to verify account"))%js)
        end
  end.

(** [router.get('/summary', requireAuth, handler)]. *)
Definition summaryRoute (authorization : option string) : M HttpResponse :=
  (auth <- requireAuth authorization ;;
   match auth with
   | AuthRejected statusCode message => ret (JsonMessage statusCode message)
   | AuthNext user =>
       body <- getSummary Date_getTime toDate (AuthUser.id user) ;;
       ret (JsonBody body)
   end)%js.

(** [router.post('/recalculate', requireAuth, handler)]. *)
Definition recalculateRoute (authorization : option string) : M HttpResponse :=
  (auth <- requireAuth authorization ;;
   match auth with
   | AuthRejected statusCode message => ret (JsonMessage statusCode message)
   | AuthNext user =>
       body <- forceRecalculate Date_getTime toDate (AuthUser.id user) ;;
       ret (JsonBody body)
   end)%js.

End Routes.

(* ------------------------------------------------------------------ *)
(** ** The trade repository (models/trade.ts over db/schema.sql)

    The tables [trades] and [option_legs] are lists of rows in insertion
    order.  A [DATE] is an integer, a [NUMERIC] a rational (after the column's
    coercion), a [TIMESTAMPTZ] a number of milliseconds.  [pool.connect()],
    BEGIN, COMMIT and ROLLBACK are taken to succeed; every other statement
    may be rejected.  The dates of a payload are valid [Date]s; a date read
    back from a stored text may be an Invalid Date. *)

Inductive TradeSide := credit | debit.

Record TradeInput := mkTradeInput {
  in_symbol : string;
  in_strategy : option string;
  in_status : option TradeStatus;
  in_openedAt : option Z;
  in_closedAt : option Z;
  in_notes : option string;
  in_side : TradeSide;
  in_entryPrice : Q;
  in_quantity : Z;
  in_optionType : OptionType;
  in_strike : Q;
  in_expiry : Z
}.

(** [Partial<TradeInput>]. *)
Record TradePatch := mkTradePatch {
  p_symbol : option string;
  p_strategy : option string;
  p_status : option TradeStatus;
  p_openedAt : option Z;
  p_closedAt : option Z;
  p_notes : option string;
  p_side : option TradeSide;
  p_entryPrice : option Q;
  p_quantity : option Z;
  p_optionType : option OptionType;
  p_strike : option Q;
  p_expiry : option Z
}.

Record TradeRow := mkTradeRow {
  t_id : string;
  t_user_id : string;
  t_symbol : string;
  t_strategy : option string;
  t_status : TradeStatus;
  t_opened_at : Z;
  t_closed_at : option Z;
  t_net_credit : option Q;
  t_net_debit : option Q;
  t_notes : option string;
  t_created_at : Z;
  t_updated_at : Z
}.

Record LegRow := mkLegRow {
  l_id : string;
  l_trade_id : string;
  l_leg_type : OptionType;
  l_position : Position;
  l_strike : Q;
  l_expiry : Z;
  l_quantity : Z;
  l_price : option Q;
  l_created_at : Z
}.

(** The statements of models/trade.ts that can be rejected. *)
Inductive Stmt :=
| InsertTrade (userId : string)
| InsertLeg (tradeId : string)
| SelectTrade (userId tradeId : string)
| SelectTradesOf (userId : string)
| UpdateTradeRow (tradeId userId : string)
| DeleteLegs (tradeId : string)
| DeleteTrade (tradeId userId : string).

(** The two tables, the transaction in progress ([now()] of its start and the
    tables as they were then), the statements the pool rejects, the values
    [uuid_generate_v4()] will produce, and the clock. *)
Record Db := mkDb {
  db_trades : list TradeRow;
  db_legs : list LegRow;
  db_tx : option (Z * (list TradeRow * list LegRow));
  db_rejects : Stmt -> bool;
  db_uuids : nat -> string;
  db_uuidCount : nat;
  db_clock : nat -> Z;
  db_ticks : nat
}.

Definition T (A : Type) : Type := Db -> outcome A * Db.

Definition tret {A} (a : A) : T A := fun db => (Ok a, db).

Definition tbind {A B} (m : T A) (k : A -> T B) : T B :=
  fun db =>
    match m db with
    | (Ok a, db') => k a db'
    | (Throw e, db') => (Throw e, db')
    end.

Definition tthrow {A} (e : string) : T A := fun db => (Throw e, db).

(** [try { m } catch (error) { h error }]. *)
Definition ttry {A} (m : T A) (h : string -> T A) : T A :=
  fun db =>
    match m db with
    | (Ok a, db') => (Ok a, db')
    | (Throw e, db') => h e db'
    end.

Declare Scope tx_scope.
Delimit Scope tx_scope with tx.
Notation "x <- m ;; k" := (tbind m (fun x => k))
  (at level 61, m at next level, right associativity) : tx_scope.
Notation "m ;; k" := (tbind m (fun _ => k))
  (at level 61, right associativity) : tx_scope.

Definition withTables (db : Db) (ts : list TradeRow) (ls : list LegRow)
           (tx : option (Z * (list TradeRow * list LegRow))) : Db :=
  mkDb ts ls tx (db_rejects db) (db_uuids db) (db_uuidCount db)
       (db_clock db) (db_ticks db).

(** Reading the clock: [new Date()] in the server, [now()] at BEGIN. *)
Definition readClock : T Z :=
  fun db =>
    (Ok (db_clock db (db_ticks db)),
     mkDb (db_trades db) (db_legs db) (db_tx db) (db_rejects db) (db_uuids db)
          (db_uuidCount db) (db_clock db) (S (db_ticks db))).

Definition nextUuid : T string :=
  fun db =>
    (Ok (db_uuids db (db_uuidCount db)),
     mkDb (db_trades db) (db_legs db) (db_tx db) (db_rejects db) (db_uuids db)
          (S (db_uuidCount db)) (db_clock db) (db_ticks db)).

(** Rejection of a statement by the pool. *)
Definition accept (s : Stmt) : T unit :=
  fun db => if db_rejects db s then (Throw "query failed", db) else (Ok tt, db).

Definition sqlBegin : T unit :=
  (t <- readClock ;;
   fun db => (Ok tt, withTables db (db_trades db) (db_legs db)
                                (Some (t, (db_trades db, db_legs db)))))%tx.

Definition sqlCommit : T unit :=
  fun db => (Ok tt, withTables db (db_trades db) (db_legs db) None).

Definition sqlRollback : T unit :=
  fun db =>
    match db_tx db with
    | Some (_, (ts, ls)) => (Ok tt, withTables db ts ls None)
    | None => (Ok tt, db)
    end.

(** [now()]: the start of the transaction in progress. *)
Definition sqlNow : T Z :=
  fun db =>
    match db_tx db with
    | Some (t, _) => (Ok t, db)
    | None => readClock db
    end.

(** A [Date] handed to a statement: [null], a time, or an Invalid Date, which
    the server refuses. *)
Inductive DateParam :=
| NullDate
| ValidDate (ms : Z)
| InvalidDate.

Definition newDate (parsed : option Z) : DateParam :=
  match parsed with
  | Some ms => ValidDate ms
  | None => InvalidDate
  end.

(** [InsertLegInput]. *)
Record InsertLegInput := mkInsertLeg {
  leg_tradeId : string;
  leg_legType : OptionType;
  leg_position : Position;
  leg_strike : Q;
  leg_expiry : DateParam;
  leg_quantity : Z;
  leg_price : Q
}.

Module TradeRepo.
Section Repository.

(** [new Date(s).getTime()]; the [DATE] a [Date] parameter is stored as;
    [to_char(d, 'YYYY-MM-DD')]; [toISOString()] of a timestamp; the coercions
    of the columns NUMERIC(12,2) and NUMERIC(12,4). *)
Variable Date_getTime : string -> option Z.
Variable toDate : Z -> Z.
Variable to_char : Z -> string.
Variable toISOString : Z -> string.
Variable numeric2 : Q -> Q.
Variable numeric4 : Q -> Q.

(** [baseSelect] and [normalizeTradeRow]: a trade row with its legs, oldest
    first. *)
Definition legOfRow (l : LegRow) : OptionLegRecord :=
  mkLeg (l_id l) (l_leg_type l) (l_position l) (l_strike l)
        (to_char (l_expiry l)) (l_quantity l) (l_price l).

Definition legsOfTrade (legs : list LegRow) (tradeId : string) : list LegRow :=
  Array_sort (fun a b => l_created_at a - l_created_at b)
             (filter (fun l => String.eqb (l_trade_id l) tradeId) legs).

Definition recordOfRow (legs : list LegRow) (t : TradeRow) : TradeRecord :=
  mkTrade (t_id t) (t_user_id t) (t_symbol t) (t_strategy t) (t_status t)
          (to_char (t_opened_at t)) (option_map to_char (t_closed_at t))
          (t_net_credit t) (t_net_debit t) (t_notes t)
          (toISOString (t_created_at t)) (toISOString (t_updated_at t))
          (map legOfRow (legsOfTrade legs (t_id t))).

(** [ORDER BY t.opened_at DESC, t.created_at DESC]. *)
Definition orderClause (a b : TradeRow) : Z :=
  if t_opened_at a =? t_opened_at b
  then t_created_at b - t_created_at a
  else t_opened_at b - t_opened_at a.

Definition listTrades (userId : string) : T (list TradeRecord) :=
  (accept (SelectTradesOf userId) ;;
   fun db =>
     (Ok (map (recordOfRow (db_legs db))
              (Array_sort orderClause
                 (filter (fun t => String.eqb (t_user_id t) userId)
                         (db_trades db)))),
      db))%tx.

(** [WHERE t.user_id = $1 AND t.id = $2]. *)
Definition ownedBy (userId tradeId : string) (t : TradeRow) : bool :=
  String.eqb (t_user_id t) userId && String.eqb (t_id t) tradeId.

Definition findTrade (userId tradeId : string) : T (option TradeRecord) :=
  (accept (SelectTrade userId tradeId) ;;
   fun db =>
     (Ok match filter (ownedBy userId tradeId) (db_trades db) with
         | [] => None
         | t :: _ => Some (recordOfRow (db_legs db) t)
         end,
      db))%tx.

Definition findTradeWithClient := findTrade.

Definition insertLeg (leg : InsertLegInput) : T unit :=
  (accept (InsertLeg (leg_tradeId leg)) ;;
   match leg_expiry leg with
   | ValidDate expiry =>
       id <- nextUuid ;;
       created <- sqlNow ;;
       fun db =>
         (Ok tt,
          withTables db (db_trades db)
            (db_legs db
             ++ [mkLegRow id (leg_tradeId leg) (leg_legType leg)
                          (leg_position leg) (numeric2 (leg_strike leg))
                          (toDate expiry) (leg_quantity leg)
                          (Some (numeric4 (leg_price leg))) created])
            (db_tx db))
   | _ => tthrow "invalid input syntax for type date"
   end)%tx.

Definition positionOf (side : TradeSide) : Position :=
  match side with credit => short | debit => long end.

Definition netOf (wanted side : TradeSide) (entryPrice : Q) (quantity : Z)
  : option Q :=
  match wanted, side with
  | credit, credit | debit, debit => Some (entryPrice * inject_Z quantity)%Q
  | _, _ => None
  end.

Definition createTrade (userId : string) (payload : TradeInput) : T TradeRecord :=
  ttry
    (sqlBegin ;;
     let netCredit :=
       netOf credit (in_side payload) (in_entryPrice payload)
             (in_quantity payload) in
     let netDebit :=
       netOf debit (in_side payload) (in_entryPrice payload)
             (in_quantity payload) in
     openedAt <- match in_openedAt payload with
                 | Some d => tret d
                 | None => readClock
                 end ;;
     accept (InsertTrade userId) ;;
     tradeId <- nextUuid ;;
     created <- sqlNow ;;
     (fun db =>
        (Ok tt,
         withTables db
           (db_trades db
            ++ [mkTradeRow tradeId userId (in_symbol payload)
                           (in_strategy payload)
                           (nullish (in_status payload) status_open)
                           (toDate openedAt)
                           (option_map toDate (in_closedAt payload))
                           (option_map numeric2 netCredit)
                           (option_map numeric2 netDebit)
                           (in_notes payload) created created])
           (db_legs db) (db_tx db))) ;;
     let position := positionOf (in_side payload) in
     insertLeg (mkInsertLeg tradeId (in_optionType payload) position
                            (in_strike payload) (ValidDate (in_expiry payload))
                            (in_quantity payload) (in_entryPrice payload)) ;;
     sqlCommit ;;
     trade <- findTradeWithClient userId tradeId ;;
     match trade with
     | None => tthrow "Failed to load trade after creation"
     | Some trade => tret trade
     end)%tx
    (fun error => (sqlRollback ;; tthrow error)%tx).

(** [UPDATE trades SET ... WHERE id = $9 AND user_id = $10]. *)
Definition updateRow (userId tradeId : string) (symbol : string)
           (strategy : option string) (status : TradeStatus) (openedAt : Z)
           (closedAt : option Z) (netCredit netDebit : option Q)
           (notes : option string) (updated : Z) (t : TradeRow) : TradeRow :=
  if String.eqb (t_id t) tradeId && String.eqb (t_user_id t) userId
  then mkTradeRow (t_id t) (t_user_id t) symbol strategy status openedAt closedAt
                  netCredit netDebit notes (t_created_at t) updated
  else t.

Definition updateTrade (userId tradeId : string) (payload : TradePatch)
  : T (option TradeRecord) :=
  ttry
    (sqlBegin ;;
     current <- findTradeWithClient userId tradeId ;;
     match current with
     | None => (sqlRollback ;; tret None)
     | Some current =>
         let leg0 := hd_error (legs current) in
         let side :=
           nullish (p_side payload)
                   (match netCredit current with
                    | Some _ => credit
                    | None => debit
                    end) in
         let entryPrice :=
           nullish (p_entryPrice payload)
                   (nullish (match leg0 with Some l => price l | None => None end)
                            0%Q) in
         let quantity :=
           nullish (p_quantity payload)
                   (nullish (option_map quantity leg0) 1) in
         let netCredit := netOf credit side entryPrice quantity in
         let netDebit := netOf debit side entryPrice quantity in
         let openedAt :=
           match p_openedAt payload with
           | Some d => ValidDate d
           | None => newDate (Date_getTime (openedAt current))
           end in
         let closedAt :=
           match p_closedAt payload with
           | Some d => ValidDate d
           | None =>
               if truthy (closedAt current)
               then newDate (Date_getTime (nullish (closedAt current) ""))
               else NullDate
           end in
         accept (UpdateTradeRow tradeId userId) ;;
         match openedAt, closedAt with
         | ValidDate opened, (NullDate | ValidDate _) =>
             updated <- sqlNow ;;
             (fun db =>
                (Ok tt,
                 withTables db
                   (map (updateRow userId tradeId
                           (nullish (p_symbol payload) (symbol current))
                           (match p_strategy payload with
                            | Some s => Some s
                            | None => trade_strategy current
                            end)
                           (nullish (p_status payload) (status current))
                           (toDate opened)
                           (match closedAt with
                            | ValidDate closed => Some (toDate closed)
                            | _ => None
                            end)
                           (option_map numeric2 netCredit)
                           (option_map numeric2 netDebit)
                           (match p_notes payload with
                            | Some n => Some n
                            | None => notes current
                            end)
                           updated)
                        (db_trades db))
                   (db_legs db) (db_tx db)))
         | _, _ => tthrow "invalid input syntax for type date"
         end ;;
         accept (DeleteLegs tradeId) ;;
         (fun db =>
            (Ok tt,
             withTables db (db_trades db)
               (filter (fun l => negb (String.eqb (l_trade_id l) tradeId))
                       (db_legs db))
               (db_tx db))) ;;
         let newSide := positionOf side in
         expiry <- match p_expiry payload with
                   | Some d => tret (ValidDate d)
                   | None =>
                       match leg0 with
                       | Some l =>
                           if negb (String.eqb (expiry l) "")
                           then tret (newDate (Date_getTime (expiry l)))
                           else (d <- readClock ;; tret (ValidDate d))
                       | None => (d <- readClock ;; tret (ValidDate d))
                       end
                   end ;;
         insertLeg (mkInsertLeg tradeId
                      (nullish (p_optionType payload)
                               (nullish (option_map legType leg0) call))
                      newSide
                      (nullish (p_strike payload)
                               (nullish (option_map strike leg0) 0%Q))
                      expiry quantity entryPrice) ;;
         sqlCommit ;;
         findTradeWithClient userId tradeId
     end)%tx
    (fun error => (sqlRollback ;; tthrow error)%tx).

(** [DELETE FROM trades WHERE id = $1 AND user_id = $2]; the legs of a deleted
    trade go with it (ON DELETE CASCADE). *)
Definition removeTrade (userId tradeId : string) : T bool :=
  (accept (DeleteTrade tradeId userId) ;;
   fun db =>
     let deleted := filter (ownedBy userId tradeId) (db_trades db) in
     (Ok (0 <? Z.of_nat (List.length deleted)),
      withTables db
        (filter (fun t => negb (ownedBy userId tradeId t)) (db_trades db))
        (filter (fun l =>
                   negb (existsb (fun t => String.eqb (t_id t) (l_trade_id l))
                                 deleted))
                (db_legs db))
        (db_tx db)))%tx.

End Repository.
End TradeRepo.

(* ------------------------------------------------------------------ *)
(** ** Market snapshots (services/marketData.ts)

    The two quote providers are the outside world: what a provider answers
    to its n-th call for a symbol, a snapshot, nothing, or an exception, is
    given with the state, time stamps included; the clock of the state is
    what [resolveSnapshot] itself reads.  A request that is in flight is a
    promise: [snapshotInFlight] holds, under the symbol, the snapshot the
    promise resolves to (the request of [resolveSnapshot] never rejects).
    One call of [resolveSnapshot] runs from its entry to its return; requests
    that were entered before and are still pending are the entries of
    [snapshotInFlight]. *)

Inductive SnapshotSource := alphavantage | yahoo | fallback.

Definition SnapshotSource_eqb (a b : SnapshotSource) : bool :=
  match a, b with
  | alphavantage, alphavantage | yahoo, yahoo | fallback, fallback => true
  | _, _ => false
  end.

Module MarketSnapshot.
Record t := mk {
  symbol : string;
  price : option Q;
  changePercent : option Q;
  previousClose : option Q;
  currency : option string;
  lastUpdated : option string;
  source : option SnapshotSource
}.
End MarketSnapshot.

Module CacheEntry.
Record t := mk { snapshot : MarketSnapshot.t; fetchedAt : Z }.
End CacheEntry.

Record Market := mkMarket {
  snapshotCache : list (string * CacheEntry.t);
  snapshotInFlight : list (string * MarketSnapshot.t);
  providerAnswers : SnapshotSource -> string -> nat -> outcome (option MarketSnapshot.t);
  providerCalls : string -> nat;
  market_clock : nat -> Z;
  market_ticks : nat;
  console_warnings : list string
}.

Definition St (A : Type) : Type := Market -> A * Market.

Definition sret {A} (a : A) : St A := fun m => (a, m).

Definition sbind {A B} (c : St A) (k : A -> St B) : St B :=
  fun m => let (a, m') := c m in k a m'.

Declare Scope st_scope.
Delimit Scope st_scope with st.
Notation "x <- c ;; k" := (sbind c (fun x => k))
  (at level 61, c at next level, right associativity) : st_scope.
Notation "c ;; k" := (sbind c (fun _ => k))
  (at level 61, right associativity) : st_scope.

(** [Date.now()] and [new Date()]. *)
Definition market_now : St Z :=
  fun m =>
    (market_clock m (market_ticks m),
     mkMarket (snapshotCache m) (snapshotInFlight m) (providerAnswers m)
              (providerCalls m) (market_clock m) (S (market_ticks m))
              (console_warnings m)).

Definition console_warn (msg : string) : St unit :=
  fun m =>
    (tt,
     mkMarket (snapshotCache m) (snapshotInFlight m) (providerAnswers m)
              (providerCalls m) (market_clock m) (market_ticks m)
              (console_warnings m ++ [msg])).

(** [snapshotCache.set(upper, entry)]. *)
Definition snapshotCache_set (upper : string) (entry : CacheEntry.t) : St unit :=
  fun m =>
    (tt,
     mkMarket (JsMap.set String.eqb upper entry (snapshotCache m))
              (snapshotInFlight m) (providerAnswers m) (providerCalls m)
              (market_clock m) (market_ticks m) (console_warnings m)).

(** [snapshotInFlight.set(upper, request)], the promise standing for the
    snapshot it resolves to, and [snapshotInFlight.delete(upper)]. *)
Definition snapshotInFlight_set (upper : string) (pending : MarketSnapshot.t)
  : St unit :=
  fun m =>
    (tt,
     mkMarket (snapshotCache m)
              (JsMap.set String.eqb upper pending (snapshotInFlight m))
              (providerAnswers m) (providerCalls m) (market_clock m)
              (market_ticks m) (console_warnings m)).

Definition snapshotInFlight_delete (upper : string) : St unit :=
  fun m =>
    (tt,
     mkMarket (snapshotCache m)
              (filter (fun kv => negb (String.eqb upper (fst kv)))
                      (snapshotInFlight m))
              (providerAnswers m) (providerCalls m) (market_clock m)
              (market_ticks m) (console_warnings m)).

(** [await provider()], for the provider of the given name: its answer to
    this call, the calls being counted by symbol. *)
Definition callProvider (name : SnapshotSource) (upper : string)
  : St (outcome (option MarketSnapshot.t)) :=
  fun m =>
    (providerAnswers m name upper (providerCalls m upper),
     mkMarket (snapshotCache m) (snapshotInFlight m) (providerAnswers m)
              (fun u => if String.eqb u upper then S (providerCalls m u)
                        else providerCalls m u)
              (market_clock m) (market_ticks m) (console_warnings m)).

Definition SNAPSHOT_TTL_MS : Z := 60 * 1000.

Section MarketData.

(** [String.prototype.toUpperCase]; [new Date(s).getTime()]; [toISOString()];
    [config.marketData.provider] and [hasMarketCredentials()]; the time the
    module was loaded, as text. *)
Variable toUpperCase : string -> string.
Variable Date_getTime : string -> option Z.
Variable toISOString : Z -> string.
Variable preferred : string.
Variable hasMarketCredentials : bool.
Variable loadedAt : string.

(** The keys of [fallbackSnapshots] are in upper case, which no member of
    [Object.prototype] is. *)
Definition fallbackSnapshots (upper : string) : option MarketSnapshot.t :=
  if String.eqb upper "NVDA" then
    Some (MarketSnapshot.mk "NVDA" (Some (49762 # 100)) (Some (184 # 100))
            (Some (48863 # 100)) None (Some loadedAt) (Some fallback))
  else if String.eqb upper "TSLA" then
    Some (MarketSnapshot.mk "TSLA" (Some (22415 # 100)) (Some (- 63 # 100))
            (Some (22557 # 100)) None (Some loadedAt) (Some fallback))
  else if String.eqb upper "MSFT" then
    Some (MarketSnapshot.mk "MSFT" (Some (41202 # 100)) (Some (42 # 100))
            (Some (4103 # 10)) None (Some loadedAt) (Some fallback))
  else None.

Definition providerOrder : list SnapshotSource :=
  if String.eqb preferred "yahoo" then
    [yahoo] ++ (if hasMarketCredentials then [alphavantage] else [])
  else if String.eqb preferred "alphavantage" then
    (if hasMarketCredentials then [alphavantage] else []) ++ [yahoo]
  else
    [yahoo] ++ (if hasMarketCredentials then [alphavantage] else []).

Definition preferredSources : list SnapshotSource :=
  if String.eqb preferred "alphavantage"
  then [alphavantage; yahoo; fallback]
  else [yahoo; alphavantage; fallback].

(** [Array.prototype.indexOf]. *)
Fixpoint indexOf (x : SnapshotSource) (l : list SnapshotSource) : Z :=
  match l with
  | [] => -1
  | y :: l' =>
      if SnapshotSource_eqb y x then 0
      else let i := indexOf x l' in if i =? -1 then -1 else i + 1
  end.

Definition sourceRank (snapshot : MarketSnapshot.t) : Z :=
  let idx := indexOf (nullish (MarketSnapshot.source snapshot) fallback)
                     preferredSources in
  if idx =? -1 then Z.of_nat (List.length preferredSources) else idx.

(** [a.lastUpdated ? new Date(a.lastUpdated).getTime() : 0]; [None] is NaN. *)
Definition updatedTime (a : MarketSnapshot.t) : option Z :=
  if truthy (MarketSnapshot.lastUpdated a)
  then Date_getTime (nullish (MarketSnapshot.lastUpdated a) "")
  else Some 0.

(** The comparator given to [resolvedSnapshots.sort]. *)
Definition bySourceCurrencyTime (a b : MarketSnapshot.t) : Z :=
  let sourceScore := sourceRank a - sourceRank b in
  if negb (sourceScore =? 0) then sourceScore
  else
    let currencyScore :=
      (if truthy (MarketSnapshot.currency b) then 1 else 0)
      - (if truthy (MarketSnapshot.currency a) then 1 else 0) in
    if negb (currencyScore =? 0) then currencyScore
    else
      match updatedTime a, updatedTime b with
      | Some aTime, Some bTime => bTime - aTime
      | _, _ => 0
      end.

(** One round of the loop that fills what [primary] lacks. *)
Definition mergeCandidate (primary candidate : MarketSnapshot.t)
  : MarketSnapshot.t :=
  MarketSnapshot.mk
    (MarketSnapshot.symbol primary)
    (match MarketSnapshot.price primary with
     | None => MarketSnapshot.price candidate
     | Some p => Some p
     end)
    (match MarketSnapshot.changePercent primary with
     | None => MarketSnapshot.changePercent candidate
     | Some c => Some c
     end)
    (match MarketSnapshot.previousClose primary with
     | None => MarketSnapshot.previousClose candidate
     | Some c => Some c
     end)
    (if negb (truthy (MarketSnapshot.currency primary))
        && truthy (MarketSnapshot.currency candidate)
     then MarketSnapshot.currency candidate
     else MarketSnapshot.currency primary)
    (if negb (truthy (MarketSnapshot.lastUpdated primary))
        && truthy (MarketSnapshot.lastUpdated candidate)
     then MarketSnapshot.lastUpdated candidate
     else MarketSnapshot.lastUpdated primary)
    (MarketSnapshot.source primary).

(** [for (const provider of providerOrder) { try { ... } catch { ... } }]. *)
Fixpoint collectSnapshots (upper : string) (order : list SnapshotSource)
         (resolvedSnapshots : list MarketSnapshot.t)
  : St (list MarketSnapshot.t) :=
  match order with
  | [] => sret resolvedSnapshots
  | provider :: order' =>
      (answer <- callProvider provider upper ;;
       match answer with
       | Ok (Some snapshot) =>
           match MarketSnapshot.price snapshot with
           | Some _ =>
               collectSnapshots upper order' (resolvedSnapshots ++ [snapshot])
           | None => collectSnapshots upper order' resolvedSnapshots
           end
       | Ok None => collectSnapshots upper order' resolvedSnapshots
       | Throw _ =>
           console_warn ("Market data provider failed for " ++ upper ++ ":") ;;
           collectSnapshots upper order' resolvedSnapshots
       end)%st
  end.

(** The body of the request of [resolveSnapshot]. *)
Definition request (upper : string) (cached : option CacheEntry.t)
  : St MarketSnapshot.t :=
  (resolvedSnapshots <- collectSnapshots upper providerOrder [] ;;
   match Array_sort bySourceCurrencyTime resolvedSnapshots with
   | first :: rest =>
       let primary := fold_left mergeCandidate rest first in
       now <- market_now ;;
       snapshotCache_set upper (CacheEntry.mk primary now) ;;
       sret primary
   | [] =>
       match cached with
       | Some entry =>
           console_warn ("Falling back to cached snapshot for " ++ upper
                         ++ " after provider failures.") ;;
           sret (CacheEntry.snapshot entry)
       | None =>
           match fallbackSnapshots upper with
           | Some fallbackSnapshot =>
               date <- market_now ;;
               let result :=
                 MarketSnapshot.mk
                   (MarketSnapshot.symbol fallbackSnapshot)
                   (MarketSnapshot.price fallbackSnapshot)
                   (MarketSnapshot.changePercent fallbackSnapshot)
                   (MarketSnapshot.previousClose fallbackSnapshot)
                   (MarketSnapshot.currency fallbackSnapshot)
                   (Some (toISOString date)) (Some fallback) in
               now <- market_now ;;
               snapshotCache_set upper (CacheEntry.mk result now) ;;
               sret result
           | None =>
               date <- market_now ;;
               let empty :=
                 MarketSnapshot.mk upper None None None None
                                   (Some (toISOString date)) (Some fallback) in
               now <- market_now ;;
               snapshotCache_set upper (CacheEntry.mk empty now) ;;
               sret empty
           end
       end
   end)%st.

(** What [resolveSnapshot] does once the cache has not served: it returns
    the promise of a request in flight for the symbol, or makes the request,
    registered in [snapshotInFlight] until it has resolved.  (The source
    registers the request as soon as it is started; nothing it does before
    it resolves reads [snapshotInFlight].) *)
Definition joinOrRequest (upper : string) (cached : option CacheEntry.t)
  : St MarketSnapshot.t :=
  fun m =>
    match JsMap.get String.eqb upper (snapshotInFlight m) with
    | Some pending => (pending, m)
    | None =>
        (result <- request upper cached ;;
         snapshotInFlight_set upper result ;;
         snapshotInFlight_delete upper ;;
         sret result)%st m
    end.

Definition resolveSnapshot (symbol : string) : St MarketSnapshot.t :=
  let upper := toUpperCase symbol in
  fun m =>
    let cached := JsMap.get String.eqb upper (snapshotCache m) in
    (match cached with
     | Some entry =>
         now <- market_now ;;
         if now - CacheEntry.fetchedAt entry <? SNAPSHOT_TTL_MS
         then sret (CacheEntry.snapshot entry)
         else joinOrRequest upper cached
     | None => joinOrRequest upper cached
     end)%st m.

End MarketData.

(* ------------------------------------------------------------------ *)
(** ** A concrete clock and calendar, for running the program

    [listTrades] hands the aggregator dates as [to_char(..., 'YYYY-MM-DD')]
    text; [isoDateMs] is [new Date(s).getTime()] on that form (UTC midnight of
    the day) and [NaN] on anything else. *)

Definition digitOf (c : ascii) : option Z :=
  let n := Z.of_nat (nat_of_ascii c) in
  if (48 <=? n) && (n <=? 57) then Some (n - 48) else None.

Fixpoint digitsOf (cs : list ascii) (accu : Z) : option Z :=
  match cs with
  | [] => Some accu
  | c :: cs' =>
      match digitOf c with
      | Some d => digitsOf cs' (10 * accu + d)
      | None => None
      end
  end.

Definition isLeap (y : Z) : bool :=
  ((y mod 4 =? 0) && negb (y mod 100 =? 0)) || (y mod 400 =? 0).

Definition daysInMonth (y m : Z) : Z :=
  if m =? 2 then (if isLeap y then 29 else 28)
  else if (m =? 4) || (m =? 6) || (m =? 9) || (m =? 11) then 30
  else 31.

(** Days from 1970-01-01 to the civil date y-m-d. *)
Definition daysFromCivil (y m d : Z) : Z :=
  let y' := if m <=? 2 then y - 1 else y in
  let era := y' / 400 in
  let yoe := y' - era * 400 in
  let mp := if m <=? 2 then m + 9 else m - 3 in
  let doy := (153 * mp + 2) / 5 + d - 1 in
  let doe := yoe * 365 + yoe / 4 - yoe / 100 + doy in
  era * 146097 + doe - 719468.

Definition isoDateMs (s : string) : option Z :=
  match list_ascii_of_string s with
  | [y1; y2; y3; y4; "-"%char; m1; m2; "-"%char; d1; d2] =>
      match digitsOf [y1; y2; y3; y4] 0, digitsOf [m1; m2] 0, digitsOf [d1; d2] 0 with
      | Some y, Some m, Some d =>
          if (1 <=? m) && (m <=? 12) && (1 <=? d) && (d <=? daysInMonth y m)
          then Some (daysFromCivil y m d * MS_PER_DAY)
          else None
      | _, _, _ => None
      end
  | _ => None
  end.

(** The UTC day of a timestamp. *)
Definition utcDay (t : Z) : Z := t / MS_PER_DAY.

(* ------------------------------------------------------------------ *)
(** ** Quantities in the words of the specification *)

Definition Qsum (xs : list Q) : Q := fold_right Qplus 0%Q xs.
Definition Zsum (xs : list Z) : Z := fold_right Z.add 0 xs.

(** A trade is closed iff it carries a closed date. *)
Definition isClosed (trade : TradeRecord) : bool := truthy (closedAt trade).
Definition closedOf (trades : list TradeRecord) : list TradeRecord :=
  filter isClosed trades.

Definition isWin (trade : TradeRecord) : bool := Qgtb (tradePnl trade) 0.
Definition isLoss (trade : TradeRecord) : bool := Qltb (tradePnl trade) 0.

Definition countZ {A} (l : list A) : Z := Z.of_nat (List.length l).

(** Mean of a list of amounts, 0 for the empty list. *)
Definition meanOr0 (xs : list Q) : Q :=
  match xs with
  | [] => 0%Q
  | _ => (Qsum xs / inject_Z (countZ xs))%Q
  end.

(** Mean of the strictly positive P&L. *)
Definition avgWinOf (closed : list TradeRecord) : Q :=
  meanOr0 (map tradePnl (filter isWin closed)).

(** Mean size of the strictly negative P&L (a positive amount). *)
Definition avgLossOf (closed : list TradeRecord) : Q :=
  meanOr0 (map (fun t => Qabs (tradePnl t)) (filter isLoss closed)).

(** Signed mean of the strictly negative P&L (a negative amount). *)
Definition signedAvgLossOf (closed : list TradeRecord) : Q :=
  meanOr0 (map tradePnl (filter isLoss closed)).

(** wins / closedCount, 0 without closed trades. *)
Definition winRateFractionOf (closed : list TradeRecord) : Q :=
  match closed with
  | [] => 0%Q
  | _ => (inject_Z (countZ (filter isWin closed)) / inject_Z (countZ closed))%Q
  end.

Definition expectancyOf (closed : list TradeRecord) : Q :=
  (avgWinOf closed * winRateFractionOf closed
   - avgLossOf closed * (1 - winRateFractionOf closed))%Q.

(** The condition under which four legs make an iron condor. *)
Definition condorShape (ls : list OptionLegRecord) : Prop :=
  (forall l l', In l ls -> In l' ls -> expiry l = expiry l') /\
  (exists l, In l ls /\ position l = long) /\
  (exists l, In l ls /\ position l = short) /\
  (exists l, In l ls /\ legType l = call) /\
  (exists l, In l ls /\ legType l = put).

(** Builders for sample legs and trades. *)
Definition leg (ty : OptionType) (pos : Position) (k : Q) (exp : string)
  : OptionLegRecord :=
  mkLeg "leg" ty pos k exp 1 None.

Definition trade (user : string) (opened : string) (closed : option string)
           (credit debit : option Q) (ls : list OptionLegRecord) : TradeRecord :=
  mkTrade "trade" user "SPY" None status_closed opened closed credit debit None
          "2024-01-01T00:00:00.000Z" "2024-01-01T00:00:00.000Z" ls.

(** Two snapshots agree on everything but [generatedAt]. *)
Definition sameContent (a b : AnalyticsSnapshot) : Prop :=
  totals a = totals b /\
  strategyBreakdown a = strategyBreakdown b /\
  equityCurve a = equityCurve b /\
  holdingPeriods a = holdingPeriods b.

(** A stored row holding a snapshot computed from the trades of user [u]. *)
Definition recomputedRow (Date_getTime : string -> option Z) (w : World)
           (u : string) (r : StoredAnalyticsSnapshot.t) : Prop :=
  StoredAnalyticsSnapshot.userId r = u /\
  StoredAnalyticsSnapshot.label r = DEFAULT_LABEL /\
  exists g, StoredAnalyticsSnapshot.snapshot r
            = snapshotOf Date_getTime (tradeRows w u) g.

(** [r] is [x] rounded to two decimals: a whole number of cents that is
    nearest to [x], a tie going either way. *)
Definition roundedToCents (r x : Q) : Prop :=
  (exists k : Z, r = k # 100) /\ (Qabs (r - x) <= 1 # 200)%Q.

(** A gain of 100 closed on the 8th and a loss of 40 closed on the 10th. *)
Definition gainThenLoss : list TradeRecord :=
  [trade "a" "2024-01-03" (Some "2024-01-10") None (Some 40%Q)
     [leg put long 100 "2024-02-16"];
   trade "a" "2024-01-05" (Some "2024-01-08") (Some 100%Q) None
     [leg put short 100 "2024-02-16"]].

(** Three users with a few trades each; the clock starts on
    2024-03-01T02:00:00Z and advances one millisecond per reading. *)
Definition sampleTrades (u : string) : list TradeRecord :=
  if String.eqb u "a" then
    [trade "a" "2024-01-05" (Some "2024-01-10") (Some 100%Q) None
       [leg put short 100 "2024-02-16"];
     trade "a" "2024-01-03" (Some "2024-01-08") None (Some 40%Q)
       [leg put long 100 "2024-02-16"; leg put short 90 "2024-02-16"];
     trade "a" "2024-01-02" None (Some 75%Q) None
       [leg call short 120 "2024-02-16"]]
  else if String.eqb u "c" then
    [trade "c" "2024-01-01" (Some "2024-01-10") (Some 250%Q) None
       [leg put short 100 "2024-02-16"]]
  else [].

Definition sampleClock (n : nat) : Z := 1709258400000 + Z.of_nat n.

Definition sampleWorld : World :=
  mkWorld ["a"; "b"; "c"] sampleTrades [] (fun _ => false) sampleClock 0 [].

(** The same world, in which reading the trades of user b is rejected. *)
Definition rejectsTradesOfB (q : Query) : bool :=
  match q with
  | SelectTrades u => String.eqb u "b"
  | _ => false
  end.

Definition faultyWorld : World :=
  mkWorld ["a"; "b"; "c"] sampleTrades [] rejectsTradesOfB sampleClock 0 [].

(** A world whose store holds, for user a, one snapshot computed exactly 24
    hours before the next reading of the clock. *)
Definition boundaryRow : StoredAnalyticsSnapshot.t :=
  StoredAnalyticsSnapshot.mk "a" DEFAULT_LABEL
    (utcDay (sampleClock 0 - ONE_DAY_MS)) (sampleClock 0 - ONE_DAY_MS)
    (snapshotOf isoDateMs (sampleTrades "a") (sampleClock 0 - ONE_DAY_MS - 1)).

Definition boundaryWorld : World :=
  mkWorld ["a"; "b"; "c"] sampleTrades [boundaryRow] (fun _ => false)
          sampleClock 0 [].

(** The distinct strategies of a list, in the order of their first
    appearance. *)
Fixpoint firstSeen (ks : list StrategyKey) : list StrategyKey :=
  match ks with
  | [] => []
  | k :: rest =>
      k :: filter (fun k' => negb (StrategyKey_eqb k' k)) (firstSeen rest)
  end.

(** The columns of the UNIQUE constraint of analytics_summaries. *)
Definition keyOf (r : StoredAnalyticsSnapshot.t) : string * string * Z :=
  (StoredAnalyticsSnapshot.userId r, StoredAnalyticsSnapshot.label r,
   StoredAnalyticsSnapshot.reportDate r).

(** The stored rows of a user under the default label, in table order. *)
Definition rowsOfUser (w : World) (userId : string)
  : list StoredAnalyticsSnapshot.t :=
  filter (fun r => String.eqb (StoredAnalyticsSnapshot.userId r) userId
                   && String.eqb (StoredAnalyticsSnapshot.label r) DEFAULT_LABEL)
         (analytics_summaries w).

(** [m] takes every world to a world related to it by [R], whatever its
    outcome. *)
Definition keeps {A} (R : World -> World -> Prop) (m : M A) : Prop :=
  forall w, R w (snd (m w)).

(** The rows of every user but [u] are the same, in the same order. *)
Definition sameRowsOfOthers (u : string) (w w' : World) : Prop :=
  filter (fun r => negb (String.eqb (StoredAnalyticsSnapshot.userId r) u))
         (analytics_summaries w')
  = filter (fun r => negb (String.eqb (StoredAnalyticsSnapshot.userId r) u))
           (analytics_summaries w).

(** Users, trades, fault pattern and clock are the same. *)
Definition sameRepository (w w' : World) : Prop :=
  users w' = users w /\ tradeRows w' = tradeRows w /\
  queryRejects w' = queryRejects w /\ clock w' = clock w.

(** What a run of the trade repository establishes: from a database that
    satisfies [P], the database after [m] satisfies [Q], whether [m] returns
    or throws. *)
Definition leads {A} (P Q : Db -> Prop) (m : T A) : Prop :=
  forall db, P db -> Q (snd (m db)).

(** A run of the trade repository with both its ends: from a database that
    satisfies [P], a value that [m] returns satisfies [Q] with the database
    it leaves, and a database that [m] leaves when it throws satisfies [E]. *)
Definition triple {A} (P : Db -> Prop) (m : T A) (Q : A -> Db -> Prop)
           (E : Db -> Prop) : Prop :=
  forall db, P db ->
    match m db with
    | (Ok a, db') => Q a db'
    | (Throw _, db') => E db'
    end.

(** A transaction begun on the tables of [db0] is in progress, with the
    rejections of [db0]. *)
Definition inTransaction (db0 db : Db) : Prop :=
  (exists t, db_tx db = Some (t, (db_trades db0, db_legs db0))) /\
  db_rejects db = db_rejects db0.

(** The rows that are not the trade [tradeId] of [userId], and the legs of the
    other trades. *)
Definition otherTrades (userId tradeId : string) (ts : list TradeRow)
  : list TradeRow :=
  filter (fun t => negb (TradeRepo.ownedBy userId tradeId t)) ts.

Definition otherLegs (tradeId : string) (ls : list LegRow) : list LegRow :=
  filter (fun l => negb (String.eqb (l_trade_id l) tradeId)) ls.

Definition sameOthers (userId tradeId : string) (db0 : Db)
           (ts : list TradeRow) (ls : list LegRow) : Prop :=
  otherTrades userId tradeId ts = otherTrades userId tradeId (db_trades db0) /\
  otherLegs tradeId ls = otherLegs tradeId (db_legs db0).

(** The other rows are those of [db0], in the tables and in what a ROLLBACK
    would restore. *)
Definition untouched (userId tradeId : string) (db0 db : Db) : Prop :=
  sameOthers userId tradeId db0 (db_trades db) (db_legs db) /\
  match db_tx db with
  | Some (_, (ts, ls)) => sameOthers userId tradeId db0 ts ls
  | None => True
  end.

(** [ORDER BY t.opened_at DESC, t.created_at DESC] as a relation: [a] may
    come before [b]. *)
Definition newerFirst (a b : TradeRow) : Prop :=
  t_opened_at b < t_opened_at a \/
  (t_opened_at a = t_opened_at b /\ t_created_at b <= t_created_at a).

(** Two worlds that differ at most in what the console shows. *)
Definition sameButConsole (w w' : World) : Prop :=
  users w' = users w /\ tradeRows w' = tradeRows w /\
  analytics_summaries w' = analytics_summaries w /\
  queryRejects w' = queryRejects w /\ clock w' = clock w /\
  ticks w' = ticks w.

(** ** A concrete database, for running the repository

    [dayText] is [to_char(d, 'YYYY-MM-DD')] of a [DATE] counted in days from
    1970-01-01, [isoText] is [toISOString()], [numeric s] the coercion of a
    column NUMERIC(12,s): the nearest multiple of [10^-s], a tie going away
    from zero. *)

Definition civilFromDays (z : Z) : Z * Z * Z :=
  let z' := z + 719468 in
  let era := z' / 146097 in
  let doe := z' - era * 146097 in
  let yoe := (doe - doe / 1460 + doe / 36524 - doe / 146096) / 365 in
  let doy := doe - (365 * yoe + yoe / 4 - yoe / 100) in
  let mp := (5 * doy + 2) / 153 in
  let d := doy - (153 * mp + 2) / 5 + 1 in
  let m := if mp <? 10 then mp + 3 else mp - 9 in
  let y := yoe + era * 400 in
  (if m <=? 2 then y + 1 else y, m, d).

Definition digitChar (d : Z) : ascii := ascii_of_nat (48 + Z.to_nat (d mod 10)).

Definition pad2 (n : Z) : string :=
  String (digitChar (n / 10)) (String (digitChar n) "").

Definition pad3 (n : Z) : string := String (digitChar (n / 100)) (pad2 n).

Definition pad4 (n : Z) : string := String (digitChar (n / 1000)) (pad3 n).

Definition dayText (d : Z) : string :=
  let '(y, m, dd) := civilFromDays d in
  (pad4 y ++ "-" ++ pad2 m ++ "-" ++ pad2 dd)%string.

Definition isoText (ms : Z) : string :=
  (dayText (ms / MS_PER_DAY) ++ "T" ++ pad2 (ms / 3600000 mod 24) ++ ":"
   ++ pad2 (ms / 60000 mod 60) ++ ":" ++ pad2 (ms / 1000 mod 60) ++ "."
   ++ pad3 (ms mod 1000) ++ "Z")%string.

Definition numeric (scale : Z) (x : Q) : Q :=
  let p := Z.to_pos (10 ^ scale) in
  let n := Qfloor (Qabs x * inject_Z (Z.pos p) + (1 # 2))%Q in
  if Qltb x 0 then (- n) # p else n # p.

(** Two trades: an iron-condor-like spread of user a with two legs, opened
    on 2024-01-05 and closed on 2024-01-12, and a single put of user b. *)
Definition sampleTradeRows : list TradeRow :=
  [mkTradeRow "t1" "a" "SPY" (Some "spread") status_closed 19727 (Some 19734)
              (Some 150%Q) None (Some "first") 1704448800000 1704448800000;
   mkTradeRow "t2" "b" "QQQ" None status_open 19730 None
              None (Some 80%Q) None 1704708000000 1704708000000].

Definition sampleLegRows : list LegRow :=
  [mkLegRow "l1" "t1" put short 100%Q 19769 2 (Some (3 # 4)) 1704448800000;
   mkLegRow "l2" "t1" put long 95%Q 19769 2 (Some (1 # 4)) 1704448800001;
   mkLegRow "l3" "t2" put long 90%Q 19769 1 (Some 80%Q) 1704708000000].

Definition sampleUuids (n : nat) : string := ("new-" ++ pad2 (Z.of_nat n))%string.

Definition sampleDb : Db :=
  mkDb sampleTradeRows sampleLegRows None (fun _ => false) sampleUuids 0
       sampleClock 0.

(** The same database, in which inserting a leg is rejected; in which
    deleting legs is rejected; in which reading one trade is rejected. *)
Definition rejectsInsertLeg (s : Stmt) : bool :=
  match s with InsertLeg _ => true | _ => false end.

Definition rejectsDeleteLegs (s : Stmt) : bool :=
  match s with DeleteLegs _ => true | _ => false end.

Definition rejectsSelectTrade (s : Stmt) : bool :=
  match s with SelectTrade _ _ => true | _ => false end.

Definition sampleDbRejecting (rejects : Stmt -> bool) : Db :=
  mkDb sampleTradeRows sampleLegRows None rejects sampleUuids 0 sampleClock 0.

(** A new long call bought at 1.25 a contract, three contracts. *)
Definition sampleInput : TradeInput :=
  mkTradeInput "IWM" None None None None (Some "earnings") debit (5 # 4) 3 call
               200%Q 1710460800000.

(** A payload that changes the quantity only. *)
Definition samplePatch : TradePatch :=
  mkTradePatch None None None None None None None None (Some 5) None None None.

(** A verifier that knows two tokens, one of user a and one of an account
    that is not in the table of users. *)
Definition sampleVerify (token : string) : outcome TokenPayload.t :=
  if String.eqb token "token-a" then Ok (TokenPayload.mk "a" "a@example.org")
  else if String.eqb token "token-z" then Ok (TokenPayload.mk "z" "z@example.org")
  else Throw "jwt malformed".

Definition sampleEmail (id : string) : string := (id ++ "@example.org")%string.

(** The market [m'] is [m] after [n] more calls of providers for the symbol
    [upper], up to the reading of the clock and to what was logged. *)
Definition afterCalls (upper : string) (n : nat) (m m' : Market) : Prop :=
  snapshotCache m' = snapshotCache m /\
  snapshotInFlight m' = snapshotInFlight m /\
  providerAnswers m' = providerAnswers m /\
  providerCalls m' upper = (providerCalls m upper + n)%nat /\
  (forall u, u <> upper -> providerCalls m' u = providerCalls m u) /\
  market_clock m' = market_clock m.

(** ** A concrete market, for running the snapshot service

    Upper case on ASCII letters; a yahoo that always answers for AAPL, with a
    currency and no change; an alphavantage that always answers for AAPL,
    with a change and no currency; both throw for anything else.  The cache
    holds an entry for NVDA stored at 1709258390000; the clock is the one of
    the sample world. *)

Definition upperChar (c : ascii) : ascii :=
  let n := nat_of_ascii c in
  if (97 <=? n)%nat && (n <=? 122)%nat then ascii_of_nat (n - 32) else c.

Fixpoint upperText (s : string) : string :=
  match s with
  | EmptyString => EmptyString
  | String c s' => String (upperChar c) (upperText s')
  end.

Definition yahooAAPL : MarketSnapshot.t :=
  MarketSnapshot.mk "AAPL" (Some (18950 # 100)) None (Some (18800 # 100))
                    (Some "USD") (Some "2024-03-01") (Some yahoo).

Definition alphaAAPL : MarketSnapshot.t :=
  MarketSnapshot.mk "AAPL" (Some (18940 # 100)) (Some (74 # 100))
                    (Some (18800 # 100)) None (Some "2024-03-01")
                    (Some alphavantage).

Definition sampleAnswers (name : SnapshotSource) (upper : string) (n : nat)
  : outcome (option MarketSnapshot.t) :=
  if String.eqb upper "AAPL" then
    match name with
    | yahoo => Ok (Some yahooAAPL)
    | alphavantage => Ok (Some alphaAAPL)
    | fallback => Ok None
    end
  else Throw "request failed".

Definition cachedNVDA : CacheEntry.t :=
  CacheEntry.mk
    (MarketSnapshot.mk "NVDA" (Some (50000 # 100)) (Some (1 # 1))
                       (Some (49500 # 100)) None (Some "2024-03-01")
                       (Some yahoo))
    1709258390000.

Definition sampleMarket : Market :=
  mkMarket [("NVDA", cachedNVDA)] [] sampleAnswers (fun _ => 0%nat) sampleClock
           0 [].




(* ================================================================== *)
(** * Properties *)

(** ** Strategy classifier *)

Lemma OptionType_eqb_eq a b : OptionType_eqb a b = true <-> a = b.
Proof. destruct a, b; simpl; split; congruence. Qed.

Lemma Position_eqb_eq a b : Position_eqb a b = true <-> a = b.
Proof. destruct a, b; simpl; split; congruence. Qed.

Lemma StrategyKey_eqb_eq a b : StrategyKey_eqb a b = true <-> a = b.
Proof. destruct a, b; simpl; split; congruence. Qed.

Lemma StrategyKey_eqb_refl a : StrategyKey_eqb a a = true.
Proof. now apply StrategyKey_eqb_eq. Qed.

(** A set built from a list has one element exactly when the list is not
    empty and all its entries coincide. *)
Lemma Set_size_one (xs : list string) :
  Set_size xs = 1%nat <->
  xs <> [] /\ (forall x y, In x xs -> In y xs -> x = y).
Proof.
  unfold Set_size. split.
  - intros H.
    destruct (nodup string_dec xs) as [|z [|z' r]] eqn:E; try discriminate.
    split.
    + intros ->. discriminate.
    + intros x y Hx Hy.
      apply (nodup_In string_dec) in Hx, Hy. rewrite E in Hx, Hy.
      destruct Hx as [<-|[]], Hy as [<-|[]]. reflexivity.
  - intros [Hne Hall].
    pose proof (NoDup_nodup string_dec xs) as Hnd.
    destruct (nodup string_dec xs) as [|z [|z' r]] eqn:E.
    + destruct xs as [|x xs']; [congruence|].
      assert (Hin : In x (nodup string_dec (x :: xs')))
        by (apply nodup_In; now left).
      rewrite E in Hin. destruct Hin.
    + reflexivity.
    + exfalso.
      assert (Hz : In z xs) by (apply (nodup_In string_dec); rewrite E; now left).
      assert (Hz' : In z' xs)
        by (apply (nodup_In string_dec); rewrite E; right; now left).
      pose proof (Hall _ _ Hz Hz') as ->.
      inversion Hnd as [|? ? Hnot _]. apply Hnot. now left.
Qed.

Lemma existsb_position (p : Position) (ls : list OptionLegRecord) :
  existsb (Position_eqb p) (map position ls) = true <->
  exists l, In l ls /\ position l = p.
Proof.
  rewrite existsb_exists. split.
  - intros [x [Hin Hx]]. apply in_map_iff in Hin as [l [<- Hl]].
    exists l. split; [assumption|]. symmetry. now apply Position_eqb_eq.
  - intros [l [Hl <-]]. exists (position l). split.
    + now apply in_map.
    + now apply Position_eqb_eq.
Qed.

Lemma existsb_legType (ty : OptionType) (ls : list OptionLegRecord) :
  existsb (fun l => OptionType_eqb (legType l) ty) ls = true <->
  exists l, In l ls /\ legType l = ty.
Proof.
  rewrite existsb_exists. split.
  - intros [l [Hl Hx]]. exists l. split; [assumption|]. now apply OptionType_eqb_eq.
  - intros [l [Hl <-]]. exists l. split; [assumption|]. now apply OptionType_eqb_eq.
Qed.

Lemma condor_test (ls : list OptionLegRecord) :
  ls <> [] ->
  ((Set_size (map expiry ls) =? 1)%nat
   && (existsb (Position_eqb long) (map position ls)
       && existsb (Position_eqb short) (map position ls))
   && (existsb (fun l => OptionType_eqb (legType l) call) ls
       && existsb (fun l => OptionType_eqb (legType l) put) ls)) = true
  <-> condorShape ls.
Proof.
  intros Hne. unfold condorShape.
  rewrite !andb_true_iff, Nat.eqb_eq, Set_size_one,
    !existsb_position, !existsb_legType.
  split.
  - intros [[[_ Hexp] [Hl Hs]] [Hc Hp]]. repeat split; try assumption.
    intros l l' Hin Hin'. apply Hexp; now apply in_map.
  - intros [Hexp [Hl [Hs [Hc Hp]]]]. repeat split; try assumption.
    + destruct ls; [congruence | discriminate].
    + intros x y Hx Hy.
      apply in_map_iff in Hx as [l [<- Hl']], Hy as [l' [<- Hl'']]. now apply Hexp.
Qed.

(** C2.  The classifier is a function of the leg list alone and follows the
    stated precedence: no leg gives [other]; one leg gives [single]; two legs
    give [verticalSpread] exactly when expiry and option type agree (nothing
    else is looked at) and [other] if not; four legs give [ironCondor] exactly
    when they share one expiry and contain a long, a short, a call and a put,
    and [other] if not; every other number of legs gives [other]. *)
Theorem classifyStrategy_precedence (t : TradeRecord) :
  (forall t', legs t' = legs t -> classifyStrategy t' = classifyStrategy t) /\
  (legs t = [] -> classifyStrategy t = other) /\
  (forall a, legs t = [a] -> classifyStrategy t = single) /\
  (forall a b, legs t = [a; b] ->
     (expiry a = expiry b /\ legType a = legType b ->
      classifyStrategy t = verticalSpread) /\
     (~ (expiry a = expiry b /\ legType a = legType b) ->
      classifyStrategy t = other)) /\
  (List.length (legs t) = 4%nat ->
     (condorShape (legs t) -> classifyStrategy t = ironCondor) /\
     (~ condorShape (legs t) -> classifyStrategy t = other)) /\
  (List.length (legs t) <> 0%nat -> List.length (legs t) <> 1%nat ->
   List.length (legs t) <> 2%nat -> List.length (legs t) <> 4%nat ->
   classifyStrategy t = other).
Proof.
  unfold classifyStrategy.
  split; [intros t' ->; reflexivity|].
  split; [intros ->; reflexivity|].
  split; [intros a ->; reflexivity|].
  split; [|split].
  - intros a b ->. simpl. split.
    + intros [He Ht]. rewrite He, Ht, String.eqb_refl.
      now destruct (legType b).
    + intros Hn.
      destruct (String.eqb (expiry a) (expiry b)) eqn:He; [|reflexivity].
      destruct (OptionType_eqb (legType a) (legType b)) eqn:Ht; [|reflexivity].
      exfalso. apply Hn. split.
      * now apply String.eqb_eq.
      * now apply OptionType_eqb_eq.
  - intros Hlen.
    assert (Hne : legs t <> []) by (intros E; rewrite E in Hlen; discriminate).
    pose proof (condor_test (legs t) Hne) as Hiff.
    rewrite Hlen. cbn [Nat.eqb andb].
    split.
    + intros Hc. apply Hiff in Hc. now rewrite Hc.
    + intros Hc.
      destruct (_ && _ && _) eqn:E in |- *; [|reflexivity].
      exfalso. apply Hc, Hiff. exact E.
  - intros H0 H1 H2 H4.
    apply Nat.eqb_neq in H0, H1, H2, H4. now rewrite H0, H1, H2, H4.
Qed.

(** The two four-leg examples of the specification, and the two-leg rule
    ignoring positions and strikes. *)
Example classifyStrategy_examples :
  classifyStrategy
    (trade "u" "2024-01-02" None None None
       [leg call long 100 "2024-03-15"; leg call short 105 "2024-03-15";
        leg put long 90 "2024-03-15"; leg put short 95 "2024-03-15"])
  = ironCondor /\
  classifyStrategy
    (trade "u" "2024-01-02" None None None
       [leg call long 100 "2024-03-15"; leg call long 105 "2024-03-15";
        leg put long 90 "2024-03-15"; leg put long 95 "2024-03-15"])
  = other /\
  classifyStrategy
    (trade "u" "2024-01-02" None None None
       [leg call long 100 "2024-03-15"; leg call long 105 "2024-03-15"])
  = verticalSpread /\
  classifyStrategy
    (trade "u" "2024-01-02" None None None
       [leg call long 100 "2024-03-15"; leg call short 105 "2024-03-15";
        leg put long 90 "2024-03-15"])
  = other.
Proof. repeat split; reflexivity. Qed.

(* ------------------------------------------------------------------ *)
(** ** Numbers *)

Lemma Qgtb_true x y : Qgtb x y = true <-> (y < x)%Q.
Proof.
  unfold Qgtb. rewrite negb_true_iff. split.
  - intros H. apply Qnot_le_lt. intros Hle. apply Qle_bool_iff in Hle. congruence.
  - intros H. destruct (Qle_bool x y) eqn:E; [|reflexivity].
    apply Qle_bool_iff in E. exfalso. now apply (Qlt_not_le y x).
Qed.

Lemma Qgtb_false x y : Qgtb x y = false <-> (x <= y)%Q.
Proof.
  unfold Qgtb. rewrite negb_false_iff. apply Qle_bool_iff.
Qed.

Lemma Qltb_true x y : Qltb x y = true <-> (x < y)%Q.
Proof. apply (Qgtb_true y x). Qed.

Lemma Qltb_false x y : Qltb x y = false <-> (y <= x)%Q.
Proof. apply (Qgtb_false y x). Qed.

Lemma Qabs_zero_iff x : (Qabs x == 0 <-> x == 0)%Q.
Proof.
  split; intros H.
  - destruct (Qlt_le_dec x 0) as [Hs|Hs].
    + rewrite (Qabs_neg x) in H by lra. lra.
    + rewrite (Qabs_pos x Hs) in H. exact H.
  - rewrite H. reflexivity.
Qed.

Ltac by_absurd := intros; exfalso; solve [auto].

(** C7.  Per-trade P&L is netCredit - netDebit with null read as 0; the basis
    is |netDebit| when that is not zero, else |netCredit| when that is not
    zero, else 1; so the basis is strictly positive whatever the two fields
    hold, and the percentage return is the true quotient
    pnl / basis * 100 (never a division by zero). *)
Theorem tradeBasis_positive (t : TradeRecord) :
  tradePnl t = (nullish (netCredit t) 0 - nullish (netDebit t) 0)%Q /\
  (~ (nullish (netDebit t) 0 == 0)%Q ->
   tradeBasis t = Qabs (nullish (netDebit t) 0)%Q) /\
  ((nullish (netDebit t) 0 == 0)%Q -> ~ (nullish (netCredit t) 0 == 0)%Q ->
   tradeBasis t = Qabs (nullish (netCredit t) 0)%Q) /\
  ((nullish (netDebit t) 0 == 0)%Q -> (nullish (netCredit t) 0 == 0)%Q ->
   tradeBasis t = 1%Q) /\
  (0 < tradeBasis t)%Q /\
  (pnlPct t * tradeBasis t == tradePnl t * 100)%Q.
Proof.
  set (credit := nullish (netCredit t) 0%Q).
  set (debit := nullish (netDebit t) 0%Q).
  assert (Hshape :
    (~ (debit == 0)%Q -> tradeBasis t = Qabs debit) /\
    ((debit == 0)%Q -> ~ (credit == 0)%Q -> tradeBasis t = Qabs credit) /\
    ((debit == 0)%Q -> (credit == 0)%Q -> tradeBasis t = 1%Q)).
  { unfold tradeBasis. fold credit debit.
    destruct (Qgtb (Qabs debit) 0) eqn:Hd.
    - apply Qgtb_true in Hd.
      assert (Hnz : ~ (debit == 0)%Q).
      { intros E. apply (proj2 (Qabs_zero_iff debit)) in E. lra. }
      assert (Hb : Qeq_bool (Qabs debit) 0 = false).
      { destruct (Qeq_bool (Qabs debit) 0) eqn:E; [|reflexivity].
        apply Qeq_bool_iff in E. lra. }
      rewrite Hb. split; [reflexivity|]. split; by_absurd.
    - apply Qgtb_false in Hd.
      assert (Hz : (debit == 0)%Q).
      { apply Qabs_zero_iff. pose proof (Qabs_nonneg debit). lra. }
      destruct (Qeq_bool (Qabs credit) 0) eqn:Hc.
      + apply Qeq_bool_iff in Hc. apply (proj1 (Qabs_zero_iff credit)) in Hc.
        split; [by_absurd|]. split; [by_absurd|]. reflexivity.
      + assert (Hcn : ~ (credit == 0)%Q).
        { intros E. apply (proj2 (Qabs_zero_iff credit)) in E.
          apply Qeq_bool_iff in E. congruence. }
        split; [by_absurd|]. split; [reflexivity|]. by_absurd. }
  assert (Hpos : (0 < tradeBasis t)%Q).
  { unfold tradeBasis. fold credit debit.
    destruct (Qgtb (Qabs debit) 0) eqn:Hd.
    - apply Qgtb_true in Hd.
      destruct (Qeq_bool (Qabs debit) 0); [reflexivity | assumption].
    - destruct (Qeq_bool (Qabs credit) 0) eqn:Hc; [reflexivity|].
      pose proof (Qabs_nonneg credit) as Hn.
      apply Qle_lt_or_eq in Hn. destruct Hn as [Hn|Hn]; [assumption|].
      exfalso. symmetry in Hn. apply Qeq_bool_iff in Hn. congruence. }
  split; [reflexivity|].
  destruct Hshape as (H1 & H2 & H3).
  repeat split; try assumption.
  unfold pnlPct. field. lra.
Qed.

(** Nulls, zeros and negative amounts in either field. *)
Example tradeBasis_examples :
  tradeBasis (trade "u" "2024-01-01" (Some "2024-01-10") None None []) = 1%Q /\
  tradeBasis (trade "u" "2024-01-01" (Some "2024-01-10") (Some 0%Q) (Some 0%Q) [])
  = 1%Q /\
  tradeBasis (trade "u" "2024-01-01" (Some "2024-01-10") (Some 250%Q) None [])
  = 250%Q /\
  tradeBasis (trade "u" "2024-01-01" (Some "2024-01-10") (Some 250%Q)
                    (Some (-40)%Q) []) = 40%Q /\
  tradePnl (trade "u" "2024-01-01" (Some "2024-01-10") (Some 250%Q) None [])
  = (250 - 0)%Q /\
  Qred (pnlPct (trade "u" "2024-01-01" (Some "2024-01-10") (Some 250%Q) None []))
  = 100%Q.
Proof. repeat split; reflexivity. Qed.

Lemma toFixed2_compat (x y : Q) : (x == y)%Q -> toFixed2 x = toFixed2 y.
Proof.
  intros E. unfold toFixed2, Qltb.
  assert (Hf : Qfloor (Qabs x * 100 + (1 # 2))%Q = Qfloor (Qabs y * 100 + (1 # 2))%Q)
    by (apply Qfloor_comp; now rewrite E).
  assert (Hs : Qle_bool 0 x = Qle_bool 0 y) by now rewrite E.
  cbv zeta. now rewrite Hf, Hs.
Qed.

(** Rounding to cents moves an amount by at most half a cent. *)
Lemma toFixed2_error (x : Q) : (Qabs (toFixed2 x - x) <= 1 # 200)%Q.
Proof.
  unfold toFixed2.
  set (n := Qfloor (Qabs x * 100 + (1 # 2))%Q).
  pose proof (Qfloor_le (Qabs x * 100 + (1 # 2))%Q) as Hlo.
  pose proof (Qlt_floor (Qabs x * 100 + (1 # 2))%Q) as Hhi.
  fold n in Hlo, Hhi.
  rewrite inject_Z_plus in Hhi. change (inject_Z 1) with 1%Q in Hhi.
  assert (En : (n # 100 == inject_Z n * (1 # 100))%Q)
    by (rewrite Qmake_Qdiv; reflexivity).
  assert (Em : ((- n) # 100 == - (inject_Z n * (1 # 100)))%Q).
  { rewrite (Qmake_Qdiv (- n) 100), inject_Z_opp. unfold Qdiv.
    change (/ inject_Z 100)%Q with (1 # 100)%Q. ring. }
  apply Qabs_Qle_condition.
  destruct (Qltb x 0) eqn:Hs.
  - apply Qltb_true in Hs.
    rewrite (Qabs_neg x) in Hlo, Hhi by lra.
    rewrite Em. set (q := inject_Z n) in *. clearbody q. split; lra.
  - apply Qltb_false in Hs.
    rewrite (Qabs_pos x) in Hlo, Hhi by lra.
    rewrite En. set (q := inject_Z n) in *. clearbody q. split; lra.
Qed.

(** What [toFixed2] returns is its argument rounded to cents. *)
Lemma toFixed2_rounded (x : Q) : roundedToCents (toFixed2 x) x.
Proof.
  split; [|apply toFixed2_error].
  unfold toFixed2. destruct (Qltb x 0); eexists; reflexivity.
Qed.

(** Rounding to cents leaves a number of cents as it is. *)
Lemma roundedToCents_cents (r : Q) (k : Z) :
  roundedToCents r (k # 100) -> (r == k # 100)%Q.
Proof.
  intros [[j ->] Hd]. unfold Qeq. cbn [Qnum Qden].
  apply Qabs_Qle_condition in Hd as [H1 H2].
  unfold Qle, Qminus, Qplus, Qopp in H1, H2. cbn [Qnum Qden] in H1, H2. lia.
Qed.

(** Two roundings to cents of one value are equal, unless the value lies
    halfway between them: off a tie the rounded value is determined. *)
Lemma roundedToCents_unique (r r' x : Q) :
  roundedToCents r x -> roundedToCents r' x ->
  (r == r')%Q \/ (2 * x == r + r')%Q.
Proof.
  intros [[k ->] Hd] [[k' ->] Hd'].
  apply Qabs_Qle_condition in Hd as [H1 H2].
  apply Qabs_Qle_condition in Hd' as [H1' H2'].
  assert (Hup : ((k # 100) - (k' # 100) <= 1 # 100)%Q) by lra.
  assert (Hdown : ((k' # 100) - (k # 100) <= 1 # 100)%Q) by lra.
  unfold Qle, Qminus, Qplus, Qopp in Hup, Hdown.
  cbn [Qnum Qden] in Hup, Hdown.
  assert (Hk : k = k' \/ k = k' + 1 \/ k' = k + 1) by lia.
  destruct Hk as [Hk | [Hk | Hk]]; subst.
  - left. reflexivity.
  - right. assert (E : ((k' + 1) # 100 == (k' # 100) + (1 # 100))%Q)
      by (unfold Qeq, Qplus; cbn [Qnum Qden]; lia).
    rewrite E in *. lra.
  - right. assert (E : ((k + 1) # 100 == (k # 100) + (1 # 100))%Q)
      by (unfold Qeq, Qplus; cbn [Qnum Qden]; lia).
    rewrite E in *. lra.
Qed.

Lemma divByCount_compat (n : Z) (x y : Q) :
  (x == y)%Q -> (divByCount n x == divByCount n y)%Q.
Proof.
  intros E. unfold divByCount. destruct (n =? 0); [reflexivity|]. now rewrite E.
Qed.

Lemma Qsum_app (xs ys : list Q) : (Qsum (xs ++ ys) == Qsum xs + Qsum ys)%Q.
Proof.
  induction xs as [|x xs IH]; simpl.
  - lra.
  - rewrite IH. lra.
Qed.

Lemma Qsum_perm (xs ys : list Q) : Permutation xs ys -> (Qsum xs == Qsum ys)%Q.
Proof.
  induction 1; simpl; try lra.
Qed.

Lemma Zsum_perm (xs ys : list Z) : Permutation xs ys -> Zsum xs = Zsum ys.
Proof.
  induction 1; simpl; lia.
Qed.

(* ------------------------------------------------------------------ *)
(** ** [Map] and [sort] *)

Section JsMapFacts.
Context {K V : Type} (eqb : K -> K -> bool).
Hypothesis eqb_spec : forall a b, eqb a b = true <-> a = b.

Lemma get_set_same (k : K) (v : V) (m : list (K * V)) :
  JsMap.get eqb k (JsMap.set eqb k v m) = Some v.
Proof.
  induction m as [|[k' v'] m IH]; simpl.
  - now rewrite (proj2 (eqb_spec k k) eq_refl).
  - destruct (eqb k k') eqn:E; simpl; rewrite E; [reflexivity | exact IH].
Qed.

Lemma get_set_other (k k0 : K) (v : V) (m : list (K * V)) :
  k0 <> k ->
  JsMap.get eqb k0 (JsMap.set eqb k v m) = JsMap.get eqb k0 m.
Proof.
  intros Hne.
  assert (Hf : eqb k0 k = false).
  { destruct (eqb k0 k) eqn:E; [|reflexivity]. apply eqb_spec in E. congruence. }
  induction m as [|[k' v'] m IH]; simpl.
  - now rewrite Hf.
  - destruct (eqb k k') eqn:E; simpl.
    + apply eqb_spec in E. subst k'. now rewrite Hf.
    + now rewrite IH.
Qed.

(** Writing a key changes the sum of a measure over the entries by the
    difference between the new and the old value of that key. *)
Lemma sum_set (f : V -> Z) (dflt : V) (k : K) (v : V) (m : list (K * V)) :
  f dflt = 0 ->
  Zsum (map (fun e => f (snd e)) (JsMap.set eqb k v m))
  = Zsum (map (fun e => f (snd e)) m)
    - f (nullish (JsMap.get eqb k m) dflt) + f v.
Proof.
  intros Hd. induction m as [|[k' v'] m IH]; simpl.
  - lia.
  - destruct (eqb k k') eqn:E; simpl; [lia | rewrite IH; lia].
Qed.

Lemma keys_set_in (k : K) (v : V) (m : list (K * V)) (x : K) :
  In x (map fst (JsMap.set eqb k v m)) -> x = k \/ In x (map fst m).
Proof.
  induction m as [|[k' v'] m IH]; simpl.
  - intros [<-|[]]. now left.
  - destruct (eqb k k'); simpl.
    + intros [<-|H]; right; [now left | now right].
    + intros [<-|H]; [right; now left|].
      destruct (IH H) as [->|H']; [now left | right; now right].
Qed.

(** Keys stay pairwise distinct. *)
Lemma keys_set_NoDup (k : K) (v : V) (m : list (K * V)) :
  NoDup (map fst m) -> NoDup (map fst (JsMap.set eqb k v m)).
Proof.
  induction m as [|[k' v'] m IH]; simpl; intros Hnd.
  - repeat constructor. intros [].
  - inversion Hnd as [|? ? Hnot Hnd']; subst.
    destruct (eqb k k') eqn:E; simpl.
    + now constructor.
    + constructor; [|now apply IH].
      intros Hin. apply keys_set_in in Hin as [->|Hin]; [|contradiction].
      rewrite (proj2 (eqb_spec k k) eq_refl) in E. discriminate.
Qed.

Lemma get_In (k : K) (v : V) (m : list (K * V)) :
  NoDup (map fst m) -> In (k, v) m -> JsMap.get eqb k m = Some v.
Proof.
  induction m as [|[k' v'] m IH]; simpl; intros Hnd Hin; [contradiction|].
  inversion Hnd as [|? ? Hnot Hnd']; subst.
  destruct Hin as [E|Hin].
  - inversion E; subst. now rewrite (proj2 (eqb_spec k k) eq_refl).
  - destruct (eqb k k') eqn:E.
    + apply eqb_spec in E. subst k'. exfalso. apply Hnot.
      now apply (in_map fst) in Hin.
    + now apply IH.
Qed.
End JsMapFacts.

Section SortFacts.
Context {A : Type} (cmp : A -> A -> Z).

Lemma sort_insert_perm (x : A) (l : list A) :
  Permutation (sort_insert cmp x l) (x :: l).
Proof.
  induction l as [|y l IH]; simpl.
  - reflexivity.
  - destruct (cmp x y <=? 0).
    + reflexivity.
    + rewrite IH. apply perm_swap.
Qed.

Lemma Array_sort_perm (l : list A) : Permutation (Array_sort cmp l) l.
Proof.
  induction l as [|x l IH]; simpl.
  - reflexivity.
  - rewrite sort_insert_perm. now constructor.
Qed.

Lemma Array_sort_length (l : list A) :
  List.length (Array_sort cmp l) = List.length l.
Proof. apply Permutation_length, Array_sort_perm. Qed.

Variable key : A -> Z.

Lemma sort_insert_sorted (x : A) (l : list A) :
  (forall y, In y l -> cmp x y = key x - key y) ->
  StronglySorted (fun a b => key a <= key b) l ->
  StronglySorted (fun a b => key a <= key b) (sort_insert cmp x l).
Proof.
  intros Hcmp Hs. induction Hs as [|y l Hs IH Hall]; simpl.
  - repeat constructor.
  - rewrite (Hcmp y (or_introl eq_refl)).
    destruct (key x - key y <=? 0) eqn:E.
    + apply Z.leb_le in E. constructor.
      * now constructor.
      * constructor; [lia|].
        rewrite Forall_forall in Hall |- *. intros z Hz.
        specialize (Hall z Hz). lia.
    + apply Z.leb_gt in E. constructor.
      * apply IH. intros z Hz. apply Hcmp. now right.
      * rewrite Forall_forall in Hall |- *. intros z Hz.
        apply (Permutation_in _ (sort_insert_perm x l)) in Hz.
        destruct Hz as [<-|Hz]; [lia | now apply Hall].
Qed.

(** Where the comparator is a difference of keys, [sort] orders by key. *)
Lemma Array_sort_sorted (l : list A) :
  (forall x y, In x l -> In y l -> cmp x y = key x - key y) ->
  StronglySorted (fun a b => key a <= key b) (Array_sort cmp l).
Proof.
  induction l as [|x l IH]; intros Hcmp; simpl.
  - constructor.
  - apply sort_insert_sorted.
    + intros y Hy. apply Hcmp; [now left|].
      right. now apply (Permutation_in _ (Array_sort_perm l)).
    + apply IH. intros a b Ha Hb. apply Hcmp; now right.
Qed.

(** Elements of equal key keep the order they had: the sort is stable. *)
Lemma sort_insert_stable (k : Z) (x : A) (l : list A) :
  (forall y, In y l -> cmp x y = key x - key y) ->
  filter (fun a => key a =? k) (sort_insert cmp x l)
  = filter (fun a => key a =? k) (x :: l).
Proof.
  intros Hcmp. induction l as [|y l IH]; [reflexivity|].
  cbn [sort_insert]. rewrite (Hcmp y (or_introl eq_refl)).
  destruct (key x - key y <=? 0) eqn:E; [reflexivity|].
  apply Z.leb_gt in E.
  cbn [filter] in *. rewrite IH by (intros z Hz; apply Hcmp; now right).
  destruct (key x =? k) eqn:Ex; [|reflexivity].
  apply Z.eqb_eq in Ex.
  assert (Ey : (key y =? k) = false) by (apply Z.eqb_neq; lia).
  now rewrite Ey.
Qed.

Lemma Array_sort_stable (k : Z) (l : list A) :
  (forall x y, In x l -> In y l -> cmp x y = key x - key y) ->
  filter (fun a => key a =? k) (Array_sort cmp l)
  = filter (fun a => key a =? k) l.
Proof.
  induction l as [|x l IH]; intros Hcmp; [reflexivity|].
  cbn [Array_sort]. rewrite sort_insert_stable.
  - cbn [filter]. rewrite IH by (intros a b Ha Hb; apply Hcmp; now right).
    reflexivity.
  - intros y Hy. apply Hcmp; [now left|].
    right. now apply (Permutation_in _ (Array_sort_perm l)).
Qed.
End SortFacts.

Lemma StronglySorted_nth {A} (R : A -> A -> Prop) (l : list A) :
  StronglySorted R l ->
  forall i j a b, (i < j)%nat ->
    nth_error l i = Some a -> nth_error l j = Some b -> R a b.
Proof.
  induction 1 as [|x l Hs IH Hall]; intros i j a b Hij Ha Hb.
  - destruct i; discriminate.
  - destruct j as [|j]; [lia|]. simpl in Hb.
    destruct i as [|i]; simpl in Ha.
    + inversion Ha; subst. rewrite Forall_forall in Hall.
      apply Hall. eapply nth_error_In; eassumption.
    + apply (IH i j); [lia | assumption | assumption].
Qed.

Lemma StronglySorted_weaken {A} (R R' : A -> A -> Prop) (l : list A) :
  (forall a b, In a l -> In b l -> R a b -> R' a b) ->
  StronglySorted R l -> StronglySorted R' l.
Proof.
  intros Himp Hs. induction Hs as [|x l Hs IH Hall].
  - constructor.
  - constructor.
    + apply IH. intros a b Ha Hb. apply Himp; now right.
    + rewrite Forall_forall in Hall |- *. intros y Hy.
      apply Himp; [now left | now right | now apply Hall].
Qed.

(* ------------------------------------------------------------------ *)
(** ** The aggregation loop *)

Section AggregatorFacts.

Variable Date_getTime : string -> option Z.

Local Abbreviation holdDays' := (holdDays Date_getTime).
Local Abbreviation loopStep' := (loopStep Date_getTime).
Local Abbreviation snapshotOf' := (snapshotOf Date_getTime).
Local Abbreviation bucketOf t := (bucketHoldingPeriod (holdDays Date_getTime t)).

Lemma win_not_loss (t : TradeRecord) : isWin t = true -> isLoss t = false.
Proof.
  unfold isWin, isLoss. intros H. apply Qgtb_true in H. apply Qltb_false. lra.
Qed.

(** One turn of the loop on the running totals. *)
Lemma acc_step (st : LoopState) (t : TradeRecord) :
  let a := acc st in
  let a' := acc (loopStep' st t) in
  Acc.wins a' = Acc.wins a + (if isWin t then 1 else 0) /\
  Acc.losses a' = Acc.losses a + (if isLoss t then 1 else 0) /\
  Acc.pnlSum a' = (Acc.pnlSum a + tradePnl t)%Q /\
  Acc.pnlPctSum a' = (Acc.pnlPctSum a + pnlPct t)%Q /\
  Acc.holdSum a' = Acc.holdSum a + holdDays' t /\
  Acc.winPnlSum a' =
    (if isWin t then Acc.winPnlSum a + tradePnl t else Acc.winPnlSum a)%Q /\
  Acc.lossPnlSum a' =
    (if isLoss t then Acc.lossPnlSum a + Qabs (tradePnl t)
     else Acc.lossPnlSum a)%Q.
Proof.
  cbv zeta. unfold loopStep.
  destruct (isWin t) eqn:Hw.
  - rewrite (win_not_loss t Hw). unfold isWin in Hw. rewrite Hw. simpl.
    repeat split; lia.
  - unfold isWin in Hw. rewrite Hw.
    unfold isLoss. destruct (Qltb (tradePnl t) 0); simpl; repeat split; lia.
Qed.

Lemma acc_fold (l : list TradeRecord) (st : LoopState) :
  let a := acc st in
  let a' := acc (fold_left loopStep' l st) in
  Acc.wins a' = Acc.wins a + countZ (filter isWin l) /\
  Acc.losses a' = Acc.losses a + countZ (filter isLoss l) /\
  (Acc.pnlSum a' == Acc.pnlSum a + Qsum (map tradePnl l))%Q /\
  (Acc.pnlPctSum a' == Acc.pnlPctSum a + Qsum (map pnlPct l))%Q /\
  Acc.holdSum a' = Acc.holdSum a + Zsum (map holdDays' l) /\
  (Acc.winPnlSum a' ==
     Acc.winPnlSum a + Qsum (map tradePnl (filter isWin l)))%Q /\
  (Acc.lossPnlSum a' ==
     Acc.lossPnlSum a
     + Qsum (map (fun t => Qabs (tradePnl t)) (filter isLoss l)))%Q.
Proof.
  revert st. induction l as [|t l IH]; intros st; cbv zeta.
  - simpl. unfold countZ. simpl. repeat split; try lia; lra.
  - simpl fold_left.
    destruct (IH (loopStep' st t)) as (I1 & I2 & I3 & I4 & I5 & I6 & I7).
    destruct (acc_step st t) as (S1 & S2 & S3 & S4 & S5 & S6 & S7).
    rewrite I1, I2, I3, I4, I5, I6, I7, S1, S2, S3, S4, S5, S6, S7.
    unfold countZ. cbn [filter map].
    destruct (isWin t), (isLoss t);
      unfold Qsum, Zsum; cbn [map List.length fold_right];
      repeat split; try lia; try ring.
Qed.

(** Every turn adds one to the totals held in the strategy map. *)
Lemma strategyMap_step (st : LoopState) (t : TradeRecord) :
  Zsum (map (fun e => Stats.total (snd e)) (strategyMap (loopStep' st t)))
  = Zsum (map (fun e => Stats.total (snd e)) (strategyMap st)) + 1.
Proof.
  unfold loopStep.
  destruct (Qgtb (tradePnl t) 0); [|destruct (Qltb (tradePnl t) 0)];
    cbn [strategyMap];
    rewrite (sum_set StrategyKey_eqb Stats.total Stats.zero) by reflexivity;
    cbn [Stats.total]; lia.
Qed.

Lemma strategyMap_fold (l : list TradeRecord) (st : LoopState) :
  Zsum (map (fun e => Stats.total (snd e))
            (strategyMap (fold_left loopStep' l st)))
  = Zsum (map (fun e => Stats.total (snd e)) (strategyMap st)) + countZ l.
Proof.
  revert st. induction l as [|t l IH]; intros st; unfold countZ; simpl.
  - lia.
  - rewrite IH, strategyMap_step. unfold countZ. lia.
Qed.

(** Every turn adds one to the count of the trade's bucket and leaves the
    other counts alone. *)
Lemma holdingBuckets_step (st : LoopState) (t : TradeRecord) (b : string) :
  nullish (JsMap.get String.eqb b (holdingBuckets (loopStep' st t))) 0
  = nullish (JsMap.get String.eqb b (holdingBuckets st)) 0
    + (if String.eqb (bucketOf t) b then 1 else 0).
Proof.
  assert (Hb : holdingBuckets (loopStep' st t)
               = JsMap.set String.eqb (bucketOf t)
                   (nullish (JsMap.get String.eqb (bucketOf t)
                              (holdingBuckets st)) 0 + 1)
                   (holdingBuckets st)).
  { unfold loopStep.
    destruct (Qgtb (tradePnl t) 0); [|destruct (Qltb (tradePnl t) 0)];
      reflexivity. }
  rewrite Hb.
  destruct (String.eqb (bucketOf t) b) eqn:E.
  - apply String.eqb_eq in E. rewrite <- E.
    rewrite (get_set_same String.eqb String.eqb_eq). simpl. lia.
  - apply String.eqb_neq in E.
    rewrite (get_set_other String.eqb String.eqb_eq) by congruence. lia.
Qed.

Lemma holdingBuckets_fold (l : list TradeRecord) (st : LoopState) (b : string) :
  nullish (JsMap.get String.eqb b (holdingBuckets (fold_left loopStep' l st))) 0
  = nullish (JsMap.get String.eqb b (holdingBuckets st)) 0
    + countZ (filter (fun t => String.eqb (bucketOf t) b) l).
Proof.
  revert st. induction l as [|t l IH]; intros st; unfold countZ; simpl.
  - lia.
  - rewrite IH, holdingBuckets_step. unfold countZ.
    destruct (String.eqb (bucketOf t) b); simpl List.length; lia.
Qed.

(** A duration falls in exactly one of the four buckets. *)
Lemma bucket_partition (days : Z) :
  Zsum (map (fun b => if String.eqb (bucketHoldingPeriod days) b then 1 else 0)
            bucketLabels) = 1.
Proof.
  unfold bucketHoldingPeriod.
  destruct (days <=? 3); [reflexivity|].
  destruct (days <=? 7); [reflexivity|].
  destruct (days <=? 30); reflexivity.
Qed.

Lemma bucket_counts_total (l : list TradeRecord) :
  Zsum (map (fun b => countZ (filter (fun t => String.eqb (bucketOf t) b) l))
            bucketLabels) = countZ l.
Proof.
  induction l as [|t l IH].
  - reflexivity.
  - pose proof (bucket_partition (holdDays' t)) as Hp.
    unfold bucketLabels, countZ in *. simpl in *.
    destruct (String.eqb (bucketOf t) "0-3d"),
             (String.eqb (bucketOf t) "4-7d"),
             (String.eqb (bucketOf t) "8-30d"),
             (String.eqb (bucketOf t) "31d+"); simpl List.length; lia.
Qed.

(** The group of a strategy counts the trades classified under it. *)
Lemma strategyGet_step (st : LoopState) (t : TradeRecord) (k : StrategyKey) :
  Stats.total (nullish (JsMap.get StrategyKey_eqb k (strategyMap (loopStep' st t)))
                       Stats.zero)
  = Stats.total (nullish (JsMap.get StrategyKey_eqb k (strategyMap st)) Stats.zero)
    + (if StrategyKey_eqb (classifyStrategy t) k then 1 else 0).
Proof.
  unfold loopStep.
  destruct (StrategyKey_eqb (classifyStrategy t) k) eqn:E.
  - apply StrategyKey_eqb_eq in E. subst k.
    destruct (Qgtb (tradePnl t) 0); [|destruct (Qltb (tradePnl t) 0)];
      cbn [strategyMap];
      rewrite (get_set_same StrategyKey_eqb StrategyKey_eqb_eq);
      cbn [nullish Stats.total]; lia.
  - assert (Hne : k <> classifyStrategy t).
    { intros ->. rewrite StrategyKey_eqb_refl in E. discriminate. }
    destruct (Qgtb (tradePnl t) 0); [|destruct (Qltb (tradePnl t) 0)];
      cbn [strategyMap];
      rewrite (get_set_other StrategyKey_eqb StrategyKey_eqb_eq) by exact Hne;
      lia.
Qed.

Lemma strategyGet_fold (l : list TradeRecord) (st : LoopState) (k : StrategyKey) :
  Stats.total (nullish (JsMap.get StrategyKey_eqb k
                          (strategyMap (fold_left loopStep' l st))) Stats.zero)
  = Stats.total (nullish (JsMap.get StrategyKey_eqb k (strategyMap st)) Stats.zero)
    + countZ (filter (fun t => StrategyKey_eqb (classifyStrategy t) k) l).
Proof.
  revert st. induction l as [|t l IH]; intros st; unfold countZ; simpl.
  - lia.
  - rewrite IH, strategyGet_step. unfold countZ.
    destruct (StrategyKey_eqb (classifyStrategy t) k); simpl List.length; lia.
Qed.

Lemma strategyKeys_fold (l : list TradeRecord) (st : LoopState) :
  NoDup (map fst (strategyMap st)) ->
  NoDup (map fst (strategyMap (fold_left loopStep' l st))).
Proof.
  revert st. induction l as [|t l IH]; intros st Hnd; simpl; [assumption|].
  apply IH. unfold loopStep.
  destruct (Qgtb (tradePnl t) 0); [|destruct (Qltb (tradePnl t) 0)];
    cbn [strategyMap];
    now apply (keys_set_NoDup StrategyKey_eqb StrategyKey_eqb_eq).
Qed.

(** The fields of a snapshot, as the function computes them. *)
Lemma snapshot_holdingPeriods (trades : list TradeRecord) (g : Z) :
  holdingPeriods (snapshotOf' trades g)
  = map (fun b =>
           HoldingBucket.mk b
             (nullish (JsMap.get String.eqb b
                         (holdingBuckets
                            (fold_left loopStep' (closedOf trades) loopInit))) 0))
        bucketLabels.
Proof. reflexivity. Qed.

Lemma snapshot_strategyBreakdown (trades : list TradeRecord) (g : Z) :
  strategyBreakdown (snapshotOf' trades g)
  = Array_sort byTotalDesc
      (map toStrategyMetric
           (strategyMap (fold_left loopStep' (closedOf trades) loopInit))).
Proof. reflexivity. Qed.

Lemma snapshot_equityCurve (trades : list TradeRecord) (g : Z) :
  equityCurve (snapshotOf' trades g)
  = snd (fold_left equityStep
           (Array_sort (byCloseDate Date_getTime) (closedOf trades)) (0%Q, [])).
Proof. reflexivity. Qed.

Lemma bucket_count (trades : list TradeRecord) (b : string) :
  nullish (JsMap.get String.eqb b
             (holdingBuckets (fold_left loopStep' (closedOf trades) loopInit))) 0
  = countZ (filter (fun t => String.eqb (bucketOf t) b) (closedOf trades)).
Proof. rewrite holdingBuckets_fold. reflexivity. Qed.

Lemma holdingPeriods_counts (trades : list TradeRecord) (g : Z) :
  forall hb, In hb (holdingPeriods (snapshotOf' trades g)) ->
    HoldingBucket.count hb
    = countZ (filter (fun t => String.eqb (bucketOf t) (HoldingBucket.bucket hb))
                     (closedOf trades)).
Proof.
  rewrite snapshot_holdingPeriods.
  intros hb Hhb. apply in_map_iff in Hhb as [b [<- _]].
  cbn [HoldingBucket.count HoldingBucket.bucket]. apply bucket_count.
Qed.

(** C6.  The totals of the strategy-breakdown groups add up to the number
    of closed trades, and so do the counts of the four holding-period
    buckets: the groups carry pairwise distinct strategies and each holds
    the closed trades classified under its strategy, the buckets carry
    pairwise distinct labels and each holds the closed trades whose
    duration falls in it. *)
Theorem breakdown_and_buckets_cover_closed (trades : list TradeRecord) (g : Z) :
  Zsum (map StrategyMetric.total (strategyBreakdown (snapshotOf' trades g)))
  = countZ (closedOf trades) /\
  Zsum (map HoldingBucket.count (holdingPeriods (snapshotOf' trades g)))
  = countZ (closedOf trades) /\
  Totals.closedTrades (totals (snapshotOf' trades g)) = countZ (closedOf trades) /\
  NoDup (map StrategyMetric.strategy (strategyBreakdown (snapshotOf' trades g))) /\
  (forall m, In m (strategyBreakdown (snapshotOf' trades g)) ->
     StrategyMetric.total m
     = countZ (filter (fun t => StrategyKey_eqb (classifyStrategy t)
                                  (StrategyMetric.strategy m))
                      (closedOf trades))) /\
  NoDup (map HoldingBucket.bucket (holdingPeriods (snapshotOf' trades g))) /\
  (forall hb, In hb (holdingPeriods (snapshotOf' trades g)) ->
     HoldingBucket.count hb
     = countZ (filter (fun t => String.eqb (bucketOf t) (HoldingBucket.bucket hb))
                      (closedOf trades))).
Proof.
  rewrite snapshot_strategyBreakdown, snapshot_holdingPeriods.
  set (M := strategyMap (fold_left loopStep' (closedOf trades) loopInit)).
  assert (Htot : forall e, StrategyMetric.total (toStrategyMetric e)
                           = Stats.total (snd e)) by (intros [k v]; reflexivity).
  assert (Hkey : forall e, StrategyMetric.strategy (toStrategyMetric e) = fst e)
    by (intros [k v]; reflexivity).
  assert (HndM : NoDup (map fst M)) by (apply strategyKeys_fold; constructor).
  split; [|split; [|split; [reflexivity|split; [|split; [|split]]]]].
  - rewrite (Zsum_perm _ _ (Permutation_map _ (Array_sort_perm byTotalDesc _))).
    rewrite map_map, (map_ext _ _ Htot). unfold M.
    rewrite strategyMap_fold. reflexivity.
  - rewrite map_map. cbn [HoldingBucket.count].
    rewrite (map_ext _ _ (bucket_count trades)).
    apply bucket_counts_total.
  - apply (Permutation_NoDup
             (Permutation_sym
                (Permutation_map _ (Array_sort_perm byTotalDesc _)))).
    now rewrite map_map, (map_ext _ _ Hkey).
  - intros m Hm.
    apply (Permutation_in _ (Array_sort_perm byTotalDesc _)) in Hm.
    apply in_map_iff in Hm as [[k v] [<- Hin]].
    rewrite Htot, Hkey. cbn [fst snd].
    pose proof (strategyGet_fold (closedOf trades) loopInit k) as Hg.
    fold M in Hg.
    rewrite (get_In StrategyKey_eqb StrategyKey_eqb_eq k v M HndM Hin) in Hg.
    exact Hg.
  - rewrite map_map. cbn [HoldingBucket.bucket]. rewrite map_id.
    unfold bucketLabels.
    repeat constructor; simpl; intuition discriminate.
  - exact (holdingPeriods_counts trades g).
Qed.

Lemma Math_round_div_bounds (a b : Z) :
  0 < b ->
  2 * b * Math_round_div a b - b <= 2 * a < 2 * b * Math_round_div a b + b.
Proof.
  intros Hb. unfold Math_round_div.
  pose proof (Z.div_mod (2 * a + b) (2 * b)) as Hdm.
  pose proof (Z.mod_pos_bound (2 * a + b) (2 * b)) as Hm.
  lia.
Qed.

Lemma Math_round_div_exact (k b : Z) :
  0 < b -> Math_round_div (k * b) b = k.
Proof.
  intros Hb. unfold Math_round_div.
  symmetry. apply (Z.div_unique_pos _ _ k b); lia.
Qed.

(** C8.  Holding days are the distance in days from the opened date to the
    closed date (the opened date standing in for a missing closed date),
    never negative, rounded to the nearest whole day, and 0 when a date does
    not parse; a duration goes to 0-3d up to 3, 4-7d up to 7, 8-30d up to 30
    and 31d+ beyond; the holding periods of every snapshot list the four
    labels in that order, each with the number of closed trades in it (0 when
    there is none). *)
Theorem holding_days_and_buckets (trades : list TradeRecord) (g : Z)
        (t : TradeRecord) :
  holdDays' t
  = daysBetween Date_getTime (openedAt t) (nullish (closedAt t) (openedAt t)) /\
  (forall s e,
     Date_getTime (openedAt t) = Some s ->
     Date_getTime (nullish (closedAt t) (openedAt t)) = Some e ->
     0 <= holdDays' t /\
     2 * MS_PER_DAY * holdDays' t - MS_PER_DAY
     <= 2 * Z.max 0 (e - s)
     < 2 * MS_PER_DAY * holdDays' t + MS_PER_DAY /\
     (forall k, 0 <= k -> e - s = k * MS_PER_DAY -> holdDays' t = k) /\
     (e <= s -> holdDays' t = 0)) /\
  (Date_getTime (openedAt t) = None \/
   Date_getTime (nullish (closedAt t) (openedAt t)) = None ->
   holdDays' t = 0) /\
  (forall days,
     (days <= 3 -> bucketHoldingPeriod days = "0-3d") /\
     (3 < days <= 7 -> bucketHoldingPeriod days = "4-7d") /\
     (7 < days <= 30 -> bucketHoldingPeriod days = "8-30d") /\
     (30 < days -> bucketHoldingPeriod days = "31d+")) /\
  map HoldingBucket.bucket (holdingPeriods (snapshotOf' trades g))
  = ["0-3d"; "4-7d"; "8-30d"; "31d+"] /\
  (forall hb, In hb (holdingPeriods (snapshotOf' trades g)) ->
     HoldingBucket.count hb
     = countZ (filter (fun c => String.eqb (bucketOf c) (HoldingBucket.bucket hb))
                      (closedOf trades))).
Proof.
  assert (HD : 0 < MS_PER_DAY) by reflexivity.
  split; [reflexivity|].
  split; [|split; [|split; [|split]]].
  - intros s e Hs He. unfold holdDays, daysBetween. rewrite Hs, He.
    pose proof (Math_round_div_bounds (Z.max 0 (e - s)) MS_PER_DAY HD) as Hb.
    split; [|split; [exact Hb|split]].
    + nia.
    + intros k Hk Hek. rewrite Hek.
      rewrite Z.max_r by nia. now apply Math_round_div_exact.
    + intros Hle. rewrite Z.max_l by lia. reflexivity.
  - unfold holdDays, daysBetween. intros [->| ->]; [reflexivity|].
    now destruct (Date_getTime (openedAt t)).
  - intros days. unfold bucketHoldingPeriod. repeat split; intros H.
    + apply Z.leb_le in H. now rewrite H.
    + destruct H as [H1 H2]. apply Z.leb_gt in H1. apply Z.leb_le in H2.
      now rewrite H1, H2.
    + destruct H as [H1 H2].
      assert (H0 : (days <=? 3) = false) by (apply Z.leb_gt; lia).
      apply Z.leb_gt in H1. apply Z.leb_le in H2. now rewrite H0, H1, H2.
    + assert (H0 : (days <=? 3) = false) by (apply Z.leb_gt; lia).
      assert (H1 : (days <=? 7) = false) by (apply Z.leb_gt; lia).
      apply Z.leb_gt in H. now rewrite H0, H1, H.
  - reflexivity.
  - apply holdingPeriods_counts.
Qed.

(* ---------------------------------------------------------------- *)
(** *** Totals *)

Lemma isWin_iff (t : TradeRecord) : isWin t = true <-> (0 < tradePnl t)%Q.
Proof. apply Qgtb_true. Qed.

Lemma isLoss_iff (t : TradeRecord) : isLoss t = true <-> (tradePnl t < 0)%Q.
Proof. apply Qltb_true. Qed.

Lemma countZ_zero {A} (l : list A) : countZ l = 0 -> l = [].
Proof. destruct l; [reflexivity|]. unfold countZ. simpl. lia. Qed.

(** Dividing a sum by the length of the list, guarded against the empty
    list, is the mean. *)
Lemma divByCount_mean (xs : list Q) (total : Q) :
  (total == Qsum xs)%Q -> (divByCount (countZ xs) total == meanOr0 xs)%Q.
Proof.
  intros E. unfold divByCount, meanOr0.
  destruct xs as [|x xs].
  - reflexivity.
  - assert (Hn : (countZ (x :: xs) =? 0) = false)
      by (apply Z.eqb_neq; unfold countZ; simpl; lia).
    rewrite Hn, E. reflexivity.
Qed.

Lemma countZ_map {A B} (f : A -> B) (l : list A) : countZ (map f l) = countZ l.
Proof. unfold countZ. now rewrite length_map. Qed.

Lemma snapshot_totals (trades : list TradeRecord) (g : Z) :
  totals (snapshotOf' trades g)
  = let a := acc (fold_left loopStep' (closedOf trades) loopInit) in
    let n := countZ (closedOf trades) in
    let winRate := divByCount n (inject_Z (Acc.wins a)) in
    let avgWin := divByCount (Acc.wins a) (Acc.winPnlSum a) in
    let avgLoss := divByCount (Acc.losses a) (Acc.lossPnlSum a) in
    Totals.mk (toFixed2 (winRate * 100))
              (toFixed2 (divByCount n (Acc.pnlSum a)))
              (toFixed2 (divByCount n (Acc.pnlPctSum a)))
              (toFixed2 (avgWin * winRate - avgLoss * (1 - winRate)))
              (toFixed2 (divByCount n (inject_Z (Acc.holdSum a))))
              n.
Proof. reflexivity. Qed.

(** What the loop leaves in its accumulators, started from zero. *)
Lemma acc_closed (l : list TradeRecord) :
  let a := acc (fold_left loopStep' l loopInit) in
  Acc.wins a = countZ (filter isWin l) /\
  Acc.losses a = countZ (filter isLoss l) /\
  (Acc.pnlSum a == Qsum (map tradePnl l))%Q /\
  (Acc.pnlPctSum a == Qsum (map pnlPct l))%Q /\
  Acc.holdSum a = Zsum (map holdDays' l) /\
  (Acc.winPnlSum a == Qsum (map tradePnl (filter isWin l)))%Q /\
  (Acc.lossPnlSum a
   == Qsum (map (fun t => Qabs (tradePnl t)) (filter isLoss l)))%Q.
Proof.
  destruct (acc_fold l loopInit) as (I1 & I2 & I3 & I4 & I5 & I6 & I7).
  cbv zeta. cbn [loopInit acc Acc.zero Acc.wins Acc.losses Acc.pnlSum
                 Acc.pnlPctSum Acc.holdSum Acc.winPnlSum Acc.lossPnlSum] in *.
  rewrite I1, I2, I3, I4, I5, I6, I7.
  repeat split; try lia; ring.
Qed.

Lemma winRate_fraction (l : list TradeRecord) :
  (divByCount (countZ l)
              (inject_Z (Acc.wins (acc (fold_left loopStep' l loopInit))))
   == winRateFractionOf l)%Q.
Proof.
  destruct (acc_closed l) as (I1 & _). rewrite I1.
  unfold divByCount, winRateFractionOf. destruct l as [|t l]; [reflexivity|].
  assert (Hn : (countZ (t :: l) =? 0) = false)
    by (apply Z.eqb_neq; unfold countZ; simpl; lia).
  now rewrite Hn.
Qed.

Lemma avgWin_mean (l : list TradeRecord) :
  (divByCount (Acc.wins (acc (fold_left loopStep' l loopInit)))
              (Acc.winPnlSum (acc (fold_left loopStep' l loopInit)))
   == avgWinOf l)%Q.
Proof.
  destruct (acc_closed l) as (I1 & _ & _ & _ & _ & I6 & _).
  rewrite I1, <- (countZ_map tradePnl). now apply divByCount_mean.
Qed.

Lemma avgLoss_mean (l : list TradeRecord) :
  (divByCount (Acc.losses (acc (fold_left loopStep' l loopInit)))
              (Acc.lossPnlSum (acc (fold_left loopStep' l loopInit)))
   == avgLossOf l)%Q.
Proof.
  destruct (acc_closed l) as (_ & I2 & _ & _ & _ & _ & I7).
  rewrite I2, <- (countZ_map (fun t => Qabs (tradePnl t))).
  now apply divByCount_mean.
Qed.

Lemma averagePnl_mean (l : list TradeRecord) :
  (divByCount (countZ l) (Acc.pnlSum (acc (fold_left loopStep' l loopInit)))
   == meanOr0 (map tradePnl l))%Q.
Proof.
  destruct (acc_closed l) as (_ & _ & I3 & _).
  rewrite <- (countZ_map tradePnl). now apply divByCount_mean.
Qed.

(** C5.  winRate is wins / closedCount x 100 rounded to two decimals (0
    without closed trades), wins being the closed trades of strictly positive
    P&L; expectancy is avgWin x f - avgLoss x (1 - f) rounded to two decimals,
    with f the unrounded fraction wins / closedCount, avgWin the mean of the
    strictly positive P&L and avgLoss the mean size of the strictly negative
    P&L (each 0 when there is none); averagePnl is the mean P&L rounded to two
    decimals.  Rounded to two decimals is: a whole number of cents nearest to
    the value, a tie going either way, which is what the rounding of the
    binary quotient leaves to say on a tie.  Two closed trades of P&L +100 and
    -40 give winRate 50, averagePnl 30 and expectancy 30. *)
Theorem totals_winRate_expectancy (trades : list TradeRecord) (g : Z) :
  (forall t, isWin t = true <-> (0 < tradePnl t)%Q) /\
  (forall t, isLoss t = true <-> (tradePnl t < 0)%Q) /\
  roundedToCents (Totals.winRate (totals (snapshotOf' trades g)))
                 (winRateFractionOf (closedOf trades) * 100) /\
  (closedOf trades = [] ->
   (Totals.winRate (totals (snapshotOf' trades g)) == 0)%Q) /\
  roundedToCents (Totals.expectancy (totals (snapshotOf' trades g)))
                 (expectancyOf (closedOf trades)) /\
  roundedToCents (Totals.averagePnl (totals (snapshotOf' trades g)))
                 (meanOr0 (map tradePnl (closedOf trades))) /\
  (forall a b,
     closedOf trades = [a; b] ->
     (tradePnl a == 100)%Q -> (tradePnl b == -40)%Q ->
     (Totals.winRate (totals (snapshotOf' trades g)) == 50)%Q /\
     (Totals.averagePnl (totals (snapshotOf' trades g)) == 30)%Q /\
     (Totals.expectancy (totals (snapshotOf' trades g)) == 30)%Q).
Proof.
  assert (Hwr : Totals.winRate (totals (snapshotOf' trades g))
                = toFixed2 (winRateFractionOf (closedOf trades) * 100)).
  { rewrite snapshot_totals. cbv zeta. cbn [Totals.winRate].
    apply toFixed2_compat. now rewrite winRate_fraction. }
  assert (Hex : Totals.expectancy (totals (snapshotOf' trades g))
                = toFixed2 (expectancyOf (closedOf trades))).
  { rewrite snapshot_totals. cbv zeta. cbn [Totals.expectancy].
    apply toFixed2_compat. unfold expectancyOf.
    now rewrite winRate_fraction, avgWin_mean, avgLoss_mean. }
  assert (Hav : Totals.averagePnl (totals (snapshotOf' trades g))
                = toFixed2 (meanOr0 (map tradePnl (closedOf trades)))).
  { rewrite snapshot_totals. cbv zeta. cbn [Totals.averagePnl].
    apply toFixed2_compat. apply averagePnl_mean. }
  split; [exact isWin_iff|]. split; [exact isLoss_iff|].
  split; [rewrite Hwr; apply toFixed2_rounded|].
  split; [|split; [rewrite Hex; apply toFixed2_rounded
                  |split; [rewrite Hav; apply toFixed2_rounded|]]].
  - intros E. rewrite Hwr, E. reflexivity.
  - intros a b E Ha Hb. rewrite Hwr, Hex, Hav, E.
    assert (Wa : isWin a = true) by (apply isWin_iff; lra).
    assert (Wb : isWin b = false) by (apply Qgtb_false; lra).
    assert (La : isLoss a = false) by (apply Qltb_false; lra).
    assert (Lb : isLoss b = true) by (apply isLoss_iff; lra).
    assert (Hab : (Qabs (tradePnl b) == 40)%Q) by (rewrite Hb; reflexivity).
    assert (F : (winRateFractionOf [a; b] == 1 # 2)%Q).
    { unfold winRateFractionOf. cbn [filter]. rewrite Wa, Wb. reflexivity. }
    assert (AW : (avgWinOf [a; b] == 100)%Q).
    { unfold avgWinOf. cbn [filter]. rewrite Wa, Wb.
      unfold meanOr0, Qsum, countZ. cbn [map fold_right List.length].
      rewrite Ha. reflexivity. }
    assert (AL : (avgLossOf [a; b] == 40)%Q).
    { unfold avgLossOf. cbn [filter]. rewrite La, Lb.
      unfold meanOr0, Qsum, countZ. cbn [map fold_right List.length].
      rewrite Hab. reflexivity. }
    assert (AP : (meanOr0 (map tradePnl [a; b]) == 30)%Q).
    { unfold meanOr0, Qsum, countZ. cbn [map fold_right List.length].
      rewrite Ha, Hb. reflexivity. }
    split; [|split].
    + rewrite (toFixed2_compat _ 50); [reflexivity|]. rewrite F. reflexivity.
    + rewrite (toFixed2_compat _ 30 AP). reflexivity.
    + rewrite (toFixed2_compat _ 30); [reflexivity|].
      unfold expectancyOf. rewrite F, AW, AL. reflexivity.
Qed.

(* ---------------------------------------------------------------- *)
(** *** Equity curve *)

Local Abbreviation closeDate t := (nullish (closedAt t) (openedAt t)).
Local Abbreviation sortedClosed trades :=
  (Array_sort (byCloseDate Date_getTime) (closedOf trades)).

(** The first loop: one point per trade, in the order of the list, each
    carrying the rounded sum of the P&L up to and including its trade. *)
Lemma equity_fold (l : list TradeRecord) :
  (fst (fold_left equityStep l (0%Q, [])) == Qsum (map tradePnl l))%Q /\
  List.length (snd (fold_left equityStep l (0%Q, []))) = List.length l /\
  (forall i p,
     nth_error (snd (fold_left equityStep l (0%Q, []))) i = Some p ->
     exists t,
       nth_error l i = Some t /\
       EquityPoint.date p = closeDate t /\
       EquityPoint.cumulativePnl p
       = toFixed2 (Qsum (map tradePnl (firstn (S i) l)))).
Proof.
  induction l as [|t l IH] using rev_ind.
  - simpl. split; [reflexivity|]. split; [reflexivity|].
    intros i p H. destruct i; discriminate.
  - rewrite fold_left_app. cbn [fold_left].
    destruct IH as (Hsum & Hlen & Hnth).
    destruct (fold_left equityStep l (0%Q, [])) as [c pts] eqn:E.
    cbn [fst snd] in *. cbn [equityStep fst snd].
    assert (Hc : (c + tradePnl t == Qsum (map tradePnl (l ++ [t])))%Q).
    { rewrite map_app, Qsum_app, Hsum. simpl. ring. }
    split; [exact Hc|]. split.
    + rewrite !length_app, Hlen. reflexivity.
    + intros i p Hp.
      destruct (Nat.lt_ge_cases i (List.length pts)) as [Hi|Hi].
      * rewrite nth_error_app1 in Hp by assumption.
        destruct (Hnth i p Hp) as (t' & Ht' & Hd & Hv).
        exists t'. split; [|split; [exact Hd|]].
        -- rewrite nth_error_app1 by lia. exact Ht'.
        -- rewrite Hv. rewrite firstn_app.
           replace (S i - List.length l)%nat with 0%nat by lia.
           cbn [firstn]. now rewrite app_nil_r.
      * rewrite nth_error_app2 in Hp by assumption.
        destruct (i - List.length pts)%nat as [|k] eqn:Ek;
          [|destruct k; discriminate].
        cbn [nth_error] in Hp. inversion Hp; subst p; clear Hp.
        assert (Hil : i = List.length l) by lia.
        exists t. split; [|split; [reflexivity|]].
        -- rewrite nth_error_app2 by lia.
           replace (i - List.length l)%nat with 0%nat by lia. reflexivity.
        -- cbn [EquityPoint.cumulativePnl]. apply toFixed2_compat.
           rewrite firstn_all2 by (rewrite length_app; simpl; lia).
           exact Hc.
Qed.

(** With dates that parse, the sort orders the closed trades by date. *)
Lemma sortedClosed_sorted (trades : list TradeRecord) :
  (forall t, In t (closedOf trades) -> Date_getTime (closeDate t) <> None) ->
  StronglySorted
    (fun a b => exists ta tb,
         Date_getTime (closeDate a) = Some ta /\
         Date_getTime (closeDate b) = Some tb /\ ta <= tb)
    (sortedClosed trades).
Proof.
  intros Hparse.
  apply (StronglySorted_weaken
           (fun a b => nullish (Date_getTime (closeDate a)) 0
                       <= nullish (Date_getTime (closeDate b)) 0)).
  - intros a b Ha Hb Hle.
    apply (Permutation_in _ (Array_sort_perm _ _)) in Ha, Hb.
    apply Hparse in Ha, Hb.
    destruct (Date_getTime (closeDate a)) as [ta|]; [|congruence].
    destruct (Date_getTime (closeDate b)) as [tb|]; [|congruence].
    exists ta, tb. auto.
  - apply (Array_sort_sorted (byCloseDate Date_getTime)
             (fun t => nullish (Date_getTime (closeDate t)) 0)).
    intros x y Hx Hy. apply Hparse in Hx, Hy. unfold byCloseDate.
    destruct (Date_getTime (closeDate x)); [|congruence].
    destruct (Date_getTime (closeDate y)); [|congruence].
    reflexivity.
Qed.

Lemma meanOr0_nonempty (xs : list Q) :
  xs <> [] -> meanOr0 xs = (Qsum xs / inject_Z (countZ xs))%Q.
Proof. destruct xs; [congruence | reflexivity]. Qed.

Lemma snapshot_averagePnl (trades : list TradeRecord) (g : Z) :
  Totals.averagePnl (totals (snapshotOf' trades g))
  = toFixed2 (meanOr0 (map tradePnl (closedOf trades))).
Proof.
  rewrite snapshot_totals. cbv zeta. cbn [Totals.averagePnl].
  apply toFixed2_compat. apply averagePnl_mean.
Qed.

(** Two roundings to cents, one of them scaled by n, differ from the exact
    sum by at most (n + 1) half cents. *)
Lemma rounding_gap (total total' n : Q) :
  (0 < n)%Q -> (total' == total)%Q ->
  (Qabs (toFixed2 total' - toFixed2 (total / n) * n) <= (n + 1) * (1 # 200))%Q.
Proof.
  intros Hn E.
  pose proof (toFixed2_error total') as E1.
  pose proof (toFixed2_error (total / n)) as E2.
  apply Qabs_Qle_condition in E1, E2. apply Qabs_Qle_condition.
  assert (Hm : (total / n * n == total)%Q) by (field; lra).
  set (L := toFixed2 total') in *. set (A := toFixed2 (total / n)) in *.
  set (m := (total / n)%Q) in *. clearbody L A m.
  destruct E1 as [E1a E1b], E2 as [E2a E2b].
  assert (H1 : (- (1 # 200) * n <= (A - m) * n)%Q)
    by (apply Qmult_le_compat_r; lra).
  assert (H2 : ((A - m) * n <= (1 # 200) * n)%Q)
    by (apply Qmult_le_compat_r; lra).
  assert (H3 : ((A - m) * n == A * n - total)%Q) by (rewrite <- Hm; ring).
  rewrite H3 in H1, H2. rewrite E in E1a, E1b.
  set (AN := (A * n)%Q) in *. clearbody AN.
  split; lra.
Qed.

(** C4.  The equity curve has one point per closed trade, taken in the
    order of the closed trades sorted by closed date (the opened date
    standing in for a missing one); the i-th point carries the date of the
    i-th sorted trade and the sum of the P&L of the first i trades rounded to
    cents; dates never decrease along the curve (for dates that parse); and
    the last point's cumulativePnl is within the rounding of
    averagePnl x closedTrades: at most (closedTrades + 1) half cents away.
    The amounts themselves follow the running sum and fall on a loss. *)
Theorem equityCurve_running_sum (trades : list TradeRecord) (g : Z) :
  Permutation (sortedClosed trades) (closedOf trades) /\
  List.length (equityCurve (snapshotOf' trades g))
  = List.length (closedOf trades) /\
  (forall i p,
     nth_error (equityCurve (snapshotOf' trades g)) i = Some p ->
     exists t,
       nth_error (sortedClosed trades) i = Some t /\
       EquityPoint.date p = closeDate t /\
       EquityPoint.cumulativePnl p
       = toFixed2 (Qsum (map tradePnl (firstn (S i) (sortedClosed trades))))) /\
  (forall pts p,
     equityCurve (snapshotOf' trades g) = pts ++ [p] ->
     (Qabs (EquityPoint.cumulativePnl p
            - Totals.averagePnl (totals (snapshotOf' trades g))
              * inject_Z (Totals.closedTrades (totals (snapshotOf' trades g))))
      <= (inject_Z (countZ (closedOf trades)) + 1) * (1 # 200))%Q) /\
  ((forall t, In t (closedOf trades) -> Date_getTime (closeDate t) <> None) ->
   StronglySorted
     (fun a b => exists ta tb,
          Date_getTime (closeDate a) = Some ta /\
          Date_getTime (closeDate b) = Some tb /\ ta <= tb)
     (sortedClosed trades) /\
   (forall i j pi pj,
      (i <= j)%nat ->
      nth_error (equityCurve (snapshotOf' trades g)) i = Some pi ->
      nth_error (equityCurve (snapshotOf' trades g)) j = Some pj ->
      exists ti tj,
        Date_getTime (EquityPoint.date pi) = Some ti /\
        Date_getTime (EquityPoint.date pj) = Some tj /\ ti <= tj)).
Proof.
  pose proof (Array_sort_perm (byCloseDate Date_getTime) (closedOf trades))
    as Hperm.
  destruct (equity_fold (sortedClosed trades)) as (_ & Hlen & Hnth).
  rewrite <- snapshot_equityCurve with (g := g) in Hlen, Hnth.
  rewrite Array_sort_length in Hlen.
  split; [exact Hperm|]. split; [exact Hlen|]. split; [exact Hnth|]. split.
  - intros pts p Hcurve.
    assert (Hn : List.length (closedOf trades) = S (List.length pts)).
    { rewrite <- Hlen, Hcurve, length_app. simpl. lia. }
    assert (Hp : nth_error (equityCurve (snapshotOf' trades g))
                           (List.length pts) = Some p).
    { rewrite Hcurve, nth_error_app2 by lia.
      now rewrite Nat.sub_diag. }
    destruct (Hnth _ _ Hp) as (t & _ & _ & Hv).
    rewrite firstn_all2 in Hv by (rewrite Array_sort_length; lia).
    rewrite Hv, snapshot_averagePnl.
    replace (Totals.closedTrades (totals (snapshotOf' trades g)))
      with (countZ (closedOf trades)) by reflexivity.
    rewrite meanOr0_nonempty, countZ_map
      by (destruct (closedOf trades); discriminate).
    apply rounding_gap.
    + unfold countZ. change 0%Q with (inject_Z 0). rewrite <- Zlt_Qlt. lia.
    + apply Qsum_perm, Permutation_map. exact Hperm.
  - intros Hparse.
    pose proof (sortedClosed_sorted trades Hparse) as Hs.
    split; [exact Hs|].
    intros i j pi pj Hij Hi Hj.
    destruct (Hnth _ _ Hi) as (a & Ha & Hda & _).
    destruct (Hnth _ _ Hj) as (b & Hb & Hdb & _).
    rewrite Hda, Hdb.
    destruct (Nat.eq_dec i j) as [->|Hne].
    + rewrite Ha in Hb. inversion Hb; subst b.
      assert (Hin : In a (closedOf trades)).
      { apply (Permutation_in _ Hperm). eapply nth_error_In; eassumption. }
      apply Hparse in Hin.
      destruct (Date_getTime (closeDate a)) as [ta|]; [|congruence].
      exists ta, ta. repeat split; lia.
    + apply (StronglySorted_nth _ _ Hs i j); [lia | assumption | assumption].
Qed.

End AggregatorFacts.

(* ------------------------------------------------------------------ *)
(** ** Snapshot store and snapshot service *)

Lemma sameKey_iff (a b : StoredAnalyticsSnapshot.t) :
  sameKey a b = true <->
  StoredAnalyticsSnapshot.userId a = StoredAnalyticsSnapshot.userId b /\
  StoredAnalyticsSnapshot.label a = StoredAnalyticsSnapshot.label b /\
  StoredAnalyticsSnapshot.reportDate a = StoredAnalyticsSnapshot.reportDate b.
Proof.
  unfold sameKey. rewrite !andb_true_iff, !String.eqb_eq, Z.eqb_eq. tauto.
Qed.

(** After the upsert the table holds the row under its key, and the rows of
    every other key are those it held before. *)
Lemma upsertRow_spec (row : StoredAnalyticsSnapshot.t)
      (rows : list StoredAnalyticsSnapshot.t) :
  In row (upsertRow row rows) /\
  (forall r, sameKey row r = false -> (In r (upsertRow row rows) <-> In r rows)) /\
  (forall r, In r (upsertRow row rows) -> r = row \/ In r rows).
Proof.
  induction rows as [|r0 rows (IH1 & IH2 & IH3)]; simpl.
  - split; [now left|]. split.
    + intros r Hk. split; [|intros []].
      intros [<-|[]]. assert (sameKey row row = true) by now apply sameKey_iff.
      congruence.
    + intros r [<-|[]]. now left.
  - destruct (sameKey row r0) eqn:E.
    + assert (Hrow : StoredAnalyticsSnapshot.mk
                (StoredAnalyticsSnapshot.userId r0)
                (StoredAnalyticsSnapshot.label r0)
                (StoredAnalyticsSnapshot.reportDate r0)
                (StoredAnalyticsSnapshot.calculatedAt row)
                (StoredAnalyticsSnapshot.snapshot row) = row).
      { apply sameKey_iff in E as (<- & <- & <-). now destruct row. }
      rewrite Hrow. split; [now left|]. split.
      * intros r Hk. simpl. split.
        -- intros [<-|H]; [|now right].
           assert (sameKey row row = true) by now apply sameKey_iff.
           congruence.
        -- intros [<-|H]; [congruence | now right].
      * intros r [<-|H]; [now left | right; now right].
    + split; [right; exact IH1|]. split.
      * intros r Hk. simpl. rewrite (IH2 r Hk). tauto.
      * intros r [<-|H]; [right; now left|].
        destruct (IH3 r H); [now left | right; now right].
Qed.

Lemma newer_iff (a b : StoredAnalyticsSnapshot.t) :
  newer a b = true <->
  StoredAnalyticsSnapshot.reportDate b < StoredAnalyticsSnapshot.reportDate a \/
  (StoredAnalyticsSnapshot.reportDate a = StoredAnalyticsSnapshot.reportDate b /\
   StoredAnalyticsSnapshot.calculatedAt b < StoredAnalyticsSnapshot.calculatedAt a).
Proof.
  unfold newer.
  rewrite orb_true_iff, andb_true_iff, Z.eqb_eq, !Z.gtb_ltb, !Z.ltb_lt. tauto.
Qed.

(** [latestRow] answers a row of the list that no row of the list is newer
    than, and answers nothing only for the empty list. *)
Lemma latestRow_spec (rows : list StoredAnalyticsSnapshot.t) :
  (latestRow rows = None <-> rows = []) /\
  (forall e, latestRow rows = Some e ->
     In e rows /\ forall r, In r rows -> newer r e = false).
Proof.
  unfold latestRow.
  set (pick := fun (best : option StoredAnalyticsSnapshot.t) r =>
                 match best with
                 | None => Some r
                 | Some b => if newer r b then Some r else Some b
                 end).
  assert (Hsome : forall l b,
             exists e, fold_left pick l (Some b) = Some e /\
                       (e = b \/ In e l) /\
                       newer b e = false /\
                       (forall r, In r l -> newer r e = false)).
  { induction l as [|x l IH]; intros b.
    - exists b. simpl. split; [reflexivity|]. split; [now left|]. split.
      + destruct (newer b b) eqn:E; [|reflexivity].
        apply newer_iff in E. lia.
      + intros r [].
    - simpl. destruct (newer x b) eqn:E.
      + destruct (IH x) as (e & He & Hin & Hxe & Hall).
        exists e. split; [exact He|]. split; [right; destruct Hin; auto|].
        assert (Hbe : newer b e = false).
        { destruct (newer b e) eqn:E'; [|reflexivity].
          destruct (newer x e) eqn:E''; [discriminate|].
          apply newer_iff in E, E'.
          assert (~ (StoredAnalyticsSnapshot.reportDate e
                     < StoredAnalyticsSnapshot.reportDate x \/
                     StoredAnalyticsSnapshot.reportDate x
                     = StoredAnalyticsSnapshot.reportDate e /\
                     StoredAnalyticsSnapshot.calculatedAt e
                     < StoredAnalyticsSnapshot.calculatedAt x))
            by (rewrite <- newer_iff; congruence).
          lia. }
        split; [exact Hbe|].
        intros r [<-|Hr]; [exact Hxe | now apply Hall].
      + destruct (IH b) as (e & He & Hin & Hbe & Hall).
        exists e. split; [exact He|]. split; [destruct Hin; auto|].
        split; [exact Hbe|].
        intros r [<-|Hr]; [|now apply Hall].
        destruct (newer x e) eqn:E'; [|reflexivity].
        apply newer_iff in E'.
        assert (Hn1 : ~ (StoredAnalyticsSnapshot.reportDate b
                         < StoredAnalyticsSnapshot.reportDate x \/
                         StoredAnalyticsSnapshot.reportDate x
                         = StoredAnalyticsSnapshot.reportDate b /\
                         StoredAnalyticsSnapshot.calculatedAt b
                         < StoredAnalyticsSnapshot.calculatedAt x))
          by (rewrite <- newer_iff; congruence).
        assert (Hn2 : ~ (StoredAnalyticsSnapshot.reportDate e
                         < StoredAnalyticsSnapshot.reportDate b \/
                         StoredAnalyticsSnapshot.reportDate b
                         = StoredAnalyticsSnapshot.reportDate e /\
                         StoredAnalyticsSnapshot.calculatedAt e
                         < StoredAnalyticsSnapshot.calculatedAt b))
          by (rewrite <- newer_iff; congruence).
        lia. }
  destruct rows as [|x l].
  - simpl. split; [tauto|]. intros e H. discriminate.
  - cbn [fold_left]. change (pick None x) with (Some x).
    destruct (Hsome l x) as (e & He & Hin & Hxe & Hall).
    fold pick. rewrite He. split.
    + split; intros H; discriminate.
    + intros e' H. inversion H; subst e'. split.
      * destruct Hin as [->|Hin]; [now left | now right].
      * intros r [<-|Hr]; [exact Hxe | now apply Hall].
Qed.

Section ServiceFacts.

Variable Date_getTime : string -> option Z.
Variable toDate : Z -> Z.

Local Abbreviation snapshotOf' := (snapshotOf Date_getTime).
Local Abbreviation getSummary' := (getSummary Date_getTime toDate).
Local Abbreviation forceRecalculate' := (forceRecalculate Date_getTime toDate).
Local Abbreviation recalculateAnalyticsForUser' :=
  (recalculateAnalyticsForUser Date_getTime toDate).
Local Abbreviation cronCallback' := (cronCallback Date_getTime toDate).

(** The rows [getLatestAnalyticsSnapshot] selects from. *)
Local Abbreviation rowsOf w userId :=
  (filter (fun r => String.eqb (StoredAnalyticsSnapshot.userId r) userId
                    && String.eqb (StoredAnalyticsSnapshot.label r) DEFAULT_LABEL)
          (analytics_summaries w)).

(** The world after [n] more readings of the clock. *)
Local Abbreviation later w n :=
  (mkWorld (users w) (tradeRows w) (analytics_summaries w) (queryRejects w)
           (clock w) (n + ticks w) (console w)).

(** The world after the upsert of [row], which reads the clock twice. *)
Local Abbreviation stored w row n :=
  (mkWorld (users w) (tradeRows w) (upsertRow row (analytics_summaries w))
           (queryRejects w) (clock w) (n + ticks w) (console w)).

Lemma run_getLatest (w : World) (userId : string) :
  queryRejects w (SelectLatestSummary userId DEFAULT_LABEL) = false ->
  getLatestAnalyticsSnapshot userId None w = (Ok (latestRow (rowsOf w userId)), w).
Proof.
  intros Hq. unfold getLatestAnalyticsSnapshot, bind, pool_query, ret.
  cbn [nullish]. now rewrite Hq.
Qed.

Lemma run_calculate (w : World) (userId : string) :
  queryRejects w (SelectTrades userId) = false ->
  calculateAnalyticsSnapshot Date_getTime userId w
  = (Ok (snapshotOf' (tradeRows w userId) (clock w (ticks w))), later w 1%nat).
Proof.
  intros Hq.
  unfold calculateAnalyticsSnapshot, listTrades, bind, pool_query, ret, Date_now.
  now rewrite Hq.
Qed.

Lemma run_calculate_rejected (w : World) (userId : string) :
  queryRejects w (SelectTrades userId) = true ->
  calculateAnalyticsSnapshot Date_getTime userId w = (Throw "query failed", w).
Proof.
  intros Hq.
  unfold calculateAnalyticsSnapshot, listTrades, bind, pool_query, ret, Date_now.
  now rewrite Hq.
Qed.

Lemma run_upsert (w : World) (userId : string) (snap : AnalyticsSnapshot) :
  queryRejects w (UpsertSummary userId DEFAULT_LABEL) = false ->
  upsertAnalyticsSnapshot toDate userId snap None None w
  = (Ok (StoredAnalyticsSnapshot.mk userId DEFAULT_LABEL
           (toDate (clock w (ticks w))) (clock w (S (ticks w))) snap),
     stored w (StoredAnalyticsSnapshot.mk userId DEFAULT_LABEL
                 (toDate (clock w (ticks w))) (clock w (S (ticks w))) snap)
            2%nat).
Proof.
  intros Hq.
  unfold upsertAnalyticsSnapshot, bind, pool_query, ret, Date_now, set_summaries.
  cbn [nullish queryRejects users tradeRows analytics_summaries clock ticks
       console].
  now rewrite Hq.
Qed.

Lemma run_upsert_rejected (w : World) (userId : string) (snap : AnalyticsSnapshot) :
  queryRejects w (UpsertSummary userId DEFAULT_LABEL) = true ->
  upsertAnalyticsSnapshot toDate userId snap None None w
  = (Throw "query failed", later w 2%nat).
Proof.
  intros Hq.
  unfold upsertAnalyticsSnapshot, bind, pool_query, ret, Date_now, set_summaries.
  cbn [nullish queryRejects users tradeRows analytics_summaries clock ticks
       console].
  now rewrite Hq.
Qed.

(** A request served from the store: the latest row is not older than a day. *)
Lemma getSummary_cached (w : World) (userId : string)
      (e : StoredAnalyticsSnapshot.t) :
  queryRejects w (SelectLatestSummary userId DEFAULT_LABEL) = false ->
  latestRow (rowsOf w userId) = Some e ->
  clock w (ticks w) - StoredAnalyticsSnapshot.calculatedAt e <= ONE_DAY_MS ->
  getSummary' userId w
  = (Ok (Response.mk 200 (StoredAnalyticsSnapshot.snapshot e)
           (StoredAnalyticsSnapshot.reportDate e)
           (StoredAnalyticsSnapshot.calculatedAt e) false),
     later w 1%nat).
Proof.
  intros Hq He Hage.
  unfold getSummary, bind. rewrite (run_getLatest w userId Hq), He.
  unfold Date_now. cbn beta iota.
  assert (Hf : (clock w (ticks w) - StoredAnalyticsSnapshot.calculatedAt e
                >? ONE_DAY_MS) = false)
    by (rewrite Z.gtb_ltb; apply Z.ltb_ge; exact Hage).
  rewrite Hf. reflexivity.
Qed.

(** A request that recomputes: no row, or a latest row older than a day. *)
Lemma getSummary_recomputed (w : World) (userId : string) :
  queryRejects w (SelectLatestSummary userId DEFAULT_LABEL) = false ->
  (latestRow (rowsOf w userId) = None \/
   exists e, latestRow (rowsOf w userId) = Some e /\
             ONE_DAY_MS < clock w (ticks w) - StoredAnalyticsSnapshot.calculatedAt e) ->
  queryRejects w (SelectTrades userId) = false ->
  queryRejects w (UpsertSummary userId DEFAULT_LABEL) = false ->
  getSummary' userId w
  = (Ok (Response.mk 200
           (snapshotOf' (tradeRows w userId) (clock w (1 + ticks w)%nat))
           (toDate (clock w (2 + ticks w)%nat)) (clock w (3 + ticks w)%nat) true),
     stored w
       (StoredAnalyticsSnapshot.mk userId DEFAULT_LABEL
          (toDate (clock w (2 + ticks w)%nat)) (clock w (3 + ticks w)%nat)
          (snapshotOf' (tradeRows w userId) (clock w (1 + ticks w)%nat)))
       4%nat).
Proof.
  intros Hq Hstale Ht Hu.
  unfold getSummary, bind. rewrite (run_getLatest w userId Hq).
  unfold Date_now at 1. cbn beta iota.
  assert (Hgo : forall k : M Response.t,
      match
        negb match latestRow (rowsOf w userId) with
             | Some e0 =>
                 clock w (ticks w) - StoredAnalyticsSnapshot.calculatedAt e0
                 >? ONE_DAY_MS
             | None => true
             end, latestRow (rowsOf w userId)
      with
      | true, Some e0 =>
          ret (Response.mk 200 (StoredAnalyticsSnapshot.snapshot e0)
                 (StoredAnalyticsSnapshot.reportDate e0)
                 (StoredAnalyticsSnapshot.calculatedAt e0) false)
      | _, _ => k
      end = k).
  { intros k. destruct Hstale as [->|(e & -> & Hage)]; [reflexivity|].
    assert (Hf : (clock w (ticks w) - StoredAnalyticsSnapshot.calculatedAt e
                  >? ONE_DAY_MS) = true)
      by (rewrite Z.gtb_ltb; apply Z.ltb_lt; exact Hage).
    now rewrite Hf. }
  rewrite Hgo.
  rewrite run_calculate by exact Ht.
  rewrite run_upsert by exact Hu.
  reflexivity.
Qed.

(** C3.  getSummary looks at the latest stored row of (user, default label).
    When there is one and it was calculated no more than 24 hours before the
    request, the response carries that row unchanged with refreshed = false
    and the store is left as it was.  When there is none, or the latest one is
    older than 24 hours, the snapshot is computed from the user's trades,
    upserted under (user, default label, date of the request) and returned
    with refreshed = true; rows under other keys stay as they were. *)
Theorem getSummary_cache_or_recompute (w : World) (userId : string) :
  queryRejects w (SelectLatestSummary userId DEFAULT_LABEL) = false ->
  (latestRow (rowsOf w userId) = None <-> rowsOf w userId = []) /\
  (forall e, latestRow (rowsOf w userId) = Some e ->
     In e (analytics_summaries w) /\
     StoredAnalyticsSnapshot.userId e = userId /\
     StoredAnalyticsSnapshot.label e = DEFAULT_LABEL /\
     forall r, In r (rowsOf w userId) -> newer r e = false) /\
  (forall e,
     latestRow (rowsOf w userId) = Some e ->
     clock w (ticks w) - StoredAnalyticsSnapshot.calculatedAt e <= ONE_DAY_MS ->
     getSummary' userId w
     = (Ok (Response.mk 200 (StoredAnalyticsSnapshot.snapshot e)
              (StoredAnalyticsSnapshot.reportDate e)
              (StoredAnalyticsSnapshot.calculatedAt e) false),
        later w 1%nat)) /\
  ((latestRow (rowsOf w userId) = None \/
    exists e, latestRow (rowsOf w userId) = Some e /\
              ONE_DAY_MS < clock w (ticks w) - StoredAnalyticsSnapshot.calculatedAt e) ->
   queryRejects w (SelectTrades userId) = false ->
   queryRejects w (UpsertSummary userId DEFAULT_LABEL) = false ->
   getSummary' userId w
   = (Ok (Response.mk 200
            (snapshotOf' (tradeRows w userId) (clock w (1 + ticks w)%nat))
            (toDate (clock w (2 + ticks w)%nat)) (clock w (3 + ticks w)%nat) true),
      stored w
        (StoredAnalyticsSnapshot.mk userId DEFAULT_LABEL
           (toDate (clock w (2 + ticks w)%nat)) (clock w (3 + ticks w)%nat)
           (snapshotOf' (tradeRows w userId) (clock w (1 + ticks w)%nat)))
        4%nat) /\
   In (StoredAnalyticsSnapshot.mk userId DEFAULT_LABEL
         (toDate (clock w (2 + ticks w)%nat)) (clock w (3 + ticks w)%nat)
         (snapshotOf' (tradeRows w userId) (clock w (1 + ticks w)%nat)))
      (analytics_summaries (snd (getSummary' userId w))) /\
   (forall r,
      sameKey (StoredAnalyticsSnapshot.mk userId DEFAULT_LABEL
                 (toDate (clock w (2 + ticks w)%nat)) (clock w (3 + ticks w)%nat)
                 (snapshotOf' (tradeRows w userId) (clock w (1 + ticks w)%nat)))
              r = false ->
      (In r (analytics_summaries (snd (getSummary' userId w)))
       <-> In r (analytics_summaries w)))).
Proof.
  intros Hq.
  destruct (latestRow_spec (rowsOf w userId)) as [Hnone Hsome].
  split; [exact Hnone|]. split; [|split].
  - intros e He. destruct (Hsome e He) as [Hin Hmax].
    apply filter_In in Hin as [Hin Hk].
    apply andb_true_iff in Hk as [Hu Hl]. apply String.eqb_eq in Hu, Hl.
    repeat split; assumption.
  - intros e He Hage. now apply getSummary_cached.
  - intros Hstale Ht Hu.
    rewrite (getSummary_recomputed w userId Hq Hstale Ht Hu).
    split; [reflexivity|]. cbn [snd analytics_summaries].
    split.
    + exact (proj1 (upsertRow_spec _ _)).
    + intros r Hk. exact (proj1 (proj2 (upsertRow_spec _ _)) r Hk).
Qed.

(** C10.  The freshness test is strict.  With a latest stored row calculated
    exactly 24 hours before the request, or less, getSummary returns that row
    with refreshed = false and computes nothing; it answers refreshed = true,
    writes to the store or reads the clock again only when the row is more
    than 24 hours old. *)
Theorem getSummary_staleness_strict (w : World) (userId : string)
        (e : StoredAnalyticsSnapshot.t) :
  queryRejects w (SelectLatestSummary userId DEFAULT_LABEL) = false ->
  latestRow (rowsOf w userId) = Some e ->
  (clock w (ticks w) - StoredAnalyticsSnapshot.calculatedAt e = ONE_DAY_MS ->
   getSummary' userId w
   = (Ok (Response.mk 200 (StoredAnalyticsSnapshot.snapshot e)
            (StoredAnalyticsSnapshot.reportDate e)
            (StoredAnalyticsSnapshot.calculatedAt e) false),
      later w 1%nat)) /\
  (clock w (ticks w) - StoredAnalyticsSnapshot.calculatedAt e <= ONE_DAY_MS ->
   getSummary' userId w
   = (Ok (Response.mk 200 (StoredAnalyticsSnapshot.snapshot e)
            (StoredAnalyticsSnapshot.reportDate e)
            (StoredAnalyticsSnapshot.calculatedAt e) false),
      later w 1%nat)) /\
  (forall r w', getSummary' userId w = (Ok r, w') ->
     Response.refreshed r = true ->
     ONE_DAY_MS < clock w (ticks w) - StoredAnalyticsSnapshot.calculatedAt e) /\
  (forall o w', getSummary' userId w = (o, w') ->
     analytics_summaries w' <> analytics_summaries w \/ ticks w' <> S (ticks w) ->
     ONE_DAY_MS < clock w (ticks w) - StoredAnalyticsSnapshot.calculatedAt e).
Proof.
  intros Hq He.
  assert (Hfresh :
    clock w (ticks w) - StoredAnalyticsSnapshot.calculatedAt e <= ONE_DAY_MS ->
    getSummary' userId w
    = (Ok (Response.mk 200 (StoredAnalyticsSnapshot.snapshot e)
             (StoredAnalyticsSnapshot.reportDate e)
             (StoredAnalyticsSnapshot.calculatedAt e) false),
       later w 1%nat))
    by (intros Hage; now apply getSummary_cached).
  split; [intros Hage; apply Hfresh; lia|]. split; [exact Hfresh|]. split.
  - intros r w' Hrun Href.
    destruct (Z.le_gt_cases
                (clock w (ticks w) - StoredAnalyticsSnapshot.calculatedAt e)
                ONE_DAY_MS) as [Hage|Hage]; [|exact Hage].
    rewrite (Hfresh Hage) in Hrun. inversion Hrun; subst r.
    discriminate Href.
  - intros o w' Hrun Hchg.
    destruct (Z.le_gt_cases
                (clock w (ticks w) - StoredAnalyticsSnapshot.calculatedAt e)
                ONE_DAY_MS) as [Hage|Hage]; [|exact Hage].
    rewrite (Hfresh Hage) in Hrun. inversion Hrun; subst w'.
    cbn [analytics_summaries ticks] in Hchg. destruct Hchg as [H|H]; congruence.
Qed.

Lemma run_forceRecalculate (w : World) (userId : string) :
  queryRejects w (SelectTrades userId) = false ->
  queryRejects w (UpsertSummary userId DEFAULT_LABEL) = false ->
  forceRecalculate' userId w
  = (Ok (Response.mk 201
           (snapshotOf' (tradeRows w userId) (clock w (ticks w)))
           (toDate (clock w (1 + ticks w)%nat)) (clock w (2 + ticks w)%nat) true),
     stored w
       (StoredAnalyticsSnapshot.mk userId DEFAULT_LABEL
          (toDate (clock w (1 + ticks w)%nat)) (clock w (2 + ticks w)%nat)
          (snapshotOf' (tradeRows w userId) (clock w (ticks w))))
       3%nat).
Proof.
  intros Ht Hu. unfold forceRecalculate, bind.
  rewrite run_calculate by exact Ht.
  rewrite run_upsert by exact Hu.
  reflexivity.
Qed.

(** The clock reaches a snapshot in [generatedAt] only. *)
Lemma snapshotOf_sameContent (trades : list TradeRecord) (g g' : Z) :
  sameContent (snapshotOf' trades g) (snapshotOf' trades g').
Proof. repeat split. Qed.

(** C9.  The content of a snapshot is a function of the user's trade
    history: two forced recomputations, run in any two states of the store
    and of the clock that hold the same trades for the user, return snapshots
    with equal totals, strategyBreakdown, equityCurve and holdingPeriods, which
    differ at most in generatedAt; and a forced recomputation leaves the trade
    history as it is, so this covers two recomputations in succession. *)
Theorem recompute_deterministic (w w' : World) (userId : string) :
  tradeRows w' userId = tradeRows w userId ->
  queryRejects w (SelectTrades userId) = false ->
  queryRejects w (UpsertSummary userId DEFAULT_LABEL) = false ->
  queryRejects w' (SelectTrades userId) = false ->
  queryRejects w' (UpsertSummary userId DEFAULT_LABEL) = false ->
  exists r v r' v',
    forceRecalculate' userId w = (Ok r, v) /\
    forceRecalculate' userId w' = (Ok r', v') /\
    sameContent (Response.data r) (Response.data r') /\
    generatedAt (Response.data r) = clock w (ticks w) /\
    generatedAt (Response.data r') = clock w' (ticks w') /\
    tradeRows v = tradeRows w /\
    queryRejects v = queryRejects w /\
    (exists r2 v2,
       forceRecalculate' userId v = (Ok r2, v2) /\
       sameContent (Response.data r) (Response.data r2)).
Proof.
  intros Htr Ht Hu Ht' Hu'.
  do 4 eexists.
  split; [apply (run_forceRecalculate w userId Ht Hu)|].
  split; [apply (run_forceRecalculate w' userId Ht' Hu')|].
  cbn [Response.data generatedAt]. rewrite Htr.
  split; [apply snapshotOf_sameContent|].
  split; [reflexivity|]. split; [reflexivity|].
  split; [reflexivity|]. split; [reflexivity|].
  do 2 eexists. split.
  - apply run_forceRecalculate; [exact Ht | exact Hu].
  - cbn [Response.data tradeRows]. apply snapshotOf_sameContent.
Qed.

(* ---------------------------------------------------------------- *)
(** *** The scheduled batch *)

Lemma run_user (w : World) (u : string) :
  queryRejects w (SelectTrades u) = false ->
  queryRejects w (UpsertSummary u DEFAULT_LABEL) = false ->
  recalculateAnalyticsForUser' u w
  = (Ok tt,
     stored w
       (StoredAnalyticsSnapshot.mk u DEFAULT_LABEL
          (toDate (clock w (1 + ticks w)%nat)) (clock w (2 + ticks w)%nat)
          (snapshotOf' (tradeRows w u) (clock w (ticks w))))
       3%nat).
Proof.
  intros Ht Hu. unfold recalculateAnalyticsForUser, bind.
  rewrite run_calculate by exact Ht.
  rewrite run_upsert by exact Hu.
  reflexivity.
Qed.

(** A rejected query ends the recomputation of a user with the store as it
    was. *)
Lemma run_user_rejected (w : World) (u : string) :
  queryRejects w (SelectTrades u) = true \/
  queryRejects w (UpsertSummary u DEFAULT_LABEL) = true ->
  exists e w',
    recalculateAnalyticsForUser' u w = (Throw e, w') /\
    analytics_summaries w' = analytics_summaries w /\
    console w' = console w.
Proof.
  intros Hrej. unfold recalculateAnalyticsForUser, bind.
  destruct (queryRejects w (SelectTrades u)) eqn:Ht.
  - rewrite run_calculate_rejected by exact Ht. eauto.
  - destruct Hrej as [Hrej|Hu]; [discriminate|].
    rewrite run_calculate by exact Ht.
    rewrite run_upsert_rejected by exact Hu. eauto.
Qed.

Lemma for_of_app {A} (l1 l2 : list A) (body : A -> M unit) (w : World) :
  for_of (l1 ++ l2) body w
  = match for_of l1 body w with
    | (Ok _, w1) => for_of l2 body w1
    | (Throw e, w1) => (Throw e, w1)
    end.
Proof.
  revert w. induction l1 as [|x l1 IH]; intros w; simpl.
  - reflexivity.
  - unfold bind. destruct (body x w) as [[[]|e] w']; [apply IH | reflexivity].
Qed.

(** A later upsert of a recomputed row keeps every user's recomputed row in
    the table, or replaces it by a recomputed row of the same user. *)
Lemma recomputed_kept (w : World) (u u' : string) (g d c : Z)
      (rows : list StoredAnalyticsSnapshot.t) :
  (exists r, In r rows /\ recomputedRow Date_getTime w u r) ->
  exists r,
    In r (upsertRow (StoredAnalyticsSnapshot.mk u' DEFAULT_LABEL d c
                       (snapshotOf' (tradeRows w u') g)) rows) /\
    recomputedRow Date_getTime w u r.
Proof.
  intros (r & Hin & Hr).
  set (row := StoredAnalyticsSnapshot.mk u' DEFAULT_LABEL d c
                (snapshotOf' (tradeRows w u') g)).
  destruct (upsertRow_spec row rows) as (Hrow & Hother & _).
  destruct (sameKey row r) eqn:E.
  - exists row. split; [exact Hrow|].
    apply sameKey_iff in E as (Eu & _ & _). cbn in Eu.
    destruct Hr as (Hu & _ & _).
    assert (Huu : u' = u) by congruence.
    unfold row. rewrite Huu. repeat split. now exists g.
  - exists r. split; [now apply Hother | exact Hr].
Qed.

(** Over users whose queries are all accepted the loop runs to its end and
    leaves a recomputed row for each of them. *)
Lemma for_of_completes (us : list string) (w0 : World) :
  forall w,
    tradeRows w = tradeRows w0 ->
    (forall u, In u us ->
       queryRejects w (SelectTrades u) = false /\
       queryRejects w (UpsertSummary u DEFAULT_LABEL) = false) ->
    exists w1,
      for_of us recalculateAnalyticsForUser' w = (Ok tt, w1) /\
      users w1 = users w /\ tradeRows w1 = tradeRows w /\
      queryRejects w1 = queryRejects w /\ console w1 = console w /\
      (forall u, In u us ->
         exists r, In r (analytics_summaries w1) /\
                   recomputedRow Date_getTime w0 u r) /\
      (forall u,
         (exists r, In r (analytics_summaries w) /\
                    recomputedRow Date_getTime w0 u r) ->
         exists r, In r (analytics_summaries w1) /\
                   recomputedRow Date_getTime w0 u r).
Proof.
  induction us as [|u us IH]; intros w Htr Hok.
  - exists w. simpl. unfold ret. repeat split; tauto.
  - destruct (Hok u (or_introl eq_refl)) as [Ht Hu].
    cbn [for_of]. unfold bind. rewrite (run_user w u Ht Hu).
    set (row := StoredAnalyticsSnapshot.mk u DEFAULT_LABEL
                  (toDate (clock w (1 + ticks w)%nat)) (clock w (2 + ticks w)%nat)
                  (snapshotOf' (tradeRows w u) (clock w (ticks w)))).
    destruct (IH (stored w row 3%nat)) as
      (w1 & Hrun & Hus & Htr1 & Hq1 & Hc1 & Hnew & Hkeep).
    + exact Htr.
    + intros v Hv. apply Hok. now right.
    + exists w1. split; [exact Hrun|].
      repeat split; try assumption.
      * intros v [<-|Hv]; [|now apply Hnew].
        apply Hkeep. exists row. cbn [analytics_summaries].
        split; [exact (proj1 (upsertRow_spec _ _))|].
        unfold row. rewrite Htr. repeat split. now eexists.
      * intros v Hv. apply Hkeep. cbn [analytics_summaries].
        unfold row. rewrite Htr.
        apply (recomputed_kept w0 v u _ _ _ (analytics_summaries w) Hv).
Qed.

(** C1, as the code has it.  The failure of one user's recomputation is
    caught and logged by the cron callback, once and outside the loop over the
    users: every user before the failing one has been recomputed, and the
    batch ends there, the store being left as it stood after the last user
    before the failing one. *)
Theorem cron_stops_at_first_failure (w : World) (before after : list string)
        (f : string) :
  queryRejects w SelectUsers = false ->
  users w = before ++ f :: after ->
  (forall u, In u before ->
     queryRejects w (SelectTrades u) = false /\
     queryRejects w (UpsertSummary u DEFAULT_LABEL) = false) ->
  (queryRejects w (SelectTrades f) = true \/
   queryRejects w (UpsertSummary f DEFAULT_LABEL) = true) ->
  exists w1,
    for_of before recalculateAnalyticsForUser' w = (Ok tt, w1) /\
    (forall u, In u before ->
       exists r, In r (analytics_summaries w1) /\
                 recomputedRow Date_getTime w u r) /\
    fst (cronCallback' w) = Ok tt /\
    analytics_summaries (snd (cronCallback' w)) = analytics_summaries w1 /\
    console (snd (cronCallback' w)) = console w ++ ["Analytics cron failed"].
Proof.
  intros Hq Hus Hok Hrej.
  destruct (for_of_completes before w w eq_refl Hok) as
    (w1 & Hrun & _ & _ & Hq1 & Hc1 & Hnew & _).
  exists w1. split; [exact Hrun|]. split; [exact Hnew|].
  assert (Hrej1 : queryRejects w1 (SelectTrades f) = true \/
                  queryRejects w1 (UpsertSummary f DEFAULT_LABEL) = true)
    by (rewrite Hq1; exact Hrej).
  destruct (run_user_rejected w1 f Hrej1) as (e & w2 & Hf & Hs2 & Hc2).
  assert (Hbatch : recalculateAnalyticsForAllUsers Date_getTime toDate w
                   = (Throw e, w2)).
  { unfold recalculateAnalyticsForAllUsers, bind, pool_query.
    rewrite Hq, Hus, for_of_app, Hrun. cbn [for_of]. unfold bind.
    now rewrite Hf. }
  unfold cronCallback, try_catch. rewrite Hbatch.
  unfold console_error. cbn [fst snd analytics_summaries console].
  rewrite Hs2, Hc2, Hc1. repeat split.
Qed.

End ServiceFacts.

(* ------------------------------------------------------------------ *)
(** ** The program run on the sample worlds *)

(** The snapshot of user a: the open trade is left out, the loss of the trade
    closed first comes first on the curve. *)
Example sample_snapshot :
  map EquityPoint.date (equityCurve (snapshotOf isoDateMs (sampleTrades "a") 0))
  = ["2024-01-08"; "2024-01-10"] /\
  map (fun p => Qred (EquityPoint.cumulativePnl p))
      (equityCurve (snapshotOf isoDateMs (sampleTrades "a") 0))
  = [(-40)%Q; 60%Q] /\
  Totals.closedTrades (totals (snapshotOf isoDateMs (sampleTrades "a") 0)) = 2 /\
  Qred (Totals.winRate (totals (snapshotOf isoDateMs (sampleTrades "a") 0)))
  = 50%Q /\
  Qred (Totals.averagePnl (totals (snapshotOf isoDateMs (sampleTrades "a") 0)))
  = 30%Q /\
  Qred (Totals.expectancy (totals (snapshotOf isoDateMs (sampleTrades "a") 0)))
  = 30%Q /\
  map StrategyMetric.strategy
      (strategyBreakdown (snapshotOf isoDateMs (sampleTrades "a") 0))
  = [single; verticalSpread] /\
  map HoldingBucket.count
      (holdingPeriods (snapshotOf isoDateMs (sampleTrades "a") 0))
  = [0; 2; 0; 0].
Proof. vm_compute. repeat split. Qed.

(** Read with a signed average loss, the expectancy formula gives 70 on the
    +100 / -40 example where the specification states 30: the average loss of
    the formula is the mean size of the losses. *)
Example expectancy_signed_reading :
  Qred (toFixed2
          (avgWinOf (closedOf (sampleTrades "a"))
           * winRateFractionOf (closedOf (sampleTrades "a"))
           - signedAvgLossOf (closedOf (sampleTrades "a"))
             * (1 - winRateFractionOf (closedOf (sampleTrades "a")))))
  = 70%Q /\
  Qred (toFixed2 (expectancyOf (closedOf (sampleTrades "a")))) = 30%Q.
Proof. vm_compute. split; reflexivity. Qed.

(** On a tie both neighbours are roundings to cents: the mean of 2.01 and 0
    is 1.005, between 1.00 and 1.01. *)
Example roundedToCents_tie :
  meanOr0 [201 # 100; 0]%Q == 201 # 200 /\
  roundedToCents (100 # 100) (meanOr0 [201 # 100; 0]%Q) /\
  roundedToCents (101 # 100) (meanOr0 [201 # 100; 0]%Q) /\
  toFixed2 (meanOr0 [201 # 100; 0]%Q) == 101 # 100.
Proof.
  split; [vm_compute; reflexivity|].
  split; [split; [now exists 100 | vm_compute; discriminate]|].
  split; [split; [now exists 101 | vm_compute; discriminate]|].
  vm_compute. reflexivity.
Qed.

(** C4 read as a statement on the amounts: the curve of a gain of 100 closed
    on the 8th and a loss of 40 closed on the 10th goes from 100 down to 60,
    so the cumulative amounts are not non-decreasing in the order of
    emission. *)
Lemma equityCurve_values_fall :
  map (fun p => (EquityPoint.date p, Qred (EquityPoint.cumulativePnl p)))
      (equityCurve (snapshotOf isoDateMs gainThenLoss 0))
  = [("2024-01-08", 100%Q); ("2024-01-10", 60%Q)] /\
  ~ StronglySorted
      (fun a b => (EquityPoint.cumulativePnl a <= EquityPoint.cumulativePnl b)%Q)
      (equityCurve (snapshotOf isoDateMs gainThenLoss 0)).
Proof.
  split; [vm_compute; reflexivity|]. intros H. vm_compute in H.
  inversion H as [|a l _ Hall]; subst.
  inversion Hall as [|b l' Hle _]; subst.
  apply Hle. reflexivity.
Qed.

(** The distance between the last point and averagePnl x closedTrades grows
    with the number of trades: three gains of one cent among eight closed
    trades end the curve on 0.03 while averagePnl rounds to 0. *)
Example last_point_gap :
  map (fun p => Qred (EquityPoint.cumulativePnl p))
      (skipn 7
         (equityCurve
            (snapshotOf isoDateMs
               (List.repeat
                  (trade "a" "2024-01-03" (Some "2024-01-10") (Some (1 # 100)%Q)
                         None []) 3
                ++ List.repeat
                     (trade "a" "2024-01-03" (Some "2024-01-10") (Some 0%Q)
                            None []) 5)
               0)))
  = [(3 # 100)%Q] /\
  Qred (Totals.averagePnl
          (totals
             (snapshotOf isoDateMs
                (List.repeat
                   (trade "a" "2024-01-03" (Some "2024-01-10") (Some (1 # 100)%Q)
                          None []) 3
                 ++ List.repeat
                      (trade "a" "2024-01-03" (Some "2024-01-10") (Some 0%Q)
                             None []) 5)
                0)))
  = 0%Q.
Proof. vm_compute. split; reflexivity. Qed.

(** The one-trade example: opened 2024-01-01, closed 2024-01-10, net credit
    250, one short put. *)
Example single_trade_snapshot :
  tradePnl (hd (trade "c" "" None None None []) (sampleTrades "c")) = (250 - 0)%Q /\
  tradeBasis (hd (trade "c" "" None None None []) (sampleTrades "c")) = 250%Q /\
  map (holdDays isoDateMs) (sampleTrades "c") = [9] /\
  map (fun b => (HoldingBucket.bucket b, HoldingBucket.count b))
      (holdingPeriods (snapshotOf isoDateMs (sampleTrades "c") 0))
  = [("0-3d", 0); ("4-7d", 0); ("8-30d", 1); ("31d+", 0)] /\
  map (fun m => (StrategyMetric.strategy m, StrategyMetric.total m,
                 StrategyMetric.wins m, StrategyMetric.losses m,
                 Qred (StrategyMetric.averagePnl m)))
      (strategyBreakdown (snapshotOf isoDateMs (sampleTrades "c") 0))
  = [(single, 1, 1, 0, 250%Q)] /\
  Qred (Totals.winRate (totals (snapshotOf isoDateMs (sampleTrades "c") 0)))
  = 100%Q /\
  Qred (Totals.averagePnl (totals (snapshotOf isoDateMs (sampleTrades "c") 0)))
  = 250%Q.
Proof. vm_compute. repeat split. Qed.

(** The equity curve of user a, through the general statement. *)
Lemma equityCurve_running_sum_witness :
  (forall t, In t (closedOf (sampleTrades "a")) ->
             isoDateMs (nullish (closedAt t) (openedAt t)) <> None) /\
  List.length (equityCurve (snapshotOf isoDateMs (sampleTrades "a") 0)) = 2%nat /\
  StronglySorted
    (fun a b => exists ta tb,
         isoDateMs (nullish (closedAt a) (openedAt a)) = Some ta /\
         isoDateMs (nullish (closedAt b) (openedAt b)) = Some tb /\ ta <= tb)
    (Array_sort (byCloseDate isoDateMs) (closedOf (sampleTrades "a"))).
Proof.
  assert (Hparse : forall t, In t (closedOf (sampleTrades "a")) ->
                     isoDateMs (nullish (closedAt t) (openedAt t)) <> None).
  { intros t Hin. cbn in Hin. destruct Hin as [<-|[<-|[]]]; discriminate. }
  split; [exact Hparse|].
  destruct (equityCurve_running_sum isoDateMs (sampleTrades "a") 0)
    as (_ & Hlen & _ & _ & Hsorted).
  split; [exact Hlen|].
  exact (proj1 (Hsorted Hparse)).
Defined.

(** A first request in an empty store recomputes. *)
Lemma getSummary_cache_or_recompute_witness :
  queryRejects sampleWorld (SelectLatestSummary "a" DEFAULT_LABEL) = false /\
  exists r w',
    getSummary isoDateMs utcDay "a" sampleWorld = (Ok r, w') /\
    Response.refreshed r = true /\
    Response.reportDate r = utcDay (sampleClock 2) /\
    map StoredAnalyticsSnapshot.userId (analytics_summaries w') = ["a"].
Proof.
  split; [reflexivity|].
  destruct (getSummary_cache_or_recompute isoDateMs utcDay sampleWorld "a" eq_refl)
    as (_ & _ & _ & Hre).
  destruct Hre as (Hrun & _);
    [left; reflexivity | reflexivity | reflexivity |].
  rewrite Hrun. do 2 eexists. repeat split.
Defined.

(** A row calculated exactly 24 hours before the request is served as it is. *)
Lemma getSummary_staleness_strict_witness :
  queryRejects boundaryWorld (SelectLatestSummary "a" DEFAULT_LABEL) = false /\
  clock boundaryWorld (ticks boundaryWorld)
  - StoredAnalyticsSnapshot.calculatedAt boundaryRow = ONE_DAY_MS /\
  getSummary isoDateMs utcDay "a" boundaryWorld
  = (Ok (Response.mk 200 (StoredAnalyticsSnapshot.snapshot boundaryRow)
           (StoredAnalyticsSnapshot.reportDate boundaryRow)
           (StoredAnalyticsSnapshot.calculatedAt boundaryRow) false),
     mkWorld ["a"; "b"; "c"] sampleTrades [boundaryRow] (fun _ => false)
             sampleClock 1 []).
Proof.
  split; [reflexivity|]. split; [reflexivity|].
  exact (proj1 (getSummary_staleness_strict isoDateMs utcDay boundaryWorld "a"
                  boundaryRow eq_refl eq_refl) eq_refl).
Defined.

(** One millisecond later the same row is stale. *)
Example getSummary_just_stale :
  Response.refreshed
    (match fst (getSummary isoDateMs utcDay "a"
                  (mkWorld ["a"; "b"; "c"] sampleTrades [boundaryRow]
                           (fun _ => false) sampleClock 1 []))
     with
     | Ok r => r
     | Throw _ => Response.mk 0 (StoredAnalyticsSnapshot.snapshot boundaryRow) 0 0 false
     end) = true.
Proof. vm_compute. reflexivity. Qed.

(** Recomputing for user a in two states of the store and of the clock. *)
Lemma recompute_deterministic_witness :
  tradeRows boundaryWorld "a" = tradeRows sampleWorld "a" /\
  exists r r',
    fst (forceRecalculate isoDateMs utcDay "a" sampleWorld) = Ok r /\
    fst (forceRecalculate isoDateMs utcDay "a" boundaryWorld) = Ok r' /\
    sameContent (Response.data r) (Response.data r').
Proof.
  split; [reflexivity|].
  destruct (recompute_deterministic isoDateMs utcDay sampleWorld boundaryWorld "a"
              eq_refl eq_refl eq_refl eq_refl eq_refl)
    as (r & v & r' & v' & H1 & H2 & Hsame & _).
  exists r, r'. rewrite H1, H2. repeat split; apply Hsame.
Defined.

(** The batch over users a, b, c when reading the trades of b is rejected:
    the callback ends normally with one line on the console, a has been
    recomputed, and c, whose queries would all have been accepted, has not. *)
Lemma batch_isolation_counterexample :
  users faultyWorld = ["a"; "b"; "c"] /\
  queryRejects faultyWorld (SelectTrades "b") = true /\
  queryRejects faultyWorld (SelectTrades "c") = false /\
  queryRejects faultyWorld (UpsertSummary "c" DEFAULT_LABEL) = false /\
  fst (cronCallback isoDateMs utcDay faultyWorld) = Ok tt /\
  console (snd (cronCallback isoDateMs utcDay faultyWorld))
  = ["Analytics cron failed"] /\
  map StoredAnalyticsSnapshot.userId
      (analytics_summaries (snd (cronCallback isoDateMs utcDay faultyWorld)))
  = ["a"] /\
  existsb (fun r => String.eqb (StoredAnalyticsSnapshot.userId r) "c")
          (analytics_summaries (snd (cronCallback isoDateMs utcDay faultyWorld)))
  = false.
Proof. vm_compute. repeat split. Qed.

(** Without a rejected query the same batch recomputes all three users. *)
Example batch_without_failure :
  fst (cronCallback isoDateMs utcDay sampleWorld) = Ok tt /\
  console (snd (cronCallback isoDateMs utcDay sampleWorld)) = [] /\
  map StoredAnalyticsSnapshot.userId
      (analytics_summaries (snd (cronCallback isoDateMs utcDay sampleWorld)))
  = ["a"; "b"; "c"].
Proof. vm_compute. repeat split. Qed.

Lemma cron_stops_at_first_failure_witness :
  queryRejects faultyWorld SelectUsers = false /\
  users faultyWorld = ["a"] ++ "b" :: ["c"] /\
  queryRejects faultyWorld (SelectTrades "b") = true /\
  exists w1,
    for_of ["a"] (recalculateAnalyticsForUser isoDateMs utcDay) faultyWorld
    = (Ok tt, w1) /\
    analytics_summaries (snd (cronCallback isoDateMs utcDay faultyWorld))
    = analytics_summaries w1 /\
    console (snd (cronCallback isoDateMs utcDay faultyWorld))
    = console faultyWorld ++ ["Analytics cron failed"].
Proof.
  split; [reflexivity|]. split; [reflexivity|]. split; [reflexivity|].
  destruct (cron_stops_at_first_failure isoDateMs utcDay faultyWorld
              ["a"] ["c"] "b" eq_refl eq_refl)
    as (w1 & Hrun & _ & _ & Hs & Hc).
  - intros u [<-|[]]. split; reflexivity.
  - left. reflexivity.
  - exists w1. repeat split; assumption.
Defined.

(* ================================================================== *)
(** * Further properties of the aggregator *)

Lemma toFixed2_nonneg (x : Q) :
  (0 <= x)%Q -> toFixed2 x = Qfloor (x * 100 + (1 # 2))%Q # 100.
Proof.
  intros Hx. unfold toFixed2.
  assert (Hs : Qltb x 0 = false) by now apply Qltb_false.
  assert (Hf : Qfloor (Qabs x * 100 + (1 # 2))%Q = Qfloor (x * 100 + (1 # 2))%Q)
    by (apply Qfloor_comp; now rewrite (Qabs_pos x Hx)).
  cbv zeta. now rewrite Hs, Hf.
Qed.

(** Rounding to cents keeps a percentage between 0 and 100. *)
Lemma toFixed2_percent (x : Q) :
  (0 <= x <= 100)%Q -> (0 <= toFixed2 x <= 100)%Q.
Proof.
  intros [Hlo Hhi]. rewrite (toFixed2_nonneg x Hlo).
  assert (H0 : (Qfloor (1 # 2) <= Qfloor (x * 100 + (1 # 2)))%Z)
    by (apply Qfloor_resp_le; lra).
  assert (H1 : (Qfloor (x * 100 + (1 # 2)) <= Qfloor (100 * 100 + (1 # 2)))%Z)
    by (apply Qfloor_resp_le; lra).
  change (Qfloor (1 # 2)) with 0 in H0.
  change (Qfloor (100 * 100 + (1 # 2))) with 10000 in H1.
  unfold Qle. cbn [Qnum Qden]. lia.
Qed.

Lemma countZ_filter_le {A} (f : A -> bool) (l : list A) :
  0 <= countZ (filter f l) <= countZ l.
Proof.
  unfold countZ. pose proof (filter_length_le f l). lia.
Qed.

Lemma winRateFraction_range (l : list TradeRecord) :
  (0 <= winRateFractionOf l <= 1)%Q.
Proof.
  unfold winRateFractionOf. destruct l as [|t l]; [split; lra|].
  set (n := countZ (t :: l)). set (k := countZ (filter isWin (t :: l))).
  assert (Hk : 0 <= k <= n) by apply countZ_filter_le.
  assert (Hn : 0 < n) by (unfold n, countZ; simpl; lia).
  assert (HnQ : (0 < inject_Z n)%Q)
    by (change 0%Q with (inject_Z 0); now rewrite <- Zlt_Qlt).
  split.
  - apply Qle_shift_div_l; [exact HnQ|]. rewrite Qmult_0_l.
    change 0%Q with (inject_Z 0). rewrite <- Zle_Qle. lia.
  - apply Qle_shift_div_r; [exact HnQ|]. rewrite Qmult_1_l.
    rewrite <- Zle_Qle. lia.
Qed.

Lemma filter_idem {A} (f : A -> bool) (l : list A) :
  filter f (filter f l) = filter f l.
Proof.
  induction l as [|x l IH]; [reflexivity|]. simpl.
  destruct (f x) eqn:E; simpl; [rewrite E, IH | rewrite IH]; reflexivity.
Qed.

Lemma Qsum_inject_Z (zs : list Z) : (Qsum (map inject_Z zs) == inject_Z (Zsum zs))%Q.
Proof.
  induction zs as [|z zs IH]; [reflexivity|].
  cbn [map Qsum Zsum fold_right] in *. unfold Qsum, Zsum in IH.
  rewrite IH, inject_Z_plus. reflexivity.
Qed.

Section AggregatorMore.

Variable Date_getTime : string -> option Z.

Local Abbreviation snapshotOf' := (snapshotOf Date_getTime).
Local Abbreviation holdDays' := (holdDays Date_getTime).
Local Abbreviation loopStep' := (loopStep Date_getTime).

Lemma holdDays_nonneg (t : TradeRecord) : 0 <= holdDays' t.
Proof.
  unfold holdDays, daysBetween.
  destruct (Date_getTime (openedAt t)); [|lia].
  destruct (Date_getTime (nullish (closedAt t) (openedAt t))); [|lia].
  unfold Math_round_div. apply Z.div_pos; [|reflexivity].
  unfold MS_PER_DAY. lia.
Qed.

(** X1.  The win rate of a snapshot lies between 0 and 100, whatever the
    trades. *)
Theorem winRate_in_range (trades : list TradeRecord) (g : Z) :
  (0 <= Totals.winRate (totals (snapshotOf' trades g)) <= 100)%Q.
Proof.
  rewrite snapshot_totals. cbv zeta. cbn [Totals.winRate].
  rewrite (toFixed2_compat _ (winRateFractionOf (closedOf trades) * 100))
    by now rewrite winRate_fraction.
  apply toFixed2_percent.
  pose proof (winRateFraction_range (closedOf trades)) as [H0 H1].
  split; lra.
Qed.

(** X2.  Trades without a closed date do not reach the snapshot: it is the
    snapshot of the closed trades alone; and without any closed trade every
    total is 0, the breakdown and the equity curve are empty and the four
    buckets are listed with count 0. *)
Theorem snapshot_ignores_open_trades (trades : list TradeRecord) (g : Z) :
  snapshotOf' trades g = snapshotOf' (closedOf trades) g /\
  (closedOf trades = [] ->
   snapshotOf' trades g
   = mkSnapshot g
       (Totals.mk (0 # 100) (0 # 100) (0 # 100) (0 # 100) (0 # 100) 0)
       [] []
       [HoldingBucket.mk "0-3d" 0; HoldingBucket.mk "4-7d" 0;
        HoldingBucket.mk "8-30d" 0; HoldingBucket.mk "31d+" 0]).
Proof.
  assert (Hid : snapshotOf' trades g = snapshotOf' (closedOf trades) g).
  { unfold snapshotOf, closedOf, isClosed.
    rewrite (filter_idem (fun trade => truthy (closedAt trade)) trades).
    reflexivity. }
  split; [exact Hid|].
  intros Hnone. rewrite Hid, Hnone. reflexivity.
Qed.

(** X3.  averagePnlPct is the mean of the per-trade percentage returns and
    averageHoldDays the mean of the per-trade holding days over the closed
    trades, each rounded to two decimals, that is, a whole number of cents
    nearest to the mean, a tie going either way; both are 0 without closed
    trades, and the average holding time is never negative. *)
Theorem average_pct_and_hold_days (trades : list TradeRecord) (g : Z) :
  roundedToCents (Totals.averagePnlPct (totals (snapshotOf' trades g)))
                 (meanOr0 (map pnlPct (closedOf trades))) /\
  roundedToCents (Totals.averageHoldDays (totals (snapshotOf' trades g)))
                 (meanOr0 (map (fun t => inject_Z (holdDays' t))
                               (closedOf trades))) /\
  (closedOf trades = [] ->
   (Totals.averagePnlPct (totals (snapshotOf' trades g)) == 0)%Q /\
   (Totals.averageHoldDays (totals (snapshotOf' trades g)) == 0)%Q) /\
  (0 <= Totals.averageHoldDays (totals (snapshotOf' trades g)))%Q.
Proof.
  destruct (acc_closed Date_getTime (closedOf trades))
    as (_ & _ & _ & I4 & I5 & _).
  assert (Hpct : Totals.averagePnlPct (totals (snapshotOf' trades g))
                 = toFixed2 (meanOr0 (map pnlPct (closedOf trades)))).
  { rewrite snapshot_totals. cbv zeta. cbn [Totals.averagePnlPct].
    apply toFixed2_compat. rewrite <- (countZ_map pnlPct).
    now apply divByCount_mean. }
  assert (Hhold : Totals.averageHoldDays (totals (snapshotOf' trades g))
                  = toFixed2 (meanOr0 (map (fun t => inject_Z (holdDays' t))
                                           (closedOf trades)))).
  { rewrite snapshot_totals. cbv zeta. cbn [Totals.averageHoldDays].
    apply toFixed2_compat.
    rewrite <- (countZ_map (fun t => inject_Z (holdDays' t))).
    apply divByCount_mean.
    rewrite I5, <- Qsum_inject_Z, map_map. reflexivity. }
  split; [rewrite Hpct; apply toFixed2_rounded|].
  split; [rewrite Hhold; apply toFixed2_rounded|].
  split; [intros E; rewrite Hpct, Hhold, E; split; reflexivity|].
  rewrite snapshot_totals. cbv zeta. cbn [Totals.averageHoldDays].
  set (x := divByCount _ _).
  assert (Hx : (0 <= x)%Q).
  { unfold x, divByCount.
    destruct (countZ (closedOf trades) =? 0) eqn:E; [apply Qle_refl|].
    apply Z.eqb_neq in E.
    assert (Hn : 0 < countZ (closedOf trades)) by (unfold countZ in *; lia).
    apply Qle_shift_div_l.
    - change 0%Q with (inject_Z 0). now rewrite <- Zlt_Qlt.
    - rewrite Qmult_0_l. change 0%Q with (inject_Z 0). rewrite <- Zle_Qle.
      rewrite I5. clear. induction (closedOf trades) as [|t l IH]; [reflexivity|].
      cbn [map]. change (Zsum (holdDays' t :: map holdDays' l))
        with (holdDays' t + Zsum (map holdDays' l)).
      pose proof (holdDays_nonneg t). lia. }
  rewrite (toFixed2_nonneg x Hx).
  assert (H0 : (Qfloor (1 # 2) <= Qfloor (x * 100 + (1 # 2)))%Z)
    by (apply Qfloor_resp_le; lra).
  change (Qfloor (1 # 2)) with 0 in H0.
  unfold Qle. cbn [Qnum Qden]. lia.
Qed.

(** One turn of the loop on the statistics kept for strategy [k]. *)
Lemma stats_step (st : LoopState) (t : TradeRecord) (k : StrategyKey) :
  let s := nullish (JsMap.get StrategyKey_eqb k (strategyMap st)) Stats.zero in
  let s' := nullish (JsMap.get StrategyKey_eqb k (strategyMap (loopStep' st t)))
                    Stats.zero in
  if StrategyKey_eqb (classifyStrategy t) k
  then Stats.total s' = Stats.total s + 1 /\
       Stats.wins s' = Stats.wins s + (if isWin t then 1 else 0) /\
       Stats.losses s' = Stats.losses s + (if isLoss t then 1 else 0) /\
       Stats.pnlSum s' = (Stats.pnlSum s + tradePnl t)%Q
  else s' = s.
Proof.
  cbv zeta. unfold loopStep.
  destruct (StrategyKey_eqb (classifyStrategy t) k) eqn:E.
  - apply StrategyKey_eqb_eq in E. subst k.
    destruct (isWin t) eqn:Hw.
    + rewrite (win_not_loss t Hw). unfold isWin in Hw. rewrite Hw.
      cbn [strategyMap].
      rewrite (get_set_same StrategyKey_eqb StrategyKey_eqb_eq).
      cbn [nullish Stats.total Stats.wins Stats.losses Stats.pnlSum].
      repeat split; lia.
    + unfold isWin in Hw. rewrite Hw. unfold isLoss.
      destruct (Qltb (tradePnl t) 0); cbn [strategyMap];
        rewrite (get_set_same StrategyKey_eqb StrategyKey_eqb_eq);
        cbn [nullish Stats.total Stats.wins Stats.losses Stats.pnlSum];
        repeat split; lia.
  - assert (Hne : k <> classifyStrategy t).
    { intros ->. rewrite StrategyKey_eqb_refl in E. discriminate. }
    destruct (Qgtb (tradePnl t) 0); [|destruct (Qltb (tradePnl t) 0)];
      cbn [strategyMap];
      rewrite (get_set_other StrategyKey_eqb StrategyKey_eqb_eq) by exact Hne;
      reflexivity.
Qed.

Lemma stats_fold (l : list TradeRecord) (st : LoopState) (k : StrategyKey) :
  let s := nullish (JsMap.get StrategyKey_eqb k (strategyMap st)) Stats.zero in
  let s' := nullish (JsMap.get StrategyKey_eqb k
                       (strategyMap (fold_left loopStep' l st))) Stats.zero in
  let G := filter (fun t => StrategyKey_eqb (classifyStrategy t) k) l in
  Stats.total s' = Stats.total s + countZ G /\
  Stats.wins s' = Stats.wins s + countZ (filter isWin G) /\
  Stats.losses s' = Stats.losses s + countZ (filter isLoss G) /\
  (Stats.pnlSum s' == Stats.pnlSum s + Qsum (map tradePnl G))%Q.
Proof.
  revert st. induction l as [|t l IH]; intros st; cbv zeta.
  - unfold countZ. simpl. repeat split; try lia. ring.
  - cbn [fold_left filter].
    destruct (IH (loopStep' st t)) as (I1 & I2 & I3 & I4).
    pose proof (stats_step st t k) as Hs. cbv zeta in Hs.
    rewrite I1, I2, I3, I4.
    destruct (StrategyKey_eqb (classifyStrategy t) k).
    + destruct Hs as (S1 & S2 & S3 & S4). rewrite S1, S2, S3, S4.
      unfold countZ. cbn [filter map].
      destruct (isWin t), (isLoss t);
        unfold Qsum; cbn [map List.length fold_right];
        repeat split; try lia; try ring.
    + rewrite Hs. repeat split; reflexivity.
Qed.

(** A strategy enters the map only with a trade classified under it. *)
Lemma strategyKeys_from_trades (l : list TradeRecord) (st : LoopState)
      (k : StrategyKey) :
  In k (map fst (strategyMap (fold_left loopStep' l st))) ->
  In k (map fst (strategyMap st)) \/
  exists t, In t l /\ classifyStrategy t = k.
Proof.
  revert st. induction l as [|t l IH]; intros st Hin; [now left|].
  cbn [fold_left] in Hin. destruct (IH _ Hin) as [Hk|(t' & Ht' & Hc)].
  - assert (Hset : k = classifyStrategy t \/ In k (map fst (strategyMap st))).
    { unfold loopStep in Hk.
      destruct (Qgtb (tradePnl t) 0); [|destruct (Qltb (tradePnl t) 0)];
        cbn [strategyMap] in Hk;
        now apply keys_set_in in Hk. }
    destruct Hset as [->|Hold]; [|now left].
    right. exists t. split; [now left | reflexivity].
  - right. exists t'. split; [now right | exact Hc].
Qed.

(** X4.  Every group of the strategy breakdown is made of the closed trades
    classified under its strategy: it is not empty, its total is their number,
    its wins and losses are the numbers of those with strictly positive and
    strictly negative P&L (so wins + losses never exceeds the total, a P&L of
    0 counting for neither), and its averagePnl is their mean P&L rounded to
    two decimals: a whole number of cents nearest to the mean, a tie going
    either way. *)
Theorem strategy_group_metrics (trades : list TradeRecord) (g : Z) :
  Forall
    (fun m =>
       let G := filter (fun t => StrategyKey_eqb (classifyStrategy t)
                                   (StrategyMetric.strategy m))
                       (closedOf trades) in
       G <> [] /\
       StrategyMetric.total m = countZ G /\
       StrategyMetric.wins m = countZ (filter isWin G) /\
       StrategyMetric.losses m = countZ (filter isLoss G) /\
       StrategyMetric.wins m + StrategyMetric.losses m <= StrategyMetric.total m /\
       roundedToCents (StrategyMetric.averagePnl m) (meanOr0 (map tradePnl G)))
    (strategyBreakdown (snapshotOf' trades g)).
Proof.
  rewrite snapshot_strategyBreakdown.
  set (M := strategyMap (fold_left loopStep' (closedOf trades) loopInit)).
  assert (HndM : NoDup (map fst M)) by (apply strategyKeys_fold; constructor).
  apply Forall_forall. intros m Hm.
  apply (Permutation_in _ (Array_sort_perm byTotalDesc _)) in Hm.
  apply in_map_iff in Hm as [[k v] [<- Hin]].
  cbn [toStrategyMetric StrategyMetric.strategy StrategyMetric.total
       StrategyMetric.wins StrategyMetric.losses StrategyMetric.averagePnl].
  set (G := filter (fun t => StrategyKey_eqb (classifyStrategy t) k)
                   (closedOf trades)).
  destruct (stats_fold (closedOf trades) loopInit k) as (I1 & I2 & I3 & I4).
  fold M in I1, I2, I3, I4. fold G in I1, I2, I3, I4.
  rewrite (get_In StrategyKey_eqb StrategyKey_eqb_eq k v M HndM Hin)
    in I1, I2, I3, I4.
  cbn [nullish loopInit strategyMap JsMap.get Stats.zero Stats.total Stats.wins
       Stats.losses Stats.pnlSum] in I1, I2, I3, I4.
  assert (HG : G <> []).
  { destruct (strategyKeys_from_trades (closedOf trades) loopInit k)
      as [[]|(t & Ht & Hc)].
    - fold M. now apply (in_map fst) in Hin.
    - intros E. assert (Hin' : In t G).
      { apply filter_In. split; [exact Ht|]. now apply StrategyKey_eqb_eq. }
      rewrite E in Hin'. destruct Hin'. }
  assert (Hpos : 0 < countZ G)
    by (destruct G; [congruence | unfold countZ; simpl; lia]).
  split; [exact HG|]. split; [lia|]. split; [lia|]. split; [lia|]. split.
  - rewrite I1, I2, I3. clear. induction G as [|t G IH]; [reflexivity|].
    unfold countZ in *. cbn [filter].
    destruct (isWin t) eqn:Hw.
    + rewrite (win_not_loss t Hw). simpl List.length. lia.
    + destruct (isLoss t); simpl List.length; lia.
  - assert (Hz : (Stats.total v =? 0) = false) by (apply Z.eqb_neq; lia).
    rewrite Hz.
    rewrite (toFixed2_compat _ (meanOr0 (map tradePnl G)));
      [apply toFixed2_rounded|].
    rewrite (meanOr0_nonempty (map tradePnl G))
      by (destruct G; [congruence | discriminate]).
    rewrite countZ_map, I1, I4, Qplus_0_l. reflexivity.
Qed.

(** X5.  The strategy breakdown is listed by decreasing total. *)
Theorem strategyBreakdown_by_decreasing_total (trades : list TradeRecord)
        (g : Z) :
  StronglySorted
    (fun a b => StrategyMetric.total b <= StrategyMetric.total a)
    (strategyBreakdown (snapshotOf' trades g)).
Proof.
  rewrite snapshot_strategyBreakdown.
  apply (StronglySorted_weaken
           (fun a b => - StrategyMetric.total a <= - StrategyMetric.total b)).
  - intros a b _ _ H. lia.
  - apply (Array_sort_sorted byTotalDesc (fun m => - StrategyMetric.total m)).
    intros x y _ _. unfold byTotalDesc. lia.
Qed.

Lemma keys_set (k : StrategyKey) (v : Stats.t) (m : list (StrategyKey * Stats.t)) :
  map fst (JsMap.set StrategyKey_eqb k v m)
  = if existsb (StrategyKey_eqb k) (map fst m) then map fst m
    else map fst m ++ [k].
Proof.
  induction m as [|[k' v'] m IH]; [reflexivity|].
  cbn [JsMap.set map fst existsb].
  destruct (StrategyKey_eqb k k') eqn:E; [reflexivity|].
  cbn [orb map fst]. rewrite IH.
  now destruct (existsb (StrategyKey_eqb k) (map fst m)).
Qed.

Lemma loopStep_keys (st : LoopState) (t : TradeRecord) :
  map fst (strategyMap (loopStep' st t))
  = if existsb (StrategyKey_eqb (classifyStrategy t)) (map fst (strategyMap st))
    then map fst (strategyMap st)
    else map fst (strategyMap st) ++ [classifyStrategy t].
Proof.
  unfold loopStep.
  destruct (Qgtb (tradePnl t) 0); [|destruct (Qltb (tradePnl t) 0)];
    cbn [strategyMap]; apply keys_set.
Qed.

Lemma filter_and {A} (p q : A -> bool) (l : list A) :
  filter p (filter q l) = filter (fun x => q x && p x) l.
Proof.
  induction l as [|x l IH]; [reflexivity|]. cbn [filter].
  destruct (q x); cbn [filter andb]; [destruct (p x)|]; now rewrite IH.
Qed.

(** The map lists the strategies in the order the loop first met them. *)
Lemma strategyKeys_firstSeen (l : list TradeRecord) (st : LoopState) :
  map fst (strategyMap (fold_left loopStep' l st))
  = map fst (strategyMap st)
    ++ filter (fun k => negb (existsb (StrategyKey_eqb k)
                                      (map fst (strategyMap st))))
              (firstSeen (map classifyStrategy l)).
Proof.
  revert st. induction l as [|t l IH]; intros st.
  - simpl. now rewrite app_nil_r.
  - cbn [fold_left map firstSeen filter]. rewrite IH, loopStep_keys.
    set (K := map fst (strategyMap st)). set (k := classifyStrategy t).
    set (FS := firstSeen (map classifyStrategy l)).
    assert (Hsym : forall a b, StrategyKey_eqb a b = StrategyKey_eqb b a)
      by (intros [] []; reflexivity).
    destruct (existsb (StrategyKey_eqb k) K) eqn:E.
    + cbn [negb]. f_equal. rewrite filter_and. apply filter_ext_in.
      intros x _. destruct (StrategyKey_eqb x k) eqn:Ex; [|reflexivity].
      apply StrategyKey_eqb_eq in Ex. subst x.
      cbn [negb andb]. now rewrite E.
    + cbn [negb]. rewrite <- app_assoc. cbn [app]. do 2 f_equal.
      rewrite filter_and. apply filter_ext_in. intros x _.
      rewrite existsb_app. cbn [existsb]. rewrite orb_false_r, negb_orb.
      rewrite (Hsym x k). apply andb_comm.
Qed.

(** X6.  Among the groups of the strategy breakdown that have the same total,
    the order is that in which their strategies first appear among the closed
    trades: for every n, the strategies of the groups of total n, read along
    the breakdown, are the strategies with n closed trades read in order of
    first appearance. *)
Theorem strategyBreakdown_ties_in_encounter_order (trades : list TradeRecord)
        (g n : Z) :
  map StrategyMetric.strategy
      (filter (fun m => StrategyMetric.total m =? n)
              (strategyBreakdown (snapshotOf' trades g)))
  = filter (fun k =>
              countZ (filter (fun t => StrategyKey_eqb (classifyStrategy t) k)
                             (closedOf trades)) =? n)
           (firstSeen (map classifyStrategy (closedOf trades))).
Proof.
  rewrite snapshot_strategyBreakdown.
  set (M := strategyMap (fold_left loopStep' (closedOf trades) loopInit)).
  assert (HndM : NoDup (map fst M)) by (apply strategyKeys_fold; constructor).
  assert (Hkeys : map fst M = firstSeen (map classifyStrategy (closedOf trades))).
  { unfold M. rewrite strategyKeys_firstSeen. cbn [loopInit strategyMap map app].
    cbn [existsb negb]. clear.
    induction (firstSeen (map classifyStrategy (closedOf trades))) as [|k ks IH];
      [reflexivity|]. cbn [filter]. now rewrite IH. }
  rewrite (filter_ext (fun m => StrategyMetric.total m =? n)
                      (fun m => - StrategyMetric.total m =? - n))
    by (intros m; destruct (Z.eqb_spec (StrategyMetric.total m) n);
        destruct (Z.eqb_spec (- StrategyMetric.total m) (- n)); lia || reflexivity).
  rewrite (Array_sort_stable byTotalDesc (fun m => - StrategyMetric.total m))
    by (intros x y _ _; unfold byTotalDesc; lia).
  rewrite <- Hkeys.
  assert (Hcount : forall k v, In (k, v) M ->
            Stats.total v
            = countZ (filter (fun t => StrategyKey_eqb (classifyStrategy t) k)
                             (closedOf trades))).
  { intros k v Hin.
    pose proof (strategyGet_fold Date_getTime (closedOf trades) loopInit k) as Hg.
    fold M in Hg.
    now rewrite (get_In StrategyKey_eqb StrategyKey_eqb_eq k v M HndM Hin) in Hg. }
  clear Hkeys HndM. induction M as [|[k v] M IH]; [reflexivity|].
  cbn [map filter fst toStrategyMetric StrategyMetric.total].
  rewrite <- (Hcount k v (or_introl eq_refl)).
  assert (Heq : (- Stats.total v =? - n) = (Stats.total v =? n))
    by (destruct (Z.eqb_spec (- Stats.total v) (- n));
        destruct (Z.eqb_spec (Stats.total v) n); lia || reflexivity).
  rewrite Heq.
  destruct (Stats.total v =? n); cbn [map StrategyMetric.strategy];
    rewrite IH by (intros k' v' H'; apply Hcount; now right); reflexivity.
Qed.

End AggregatorMore.

(* ================================================================== *)
(** * Further properties of the snapshot store and service *)

Lemma sameKey_keyOf (a b : StoredAnalyticsSnapshot.t) :
  sameKey a b = true <-> keyOf a = keyOf b.
Proof.
  rewrite sameKey_iff. unfold keyOf. split.
  - intros (-> & -> & ->). reflexivity.
  - intros E. inversion E. auto.
Qed.

Lemma existsb_sameKey (row : StoredAnalyticsSnapshot.t)
      (rows : list StoredAnalyticsSnapshot.t) :
  existsb (sameKey row) rows = true <-> In (keyOf row) (map keyOf rows).
Proof.
  rewrite existsb_exists, in_map_iff. split.
  - intros (r & Hin & Hk). exists r. split; [|exact Hin].
    symmetry. now apply sameKey_keyOf.
  - intros (r & Hk & Hin). exists r. split; [exact Hin|].
    now apply sameKey_keyOf.
Qed.

Lemma upsertRow_keys (row : StoredAnalyticsSnapshot.t)
      (rows : list StoredAnalyticsSnapshot.t) :
  map keyOf (upsertRow row rows)
  = if existsb (sameKey row) rows then map keyOf rows
    else map keyOf rows ++ [keyOf row].
Proof.
  induction rows as [|r rows IH]; [reflexivity|].
  cbn [upsertRow existsb]. destruct (sameKey row r) eqn:E.
  - reflexivity.
  - cbn [orb map]. rewrite IH. now destruct (existsb (sameKey row) rows).
Qed.

Lemma upsertRow_append (row : StoredAnalyticsSnapshot.t)
      (rows : list StoredAnalyticsSnapshot.t) :
  existsb (sameKey row) rows = false -> upsertRow row rows = rows ++ [row].
Proof.
  induction rows as [|r rows IH]; [reflexivity|].
  cbn [upsertRow existsb]. intros H. apply orb_false_iff in H as [E H].
  rewrite E, (IH H). reflexivity.
Qed.

Lemma upsertRow_length (row : StoredAnalyticsSnapshot.t)
      (rows : list StoredAnalyticsSnapshot.t) :
  List.length (upsertRow row rows)
  = if existsb (sameKey row) rows then List.length rows
    else S (List.length rows).
Proof.
  rewrite <- (length_map keyOf), upsertRow_keys.
  destruct (existsb (sameKey row) rows); rewrite ?length_app, length_map;
    simpl; lia.
Qed.

Lemma NoDup_map_eq {A B} (f : A -> B) (l : list A) (a b : A) :
  NoDup (map f l) -> In a l -> In b l -> f a = f b -> a = b.
Proof.
  induction l as [|x l IH]; intros Hnd Ha Hb E; [destruct Ha|].
  cbn [map] in Hnd. inversion Hnd as [|? ? Hnot Hnd']; subst.
  destruct Ha as [->|Ha], Hb as [->|Hb].
  - reflexivity.
  - exfalso. apply Hnot. rewrite E. now apply in_map.
  - exfalso. apply Hnot. rewrite <- E. now apply in_map.
  - now apply IH.
Qed.

(** X7.  The upsert keeps the store's key (user, label, report date) unique:
    on a table without two rows of one key it leaves a table without two rows
    of one key, which holds the new row; a row of the same key is overwritten
    in place (the table keeps its length), and without one the row is added at
    the end. *)
Theorem upsertRow_keeps_keys_unique (row : StoredAnalyticsSnapshot.t)
        (rows : list StoredAnalyticsSnapshot.t) :
  NoDup (map keyOf rows) ->
  NoDup (map keyOf (upsertRow row rows)) /\
  In row (upsertRow row rows) /\
  (In (keyOf row) (map keyOf rows) ->
   List.length (upsertRow row rows) = List.length rows /\
   map keyOf (upsertRow row rows) = map keyOf rows) /\
  (~ In (keyOf row) (map keyOf rows) -> upsertRow row rows = rows ++ [row]).
Proof.
  intros Hnd.
  pose proof (existsb_sameKey row rows) as Hex.
  split; [|split; [exact (proj1 (upsertRow_spec row rows))|split]].
  - rewrite upsertRow_keys.
    destruct (existsb (sameKey row) rows) eqn:E; [exact Hnd|].
    apply NoDup_app; [exact Hnd | repeat constructor; intros [] |].
    intros k Hk [<-|[]].
    apply Hex in Hk. congruence.
  - intros Hin. apply Hex in Hin.
    rewrite upsertRow_length, upsertRow_keys, Hin. split; reflexivity.
  - intros Hnot. apply upsertRow_append.
    destruct (existsb (sameKey row) rows) eqn:E; [|reflexivity].
    exfalso. apply Hnot, Hex. reflexivity.
Qed.

Lemma upsertRow_keeps_keys_unique_witness :
  NoDup (map keyOf [boundaryRow]) /\
  List.length (upsertRow boundaryRow [boundaryRow]) = 1%nat.
Proof.
  assert (Hnd : NoDup (map keyOf [boundaryRow]))
    by (repeat constructor; intros []).
  split; [exact Hnd|].
  destruct (upsertRow_keeps_keys_unique boundaryRow [boundaryRow] Hnd)
    as (_ & _ & Hsame & _).
  apply Hsame. left. reflexivity.
Defined.

(** What the upsert wrote is what the lookup of the latest row finds, when
    the table has unique keys and holds no row of the user dated after it. *)
Lemma latestRow_after_upsert (row : StoredAnalyticsSnapshot.t)
      (rows : list StoredAnalyticsSnapshot.t) :
  StoredAnalyticsSnapshot.label row = DEFAULT_LABEL ->
  NoDup (map keyOf rows) ->
  (forall r, In r rows ->
     StoredAnalyticsSnapshot.userId r = StoredAnalyticsSnapshot.userId row ->
     StoredAnalyticsSnapshot.label r = DEFAULT_LABEL ->
     StoredAnalyticsSnapshot.reportDate r
     <= StoredAnalyticsSnapshot.reportDate row) ->
  latestRow
    (filter (fun r => String.eqb (StoredAnalyticsSnapshot.userId r)
                                 (StoredAnalyticsSnapshot.userId row)
                      && String.eqb (StoredAnalyticsSnapshot.label r) DEFAULT_LABEL)
            (upsertRow row rows))
  = Some row.
Proof.
  intros Hlabel Hnd Hdates.
  set (sel := fun r => String.eqb (StoredAnalyticsSnapshot.userId r)
                                  (StoredAnalyticsSnapshot.userId row)
                       && String.eqb (StoredAnalyticsSnapshot.label r)
                                     DEFAULT_LABEL).
  destruct (upsertRow_spec row rows) as (Hrow & _ & Hfrom).
  assert (Hnd' : NoDup (map keyOf (upsertRow row rows))).
  { rewrite upsertRow_keys.
    destruct (existsb (sameKey row) rows) eqn:E; [exact Hnd|].
    apply NoDup_app; [exact Hnd | repeat constructor; intros [] |].
    intros k Hk [<-|[]]. apply existsb_sameKey in Hk. congruence. }
  assert (Hsel : sel row = true).
  { unfold sel. now rewrite String.eqb_refl, Hlabel. }
  assert (HinL : In row (filter sel (upsertRow row rows)))
    by (apply filter_In; split; assumption).
  destruct (latestRow_spec (filter sel (upsertRow row rows))) as [Hnone Hsome].
  destruct (latestRow (filter sel (upsertRow row rows))) as [e|] eqn:El.
  - destruct (Hsome e eq_refl) as [He Hmax].
    apply filter_In in He as [He Hse].
    unfold sel in Hse. apply andb_true_iff in Hse as [Hu Hl].
    apply String.eqb_eq in Hu, Hl.
    assert (Hle : StoredAnalyticsSnapshot.reportDate e
                  <= StoredAnalyticsSnapshot.reportDate row).
    { destruct (Hfrom e He) as [->|Hold]; [lia|]. now apply Hdates. }
    assert (Hge : ~ (StoredAnalyticsSnapshot.reportDate e
                     < StoredAnalyticsSnapshot.reportDate row)).
    { intros Hlt. pose proof (Hmax row HinL) as Hn.
      assert (newer row e = true) by (apply newer_iff; now left). congruence. }
    f_equal. apply (NoDup_map_eq keyOf (upsertRow row rows)); try assumption.
    unfold keyOf. rewrite Hu, Hl, Hlabel. f_equal. lia.
  - exfalso. rewrite (proj1 Hnone eq_refl) in HinL. destruct HinL.
Qed.

(** *** Relations kept by every step of a computation *)

Section Keeps.

Variable R : World -> World -> Prop.
Hypothesis R_refl : forall w, R w w.
Hypothesis R_trans : forall a b c, R a b -> R b c -> R a c.

Lemma keeps_ret {A} (a : A) : keeps R (ret a).
Proof. intros w. apply R_refl. Qed.

Lemma keeps_bind {A B} (m : M A) (k : A -> M B) :
  keeps R m -> (forall a, keeps R (k a)) -> keeps R (bind m k).
Proof.
  intros Hm Hk w. unfold bind. specialize (Hm w).
  destruct (m w) as [[a|e] w']; cbn [snd] in *.
  - apply (R_trans _ w'); [exact Hm | apply Hk].
  - exact Hm.
Qed.

Lemma keeps_pool_query (q : Query) : keeps R (pool_query q).
Proof.
  intros w. unfold pool_query. destruct (queryRejects w q); apply R_refl.
Qed.

Lemma keeps_try_catch {A} (m : M A) (h : string -> M A) :
  keeps R m -> (forall e, keeps R (h e)) -> keeps R (try_catch m h).
Proof.
  intros Hm Hh w. unfold try_catch. specialize (Hm w).
  destruct (m w) as [[a|e] w']; cbn [snd] in *.
  - exact Hm.
  - apply (R_trans _ w'); [exact Hm | apply Hh].
Qed.

Lemma keeps_for_of {A} (xs : list A) (body : A -> M unit) :
  (forall x, keeps R (body x)) -> keeps R (for_of xs body).
Proof.
  intros Hb. induction xs as [|x xs IH]; cbn [for_of].
  - apply keeps_ret.
  - apply keeps_bind; [apply Hb | intros _; exact IH].
Qed.

Lemma keeps_listTrades (u : string) : keeps R (listTrades u).
Proof.
  unfold listTrades. apply keeps_bind; [apply keeps_pool_query|].
  intros a. apply keeps_ret.
Qed.

Lemma keeps_getLatest (u : string) (label : option string) :
  keeps R (getLatestAnalyticsSnapshot u label).
Proof.
  unfold getLatestAnalyticsSnapshot. apply keeps_bind; [apply keeps_pool_query|].
  intros a. apply keeps_ret.
Qed.

End Keeps.

Lemma sameRowsOfOthers_refl (u : string) (w : World) : sameRowsOfOthers u w w.
Proof. reflexivity. Qed.

Lemma sameRowsOfOthers_trans (u : string) (a b c : World) :
  sameRowsOfOthers u a b -> sameRowsOfOthers u b c -> sameRowsOfOthers u a c.
Proof. unfold sameRowsOfOthers. intros H1 H2. now rewrite H2, H1. Qed.

Lemma sameRepository_refl (w : World) : sameRepository w w.
Proof. repeat split. Qed.

Lemma sameRepository_trans (a b c : World) :
  sameRepository a b -> sameRepository b c -> sameRepository a c.
Proof.
  unfold sameRepository. intros (A1 & A2 & A3 & A4) (B1 & B2 & B3 & B4).
  repeat split; congruence.
Qed.

(** The upsert of a row of user [u] leaves the rows of the other users where
    they are. *)
Lemma upsertRow_others (u : string) (row : StoredAnalyticsSnapshot.t)
      (rows : list StoredAnalyticsSnapshot.t) :
  StoredAnalyticsSnapshot.userId row = u ->
  filter (fun r => negb (String.eqb (StoredAnalyticsSnapshot.userId r) u))
         (upsertRow row rows)
  = filter (fun r => negb (String.eqb (StoredAnalyticsSnapshot.userId r) u)) rows.
Proof.
  intros Hu. induction rows as [|r rows IH]; cbn [upsertRow filter].
  - now rewrite Hu, String.eqb_refl.
  - destruct (sameKey row r) eqn:E; cbn [filter StoredAnalyticsSnapshot.userId].
    + apply sameKey_iff in E as (Eu & _ & _). rewrite <- Eu, Hu.
      now rewrite String.eqb_refl.
    + now rewrite IH.
Qed.

Section ServiceMore.

Variable Date_getTime : string -> option Z.
Variable toDate : Z -> Z.

Local Abbreviation snapshotOf' := (snapshotOf Date_getTime).
Local Abbreviation getSummary' := (getSummary Date_getTime toDate).
Local Abbreviation forceRecalculate' := (forceRecalculate Date_getTime toDate).
Local Abbreviation recalculateAnalyticsForUser' :=
  (recalculateAnalyticsForUser Date_getTime toDate).
Local Abbreviation cronCallback' := (cronCallback Date_getTime toDate).
Local Abbreviation upsert' := (upsertAnalyticsSnapshot toDate).

Section KeepsService.

Variable R : World -> World -> Prop.
Variable P : string -> Prop.
Hypothesis R_refl : forall w, R w w.
Hypothesis R_trans : forall a b c, R a b -> R b c -> R a c.
Hypothesis R_tick : forall w,
  R w (mkWorld (users w) (tradeRows w) (analytics_summaries w) (queryRejects w)
               (clock w) (S (ticks w)) (console w)).
Hypothesis R_log : forall w msg,
  R w (mkWorld (users w) (tradeRows w) (analytics_summaries w) (queryRejects w)
               (clock w) (ticks w) (console w ++ [msg])).
Hypothesis R_upsert : forall w row,
  P (StoredAnalyticsSnapshot.userId row) ->
  R w (mkWorld (users w) (tradeRows w) (upsertRow row (analytics_summaries w))
               (queryRejects w) (clock w) (ticks w) (console w)).

Lemma keeps_Date_now : keeps R Date_now.
Proof. intros w. apply R_tick. Qed.

Lemma keeps_calculate (u : string) :
  keeps R (calculateAnalyticsSnapshot Date_getTime u).
Proof.
  unfold calculateAnalyticsSnapshot.
  apply keeps_bind; [assumption | now apply keeps_listTrades |].
  intros trades. apply keeps_bind; [assumption | apply keeps_Date_now |].
  intros g. now apply keeps_ret.
Qed.

Lemma keeps_upsert (u : string) (snap : AnalyticsSnapshot) :
  P u -> keeps R (upsert' u snap None None).
Proof.
  intros Hu w.
  set (w2 := mkWorld (users w) (tradeRows w) (analytics_summaries w)
                     (queryRejects w) (clock w) (S (S (ticks w))) (console w)).
  assert (H2 : R w w2).
  { apply (R_trans _ _ _ (R_tick w)). exact (R_tick _). }
  destruct (queryRejects w (UpsertSummary u DEFAULT_LABEL)) eqn:Hq.
  - rewrite (run_upsert_rejected toDate w u snap Hq). exact H2.
  - rewrite (run_upsert toDate w u snap Hq). cbn [snd].
    apply (R_trans _ _ _ H2). now apply (R_upsert w2).
Qed.

Lemma keeps_recompute {A} (u : string)
      (k : StoredAnalyticsSnapshot.t -> A) :
  P u ->
  keeps R (bind (calculateAnalyticsSnapshot Date_getTime u)
             (fun snapshot =>
                bind (upsert' u snapshot None None)
                     (fun stored => ret (k stored)))).
Proof.
  intros Hu.
  apply keeps_bind; [assumption | apply keeps_calculate |]. intros snap.
  apply keeps_bind; [assumption | now apply keeps_upsert |]. intros stored.
  now apply keeps_ret.
Qed.

Lemma keeps_forceRecalculate (u : string) : P u -> keeps R (forceRecalculate' u).
Proof. intros Hu. unfold forceRecalculate. now apply keeps_recompute. Qed.

Lemma keeps_recalculateForUser (u : string) :
  P u -> keeps R (recalculateAnalyticsForUser' u).
Proof.
  intros Hu. unfold recalculateAnalyticsForUser.
  apply keeps_bind; [assumption | apply keeps_calculate |]. intros snap.
  apply keeps_bind; [assumption | now apply keeps_upsert |]. intros stored.
  now apply keeps_ret.
Qed.

Lemma keeps_getSummary (u : string) : P u -> keeps R (getSummary' u).
Proof.
  intros Hu. unfold getSummary.
  apply keeps_bind; [assumption | now apply keeps_getLatest |]. intros existing.
  apply keeps_bind; [assumption | apply keeps_Date_now |]. intros now.
  destruct existing as [e|]; cbn [negb].
  - destruct (negb (now - StoredAnalyticsSnapshot.calculatedAt e >? ONE_DAY_MS)).
    + now apply keeps_ret.
    + now apply keeps_recompute.
  - now apply keeps_recompute.
Qed.

Lemma keeps_batch :
  (forall x, P x) ->
  keeps R (recalculateAnalyticsForAllUsers Date_getTime toDate).
Proof.
  intros Hall. unfold recalculateAnalyticsForAllUsers.
  apply keeps_bind; [assumption | now apply keeps_pool_query |]. intros result.
  apply keeps_for_of; [assumption | assumption |].
  intros x. apply keeps_recalculateForUser, Hall.
Qed.

Lemma keeps_cronCallback : (forall x, P x) -> keeps R cronCallback'.
Proof.
  intros Hall. unfold cronCallback.
  apply keeps_try_catch; [assumption | now apply keeps_batch |].
  intros e w. apply R_log.
Qed.

End KeepsService.

Lemma others_rowsOfUser (u v : string) (w w' : World) :
  sameRowsOfOthers u w w' -> v <> u -> rowsOfUser w' v = rowsOfUser w v.
Proof.
  intros Hsame Hv. unfold rowsOfUser.
  assert (Hsplit : forall rows,
    filter (fun r => String.eqb (StoredAnalyticsSnapshot.userId r) v
                     && String.eqb (StoredAnalyticsSnapshot.label r) DEFAULT_LABEL)
           rows
    = filter (fun r => String.eqb (StoredAnalyticsSnapshot.userId r) v
                       && String.eqb (StoredAnalyticsSnapshot.label r)
                                     DEFAULT_LABEL)
             (filter (fun r => negb (String.eqb (StoredAnalyticsSnapshot.userId r) u))
                     rows)).
  { intros rows. rewrite filter_and. apply filter_ext. intros r.
    destruct (String.eqb (StoredAnalyticsSnapshot.userId r) v) eqn:E;
      [|now rewrite andb_false_r].
    apply String.eqb_eq in E.
    assert (Hne : String.eqb (StoredAnalyticsSnapshot.userId r) u = false)
      by (apply String.eqb_neq; congruence).
    now rewrite Hne. }
  rewrite (Hsplit (analytics_summaries w')), (Hsplit (analytics_summaries w)).
  unfold sameRowsOfOthers in Hsame. now rewrite Hsame.
Qed.

(** X8.  A request of user u, whether it is served from the store, recomputes
    or fails on the way, leaves the stored rows of every other user as they
    were, in the same order: the rows of another user v found after
    getSummary, forceRecalculate or the batch's recalculateAnalyticsForUser
    for u are those found before. *)
Theorem requests_leave_other_users_rows (u : string) (w : World) :
  sameRowsOfOthers u w (snd (getSummary' u w)) /\
  sameRowsOfOthers u w (snd (forceRecalculate' u w)) /\
  sameRowsOfOthers u w (snd (recalculateAnalyticsForUser' u w)) /\
  (forall v, v <> u ->
     rowsOfUser (snd (getSummary' u w)) v = rowsOfUser w v /\
     rowsOfUser (snd (forceRecalculate' u w)) v = rowsOfUser w v /\
     rowsOfUser (snd (recalculateAnalyticsForUser' u w)) v = rowsOfUser w v).
Proof.
  assert (Hup : forall w0 row,
            StoredAnalyticsSnapshot.userId row = u ->
            sameRowsOfOthers u w0
              (mkWorld (users w0) (tradeRows w0)
                       (upsertRow row (analytics_summaries w0))
                       (queryRejects w0) (clock w0) (ticks w0) (console w0))).
  { intros w0 row Hrow. unfold sameRowsOfOthers. cbn [analytics_summaries].
    now apply upsertRow_others. }
  assert (Htick : forall w0,
            sameRowsOfOthers u w0
              (mkWorld (users w0) (tradeRows w0) (analytics_summaries w0)
                       (queryRejects w0) (clock w0) (S (ticks w0)) (console w0)))
    by (intros w0; reflexivity).
  assert (H1 : sameRowsOfOthers u w (snd (getSummary' u w)))
    by exact (keeps_getSummary (sameRowsOfOthers u) (fun x => x = u)
                (sameRowsOfOthers_refl u) (sameRowsOfOthers_trans u)
                Htick Hup u eq_refl w).
  assert (H2 : sameRowsOfOthers u w (snd (forceRecalculate' u w)))
    by exact (keeps_forceRecalculate (sameRowsOfOthers u) (fun x => x = u)
                (sameRowsOfOthers_refl u) (sameRowsOfOthers_trans u)
                Htick Hup u eq_refl w).
  assert (H3 : sameRowsOfOthers u w (snd (recalculateAnalyticsForUser' u w)))
    by exact (keeps_recalculateForUser (sameRowsOfOthers u) (fun x => x = u)
                (sameRowsOfOthers_refl u) (sameRowsOfOthers_trans u)
                Htick Hup u eq_refl w).
  split; [exact H1|]. split; [exact H2|]. split; [exact H3|].
  intros v Hv. repeat split; now apply (others_rowsOfUser u).
Qed.

(** X9.  The cron callback never throws: whatever queries are rejected it
    ends normally, it leaves users, trades and clock as they are, and it
    writes at most one line to the console. *)
Theorem cronCallback_never_throws (w : World) :
  fst (cronCallback' w) = Ok tt /\
  sameRepository w (snd (cronCallback' w)) /\
  (console (snd (cronCallback' w)) = console w \/
   console (snd (cronCallback' w)) = console w ++ ["Analytics cron failed"]).
Proof.
  split; [|split].
  - unfold cronCallback, try_catch.
    destruct (recalculateAnalyticsForAllUsers Date_getTime toDate w)
      as [[[]|e] w']; reflexivity.
  - exact (keeps_cronCallback sameRepository (fun _ => True)
             sameRepository_refl sameRepository_trans
             (fun w0 => sameRepository_refl w0)
             (fun w0 msg => sameRepository_refl w0)
             (fun w0 row _ => sameRepository_refl w0)
             (fun _ => I) w).
  - assert (Hb : console (snd (recalculateAnalyticsForAllUsers
                                 Date_getTime toDate w)) = console w).
    { exact (keeps_batch (fun a b => console b = console a) (fun _ => True)
               (fun w0 => eq_refl)
               (fun a b c (H1 : console b = console a)
                    (H2 : console c = console b) => eq_trans H2 H1)
               (fun w0 => eq_refl)
               (fun w0 row _ => eq_refl)
               (fun _ => I) w). }
    unfold cronCallback, try_catch.
    destruct (recalculateAnalyticsForAllUsers Date_getTime toDate w)
      as [[[]|e] w']; cbn [snd] in *.
    + now left.
    + right. unfold console_error. cbn [snd console]. now rewrite Hb.
Qed.

(** X10.  When no query of the batch is rejected, the cron callback ends
    normally without writing to the console and leaves in the store a
    recomputed row for every user. *)
Theorem batch_recomputes_every_user (w : World) :
  queryRejects w SelectUsers = false ->
  (forall u, In u (users w) ->
     queryRejects w (SelectTrades u) = false /\
     queryRejects w (UpsertSummary u DEFAULT_LABEL) = false) ->
  fst (cronCallback' w) = Ok tt /\
  console (snd (cronCallback' w)) = console w /\
  (forall u, In u (users w) ->
     exists r, In r (analytics_summaries (snd (cronCallback' w))) /\
               recomputedRow Date_getTime w u r).
Proof.
  intros Hq Hok.
  destruct (for_of_completes Date_getTime toDate (users w) w w eq_refl Hok)
    as (w1 & Hrun & _ & _ & _ & Hc & Hnew & _).
  assert (Hbatch : recalculateAnalyticsForAllUsers Date_getTime toDate w
                   = (Ok tt, w1)).
  { unfold recalculateAnalyticsForAllUsers, bind, pool_query. now rewrite Hq. }
  unfold cronCallback, try_catch. rewrite Hbatch. cbn [fst snd].
  split; [reflexivity|]. split; [exact Hc | exact Hnew].
Qed.

(** X11.  What the upsert writes is what the lookup of the latest snapshot
    reads back: on a store with unique keys that holds no row of the user
    dated after today, upsertAnalyticsSnapshot followed by
    getLatestAnalyticsSnapshot returns the row just stored, with the snapshot
    given. *)
Theorem upsert_then_getLatest (w : World) (userId : string)
        (snap : AnalyticsSnapshot) :
  queryRejects w (UpsertSummary userId DEFAULT_LABEL) = false ->
  queryRejects w (SelectLatestSummary userId DEFAULT_LABEL) = false ->
  NoDup (map keyOf (analytics_summaries w)) ->
  (forall r, In r (rowsOfUser w userId) ->
     StoredAnalyticsSnapshot.reportDate r <= toDate (clock w (ticks w))) ->
  exists stored w1,
    upsert' userId snap None None w = (Ok stored, w1) /\
    StoredAnalyticsSnapshot.snapshot stored = snap /\
    getLatestAnalyticsSnapshot userId None w1 = (Ok (Some stored), w1).
Proof.
  intros Hu Hq Hnd Hdates.
  rewrite (run_upsert toDate w userId snap Hu).
  do 2 eexists. split; [reflexivity|]. split; [reflexivity|].
  rewrite run_getLatest by exact Hq. cbn [analytics_summaries].
  f_equal. f_equal.
  apply (latestRow_after_upsert
           (StoredAnalyticsSnapshot.mk userId DEFAULT_LABEL
              (toDate (clock w (ticks w))) (clock w (S (ticks w))) snap));
    [reflexivity | exact Hnd |].
  cbn [StoredAnalyticsSnapshot.userId StoredAnalyticsSnapshot.reportDate].
  intros r Hin Hru Hrl. apply Hdates. unfold rowsOfUser.
  apply filter_In. split; [exact Hin|].
  now rewrite Hru, Hrl, !String.eqb_refl.
Qed.

(** X12.  On a store with unique keys that holds no row of the user dated
    after the day of the recomputation, and with the queries accepted, a
    forced recomputation followed by getSummary of the same user, made within
    24 hours of the recomputation, is served from the store: getSummary
    returns the snapshot, report date and calculation time of the
    recomputation with refreshed = false and writes nothing.  (A row of the
    user dated later would be the latest one, and the summary would be taken
    from it.) *)
Theorem recalculate_then_summary_is_cached (w : World) (userId : string) :
  queryRejects w (SelectTrades userId) = false ->
  queryRejects w (UpsertSummary userId DEFAULT_LABEL) = false ->
  queryRejects w (SelectLatestSummary userId DEFAULT_LABEL) = false ->
  NoDup (map keyOf (analytics_summaries w)) ->
  (forall r, In r (rowsOfUser w userId) ->
     StoredAnalyticsSnapshot.reportDate r <= toDate (clock w (1 + ticks w)%nat)) ->
  clock w (3 + ticks w)%nat - clock w (2 + ticks w)%nat <= ONE_DAY_MS ->
  exists r1 w1 r2 w2,
    forceRecalculate' userId w = (Ok r1, w1) /\
    getSummary' userId w1 = (Ok r2, w2) /\
    Response.data r2 = Response.data r1 /\
    Response.reportDate r2 = Response.reportDate r1 /\
    Response.calculatedAt r2 = Response.calculatedAt r1 /\
    Response.refreshed r1 = true /\
    Response.refreshed r2 = false /\
    analytics_summaries w2 = analytics_summaries w1.
Proof.
  intros Ht Hu Hq Hnd Hdates Hage.
  rewrite (run_forceRecalculate Date_getTime toDate w userId Ht Hu).
  set (row := StoredAnalyticsSnapshot.mk userId DEFAULT_LABEL
                (toDate (clock w (1 + ticks w)%nat)) (clock w (2 + ticks w)%nat)
                (snapshotOf' (tradeRows w userId) (clock w (ticks w)))).
  set (w1 := mkWorld (users w) (tradeRows w)
                     (upsertRow row (analytics_summaries w)) (queryRejects w)
                     (clock w) (3 + ticks w)%nat (console w)).
  assert (Hlatest :
    latestRow
      (filter (fun r => String.eqb (StoredAnalyticsSnapshot.userId r) userId
                        && String.eqb (StoredAnalyticsSnapshot.label r)
                                      DEFAULT_LABEL)
              (analytics_summaries w1)) = Some row).
  { cbn [w1 analytics_summaries].
    apply (latestRow_after_upsert row); [reflexivity | exact Hnd |].
    cbn [row StoredAnalyticsSnapshot.userId StoredAnalyticsSnapshot.reportDate].
    intros r Hin Hru Hrl. apply Hdates. unfold rowsOfUser.
    apply filter_In. split; [exact Hin|].
    now rewrite Hru, Hrl, !String.eqb_refl. }
  pose proof (getSummary_cached Date_getTime toDate w1 userId row Hq Hlatest Hage)
    as Hrun.
  do 4 eexists. split; [reflexivity|]. split; [exact Hrun|].
  repeat split.
Qed.

(** X13.  A rejected query is not recovered by the service.  When the lookup
    of the latest snapshot is rejected, getSummary throws and nothing else
    happens; when reading the trades or the upsert is rejected,
    forceRecalculate, and getSummary on a missing or stale snapshot, throw and
    leave the store as it was. *)
Theorem rejected_queries_propagate (w : World) (userId : string) :
  (queryRejects w (SelectLatestSummary userId DEFAULT_LABEL) = true ->
   getSummary' userId w = (Throw "query failed", w)) /\
  (queryRejects w (SelectTrades userId) = true \/
   queryRejects w (UpsertSummary userId DEFAULT_LABEL) = true ->
   (exists w',
      forceRecalculate' userId w = (Throw "query failed", w') /\
      analytics_summaries w' = analytics_summaries w /\
      console w' = console w) /\
   (queryRejects w (SelectLatestSummary userId DEFAULT_LABEL) = false ->
    latestRow (rowsOfUser w userId) = None \/
    (exists e, latestRow (rowsOfUser w userId) = Some e /\
               ONE_DAY_MS
               < clock w (ticks w) - StoredAnalyticsSnapshot.calculatedAt e) ->
    exists w',
      getSummary' userId w = (Throw "query failed", w') /\
      analytics_summaries w' = analytics_summaries w /\
      console w' = console w)).
Proof.
  split.
  - intros Hq. unfold getSummary, getLatestAnalyticsSnapshot, bind, pool_query.
    cbn [nullish]. now rewrite Hq.
  - intros Hrej.
    assert (Hrecompute : forall (A : Type) (k : StoredAnalyticsSnapshot.t -> A) w0,
      queryRejects w0 = queryRejects w ->
      exists w',
        bind (calculateAnalyticsSnapshot Date_getTime userId)
             (fun snapshot =>
                bind (upsert' userId snapshot None None)
                     (fun stored => ret (k stored))) w0
        = (Throw "query failed", w') /\
        analytics_summaries w' = analytics_summaries w0 /\
        console w' = console w0).
    { intros A k w0 Hsame. unfold bind at 1.
      destruct (queryRejects w (SelectTrades userId)) eqn:Ht.
      - rewrite run_calculate_rejected by (rewrite Hsame; exact Ht).
        exists w0. repeat split.
      - destruct Hrej as [Hrej|Hup]; [discriminate|].
        rewrite run_calculate by (rewrite Hsame; exact Ht).
        unfold bind. rewrite run_upsert_rejected by (cbn; rewrite Hsame; exact Hup).
        eexists. repeat split. }
    split.
    + unfold forceRecalculate. apply Hrecompute. reflexivity.
    + intros Hq Hstale.
      unfold getSummary. unfold bind at 1.
      rewrite (run_getLatest w userId Hq).
      unfold bind at 1. unfold Date_now at 1. cbn beta iota.
      fold (rowsOfUser w userId).
      set (w0 := mkWorld (users w) (tradeRows w) (analytics_summaries w)
                         (queryRejects w) (clock w) (S (ticks w)) (console w)).
      destruct (Hrecompute Response.t
                  (fun stored =>
                     Response.mk 200 (StoredAnalyticsSnapshot.snapshot stored)
                       (StoredAnalyticsSnapshot.reportDate stored)
                       (StoredAnalyticsSnapshot.calculatedAt stored) true)
                  w0 eq_refl) as (w' & Hrun & Hs & Hc).
      exists w'. split; [|split; [exact Hs | exact Hc]].
      destruct Hstale as [Hnone|(e & He & Hage)].
      * rewrite Hnone. cbn [negb]. exact Hrun.
      * rewrite He.
        assert (Hf : (clock w (ticks w) - StoredAnalyticsSnapshot.calculatedAt e
                      >? ONE_DAY_MS) = true)
          by (rewrite Z.gtb_ltb; apply Z.ltb_lt; exact Hage).
        rewrite Hf. cbn [negb]. exact Hrun.
Qed.

End ServiceMore.

Lemma batch_recomputes_every_user_witness :
  queryRejects sampleWorld SelectUsers = false /\
  fst (cronCallback isoDateMs utcDay sampleWorld) = Ok tt /\
  exists r, In r (analytics_summaries (snd (cronCallback isoDateMs utcDay sampleWorld)))
            /\ recomputedRow isoDateMs sampleWorld "c" r.
Proof.
  split; [reflexivity|].
  destruct (batch_recomputes_every_user isoDateMs utcDay sampleWorld eq_refl)
    as (Hok & _ & Hall).
  - intros u _. split; reflexivity.
  - split; [exact Hok|]. apply Hall. right. right. left. reflexivity.
Defined.

Lemma upsert_then_getLatest_witness :
  NoDup (map keyOf (analytics_summaries boundaryWorld)) /\
  exists stored w1,
    upsertAnalyticsSnapshot utcDay "a"
      (snapshotOf isoDateMs (sampleTrades "a") 0) None None boundaryWorld
    = (Ok stored, w1) /\
    getLatestAnalyticsSnapshot "a" None w1 = (Ok (Some stored), w1).
Proof.
  assert (Hnd : NoDup (map keyOf (analytics_summaries boundaryWorld)))
    by (repeat constructor; intros []).
  split; [exact Hnd|].
  destruct (upsert_then_getLatest utcDay boundaryWorld "a"
              (snapshotOf isoDateMs (sampleTrades "a") 0) eq_refl eq_refl Hnd)
    as (stored & w1 & H1 & _ & H2).
  - intros r [<-|[]]. vm_compute. discriminate.
  - exists stored, w1. split; assumption.
Defined.

Lemma recalculate_then_summary_is_cached_witness :
  clock sampleWorld 3 - clock sampleWorld 2 <= ONE_DAY_MS /\
  exists r1 w1 r2 w2,
    forceRecalculate isoDateMs utcDay "a" sampleWorld = (Ok r1, w1) /\
    getSummary isoDateMs utcDay "a" w1 = (Ok r2, w2) /\
    Response.data r2 = Response.data r1 /\
    Response.refreshed r2 = false.
Proof.
  split; [vm_compute; discriminate|].
  destruct (recalculate_then_summary_is_cached isoDateMs utcDay sampleWorld "a"
              eq_refl eq_refl eq_refl)
    as (r1 & w1 & r2 & w2 & H1 & H2 & Hd & _ & _ & _ & Hr & _).
  - constructor.
  - intros r [].
  - vm_compute. discriminate.
  - exists r1, w1, r2, w2. repeat split; assumption.
Defined.

(* ================================================================== *)
(** * Authentication in front of the analytics routes *)

Lemma substring_all (s : string) : String.substring 0 (String.length s) s = s.
Proof. induction s as [|c s IH]; [reflexivity|]. simpl. now rewrite IH. Qed.

(** The token of a header made of "Bearer " and a token is that token. *)
Lemma bearer_token (token : string) :
  String.prefix "Bearer " ("Bearer " ++ token) = true /\
  String.substring (String.length "Bearer ")
                   (String.length ("Bearer " ++ token) - String.length "Bearer ")
                   ("Bearer " ++ token) = token.
Proof.
  split.
  - induction "Bearer " as [|c s IH]; [now destruct token|].
    cbn [append String.prefix]. destruct (ascii_dec c c); [exact IH | congruence].
  - cbn [String.length append Nat.sub String.substring].
    rewrite Nat.sub_0_r. apply substring_all.
Qed.

Lemma filter_nil_iff {A} (f : A -> bool) (l : list A) :
  filter f l = [] <-> (forall x, In x l -> f x = false).
Proof.
  induction l as [|x l IH]; simpl.
  - split; [intros _ y [] | reflexivity].
  - destruct (f x) eqn:E.
    + split; [discriminate|]. intros H. specialize (H x (or_introl eq_refl)).
      congruence.
    + rewrite IH. split.
      * intros H y [<-|Hy]; [exact E | now apply H].
      * intros H y Hy. apply H. now right.
Qed.

Lemma filter_all {A} (f : A -> bool) (l : list A) :
  (forall x, In x l -> f x = true) -> filter f l = l.
Proof.
  induction l as [|x l IH]; intros H; [reflexivity|]. simpl.
  rewrite (H x (or_introl eq_refl)), IH; [reflexivity|].
  intros y Hy. apply H. now right.
Qed.

Lemma filter_eqb_In (id : string) (l : list string) :
  In id l -> exists rest, filter (String.eqb id) l = id :: rest.
Proof.
  induction l as [|x l IH]; intros Hin; [destruct Hin|]. cbn [filter].
  destruct (String.eqb id x) eqn:E.
  - apply String.eqb_eq in E. subst x. eexists. reflexivity.
  - destruct Hin as [->|Hin]; [now rewrite String.eqb_refl in E|].
    now apply IH.
Qed.

Lemma filter_eqb_not_In (id : string) (l : list string) :
  ~ In id l -> filter (String.eqb id) l = [].
Proof.
  intros Hn. apply filter_nil_iff. intros x Hx. apply String.eqb_neq.
  intros ->. now apply Hn.
Qed.

Section RoutesFacts.

Variable Date_getTime : string -> option Z.
Variable toDate : Z -> Z.
Variable verifyToken : string -> outcome TokenPayload.t.
Variable accountLookupRejects : string -> bool.
Variable emailOf : string -> string.

Local Abbreviation requireAuth' :=
  (requireAuth verifyToken accountLookupRejects emailOf).
Local Abbreviation summaryRoute' :=
  (summaryRoute Date_getTime toDate verifyToken accountLookupRejects emailOf).
Local Abbreviation recalculateRoute' :=
  (recalculateRoute Date_getTime toDate verifyToken accountLookupRejects emailOf).

(** What requireAuth does with a header made of "Bearer " and a token. *)
Lemma run_requireAuth_bearer (token : string) (w : World) :
  requireAuth' (Some ("Bearer " ++ token)%string) w
  = match verifyToken token with
    | Throw _ =>
        (Ok (AuthRejected 401 "Invalid or expired token"),
         snd (console_error "Token verification failed:" w))
    | Ok payload =>
        if accountLookupRejects (TokenPayload.sub payload)
        then (Ok (AuthRejected 500 "Unable to verify account"),
              snd (console_error "Authentication lookup failed:" w))
        else match filter (String.eqb (TokenPayload.sub payload)) (users w) with
             | [] => (Ok (AuthRejected 401 "Account no longer exists"), w)
             | u :: _ => (Ok (AuthNext (AuthUser.mk u (emailOf u))), w)
             end
    end.
Proof.
  unfold requireAuth. destruct (bearer_token token) as [Hp Hs].
  assert (Hne : String.eqb ("Bearer " ++ token) "" = false) by reflexivity.
  rewrite Hne, Hp, Hs. cbn [orb negb].
  destruct (verifyToken token) as [payload|e]; [|reflexivity].
  unfold try_catch, bind, selectAccount.
  destruct (accountLookupRejects (TokenPayload.sub payload)); [reflexivity|].
  destruct (filter (String.eqb (TokenPayload.sub payload)) (users w));
    reflexivity.
Qed.

(** X14.  A request that fails authentication never reaches a handler.  When
    the Authorization header is missing or does not start with "Bearer ",
    when the token does not verify, when the account of the token is not in
    the table of users, or when the lookup of the account is rejected, both
    analytics routes answer with a status and a message, 500 exactly when
    the lookup was rejected and 401 otherwise, and nothing but the console
    has changed: users, trades and stored snapshots are as they were and the
    clock has not been read. *)
Theorem failed_authentication_stops_the_request (authorization : option string)
        (w : World) :
  (authorization = None \/
   (exists header, authorization = Some header /\
                   String.prefix "Bearer " header = false) \/
   (exists (token e : string),
       authorization = Some ("Bearer " ++ token)%string /\
       verifyToken token = Throw e) \/
   (exists token payload,
       authorization = Some ("Bearer " ++ token)%string /\
       verifyToken token = Ok payload /\
       (accountLookupRejects (TokenPayload.sub payload) = true \/
        ~ In (TokenPayload.sub payload) (users w)))) ->
  exists statusCode message w',
    summaryRoute' authorization w = (Ok (JsonMessage statusCode message), w') /\
    recalculateRoute' authorization w
    = (Ok (JsonMessage statusCode message), w') /\
    sameButConsole w w' /\
    (statusCode = 500 /\
     (exists token payload,
         authorization = Some ("Bearer " ++ token)%string /\
         verifyToken token = Ok payload /\
         accountLookupRejects (TokenPayload.sub payload) = true)
     \/
     statusCode = 401 /\
     ~ (exists token payload,
           authorization = Some ("Bearer " ++ token)%string /\
           verifyToken token = Ok payload /\
           accountLookupRejects (TokenPayload.sub payload) = true)).
Proof.
  intros Hbad.
  assert (Hsame : forall msg, sameButConsole w (snd (console_error msg w)))
    by (intros msg; now repeat split).
  assert (Hrefl : sameButConsole w w) by now repeat split.
  assert (Hrej : exists statusCode message w',
             requireAuth' authorization w
             = (Ok (AuthRejected statusCode message), w') /\
             sameButConsole w w' /\
             (statusCode = 500 /\
              (exists token payload,
                  authorization = Some ("Bearer " ++ token)%string /\
                  verifyToken token = Ok payload /\
                  accountLookupRejects (TokenPayload.sub payload) = true)
              \/
              statusCode = 401 /\
              ~ (exists token payload,
                    authorization = Some ("Bearer " ++ token)%string /\
                    verifyToken token = Ok payload /\
                    accountLookupRejects (TokenPayload.sub payload) = true))).
  { destruct Hbad as [->|[(header & -> & Hp)|[(token & e & -> & Hv)
                     |(token & payload & -> & Hv & Hacc)]]].
    - exists 401, "Authorization header missing"%string, w.
      split; [reflexivity|]. split; [exact Hrefl|]. right.
      split; [reflexivity|]. intros (t & p & H & _). discriminate.
    - exists 401, "Authorization header missing"%string, w.
      split; [unfold requireAuth; now rewrite Hp, orb_true_r|].
      split; [exact Hrefl|]. right. split; [reflexivity|].
      intros (t & p & H & _). injection H as H. subst header.
      pose proof (proj1 (bearer_token t)) as Hp'.
      cbn [append] in Hp, Hp'. congruence.
    - exists 401, "Invalid or expired token"%string.
      eexists. rewrite run_requireAuth_bearer, Hv.
      split; [reflexivity|]. split; [apply Hsame|]. right.
      split; [reflexivity|]. intros (t & p & H & Hv' & _).
      injection H as H. subst t. congruence.
    - destruct (accountLookupRejects (TokenPayload.sub payload)) eqn:Hr.
      + exists 500, "Unable to verify account"%string.
        eexists. rewrite run_requireAuth_bearer, Hv, Hr.
        split; [reflexivity|]. split; [apply Hsame|]. left.
        split; [reflexivity|]. now exists token, payload.
      + destruct Hacc as [Hacc|Hacc]; [discriminate|].
        exists 401, "Account no longer exists"%string, w.
        rewrite run_requireAuth_bearer, Hv, Hr, (filter_eqb_not_In _ _ Hacc).
        split; [reflexivity|]. split; [exact Hrefl|]. right.
        split; [reflexivity|]. intros (t & p & H & Hv' & Hr').
        injection H as H. subst t.
        rewrite Hv in Hv'. injection Hv' as <-. congruence. }
  destruct Hrej as (statusCode & message & w' & Hrej & Hw & Hstatus).
  exists statusCode, message, w'.
  unfold summaryRoute, recalculateRoute, bind. rewrite Hrej.
  split; [reflexivity|]. split; [reflexivity|]. split; assumption.
Qed.

(** X15.  A request with the header "Bearer " followed by a token that
    verifies, for an account that is in the table of users and whose lookup
    is accepted, is served for the subject of the token: the summary route
    is getSummary, and the recalculate route forceRecalculate, of that user,
    so the rows of every other user stay as they were. *)
Theorem authenticated_requests_act_for_the_subject
        (token : string) (payload : TokenPayload.t) (w : World) :
  verifyToken token = Ok payload ->
  accountLookupRejects (TokenPayload.sub payload) = false ->
  In (TokenPayload.sub payload) (users w) ->
  requireAuth' (Some ("Bearer " ++ token)%string) w
  = (Ok (AuthNext (AuthUser.mk (TokenPayload.sub payload)
                               (emailOf (TokenPayload.sub payload)))), w) /\
  summaryRoute' (Some ("Bearer " ++ token)%string) w
  = (match fst (getSummary Date_getTime toDate (TokenPayload.sub payload) w) with
     | Ok body => Ok (JsonBody body)
     | Throw e => Throw e
     end,
     snd (getSummary Date_getTime toDate (TokenPayload.sub payload) w)) /\
  recalculateRoute' (Some ("Bearer " ++ token)%string) w
  = (match fst (forceRecalculate Date_getTime toDate (TokenPayload.sub payload) w)
     with
     | Ok body => Ok (JsonBody body)
     | Throw e => Throw e
     end,
     snd (forceRecalculate Date_getTime toDate (TokenPayload.sub payload) w)) /\
  sameRowsOfOthers (TokenPayload.sub payload) w
    (snd (summaryRoute' (Some ("Bearer " ++ token)%string) w)) /\
  sameRowsOfOthers (TokenPayload.sub payload) w
    (snd (recalculateRoute' (Some ("Bearer " ++ token)%string) w)).
Proof.
  intros Hv Hacc Hin.
  assert (Hauth : requireAuth' (Some ("Bearer " ++ token)%string) w
                  = (Ok (AuthNext (AuthUser.mk (TokenPayload.sub payload)
                                     (emailOf (TokenPayload.sub payload)))), w)).
  { rewrite run_requireAuth_bearer, Hv, Hacc.
    destruct (filter_eqb_In _ _ Hin) as (rest & ->). reflexivity. }
  assert (Hsum : summaryRoute' (Some ("Bearer " ++ token)%string) w
    = (match fst (getSummary Date_getTime toDate (TokenPayload.sub payload) w) with
       | Ok body => Ok (JsonBody body)
       | Throw e => Throw e
       end,
       snd (getSummary Date_getTime toDate (TokenPayload.sub payload) w))).
  { unfold summaryRoute. unfold bind at 1. rewrite Hauth. cbn [AuthUser.id].
    unfold bind.
    destruct (getSummary Date_getTime toDate (TokenPayload.sub payload) w)
      as [[body|e] w']; reflexivity. }
  assert (Hrec : recalculateRoute' (Some ("Bearer " ++ token)%string) w
    = (match fst (forceRecalculate Date_getTime toDate
                    (TokenPayload.sub payload) w) with
       | Ok body => Ok (JsonBody body)
       | Throw e => Throw e
       end,
       snd (forceRecalculate Date_getTime toDate (TokenPayload.sub payload) w))).
  { unfold recalculateRoute. unfold bind at 1. rewrite Hauth.
    cbn [AuthUser.id]. unfold bind.
    destruct (forceRecalculate Date_getTime toDate (TokenPayload.sub payload) w)
      as [[body|e] w']; reflexivity. }
  split; [exact Hauth|]. split; [exact Hsum|]. split; [exact Hrec|].
  rewrite Hsum, Hrec. cbn [snd].
  (* the handlers write rows of their own user only *)
  assert (Hup : forall w0 row,
            StoredAnalyticsSnapshot.userId row = TokenPayload.sub payload ->
            sameRowsOfOthers (TokenPayload.sub payload) w0
              (mkWorld (users w0) (tradeRows w0)
                       (upsertRow row (analytics_summaries w0))
                       (queryRejects w0) (clock w0) (ticks w0) (console w0))).
  { intros w0 row Hrow. unfold sameRowsOfOthers. cbn [analytics_summaries].
    now apply upsertRow_others. }
  split.
  - exact (keeps_getSummary Date_getTime toDate
             (sameRowsOfOthers (TokenPayload.sub payload))
             (fun x => x = TokenPayload.sub payload)
             (sameRowsOfOthers_refl _) (sameRowsOfOthers_trans _)
             (fun w0 => eq_refl) Hup _ eq_refl w).
  - exact (keeps_forceRecalculate Date_getTime toDate
             (sameRowsOfOthers (TokenPayload.sub payload))
             (fun x => x = TokenPayload.sub payload)
             (sameRowsOfOthers_refl _) (sameRowsOfOthers_trans _)
             (fun w0 => eq_refl) Hup _ eq_refl w).
Qed.

End RoutesFacts.

(* ================================================================== *)
(** * The trade repository *)

Section RepositoryFacts.

Variable Date_getTime : string -> option Z.
Variable toDate : Z -> Z.
Variable to_char : Z -> string.
Variable toISOString : Z -> string.
Variable numeric2 : Q -> Q.
Variable numeric4 : Q -> Q.

Local Abbreviation findTrade' := (TradeRepo.findTrade to_char toISOString).
Local Abbreviation listTrades' := (TradeRepo.listTrades to_char toISOString).
Local Abbreviation createTrade' :=
  (TradeRepo.createTrade toDate to_char toISOString numeric2 numeric4).
Local Abbreviation updateTrade' :=
  (TradeRepo.updateTrade Date_getTime toDate to_char toISOString numeric2 numeric4).
Local Abbreviation recordOfRow' := (TradeRepo.recordOfRow to_char toISOString).

(** A trade is out of a user's reach when no row has both the id and the
    user. *)
Lemma not_owned (userId tradeId : string) (ts : list TradeRow) :
  (forall t, In t ts -> t_id t = tradeId -> t_user_id t <> userId) ->
  filter (TradeRepo.ownedBy userId tradeId) ts = [].
Proof.
  intros H. apply filter_nil_iff. intros t Ht. unfold TradeRepo.ownedBy.
  destruct (String.eqb (t_id t) tradeId) eqn:Ei; [|apply andb_false_r].
  apply String.eqb_eq in Ei.
  assert (Hu : String.eqb (t_user_id t) userId = false)
    by (apply String.eqb_neq; now apply H).
  now rewrite Hu.
Qed.

(** The database once BEGIN has been executed. *)
Local Abbreviation begun db :=
  (mkDb (db_trades db) (db_legs db)
        (Some (db_clock db (db_ticks db), (db_trades db, db_legs db)))
        (db_rejects db) (db_uuids db) (db_uuidCount db) (db_clock db)
        (S (db_ticks db))).

Lemma run_sqlBegin (db : Db) : sqlBegin db = (Ok tt, begun db).
Proof. reflexivity. Qed.

Lemma run_findTrade (db : Db) (userId tradeId : string) :
  db_rejects db (SelectTrade userId tradeId) = false ->
  findTrade' userId tradeId db
  = (Ok match filter (TradeRepo.ownedBy userId tradeId) (db_trades db) with
        | [] => None
        | t :: _ => Some (recordOfRow' (db_legs db) t)
        end, db).
Proof.
  intros Hsel. unfold TradeRepo.findTrade, tbind, accept. now rewrite Hsel.
Qed.

Lemma run_findTrade_rejected (db : Db) (userId tradeId : string) :
  db_rejects db (SelectTrade userId tradeId) = true ->
  findTrade' userId tradeId db = (Throw "query failed", db).
Proof.
  intros Hsel. unfold TradeRepo.findTrade, tbind, accept. now rewrite Hsel.
Qed.

(** An update of a trade that is not found rolls back and answers null. *)
Lemma run_updateTrade_missing (db : Db) (userId tradeId : string)
      (payload : TradePatch) :
  filter (TradeRepo.ownedBy userId tradeId) (db_trades db) = [] ->
  db_rejects db (SelectTrade userId tradeId) = false ->
  updateTrade' userId tradeId payload db
  = (Ok None,
     mkDb (db_trades db) (db_legs db) None (db_rejects db) (db_uuids db)
          (db_uuidCount db) (db_clock db) (S (db_ticks db))).
Proof.
  intros Hnone Hsel.
  unfold TradeRepo.updateTrade, ttry. unfold tbind at 1.
  rewrite run_sqlBegin. unfold tbind at 1.
  unfold TradeRepo.findTradeWithClient.
  rewrite run_findTrade by exact Hsel.
  cbn [db_trades]. rewrite Hnone. reflexivity.
Qed.

(** X16.  A user cannot read, change or delete a trade that is not theirs:
    for a trade id that no row of the user carries, and with the statements
    accepted, findTrade answers null, updateTrade answers null and
    removeTrade answers false, and both tables are left as they were. *)
Theorem foreign_trades_are_out_of_reach (db : Db) (userId tradeId : string)
        (payload : TradePatch) :
  (forall t, In t (db_trades db) -> t_id t = tradeId -> t_user_id t <> userId) ->
  db_rejects db (SelectTrade userId tradeId) = false ->
  db_rejects db (DeleteTrade tradeId userId) = false ->
  fst (findTrade' userId tradeId db) = Ok None /\
  fst (updateTrade' userId tradeId payload db) = Ok None /\
  db_trades (snd (updateTrade' userId tradeId payload db)) = db_trades db /\
  db_legs (snd (updateTrade' userId tradeId payload db)) = db_legs db /\
  fst (TradeRepo.removeTrade userId tradeId db) = Ok false /\
  db_trades (snd (TradeRepo.removeTrade userId tradeId db)) = db_trades db /\
  db_legs (snd (TradeRepo.removeTrade userId tradeId db)) = db_legs db.
Proof.
  intros Hforeign Hsel Hdel.
  pose proof (not_owned userId tradeId (db_trades db) Hforeign) as Hnone.
  rewrite (run_findTrade db userId tradeId Hsel), Hnone.
  rewrite (run_updateTrade_missing db userId tradeId payload Hnone Hsel).
  split; [reflexivity|]. split; [reflexivity|]. split; [reflexivity|].
  split; [reflexivity|].
  unfold TradeRepo.removeTrade, tbind, accept, withTables. rewrite Hdel, Hnone.
  cbn [fst snd db_trades db_legs existsb negb List.length].
  split; [reflexivity|]. split.
  - apply filter_all. intros t Ht.
    apply negb_true_iff. now apply (proj1 (filter_nil_iff _ _) Hnone).
  - apply filter_all. reflexivity.
Qed.

Lemma fresh_trade_id (tradeId : string) (ts : list TradeRow) (userId : string) :
  (forall t, In t ts -> t_id t <> tradeId) ->
  filter (TradeRepo.ownedBy userId tradeId) ts = [].
Proof.
  intros H. apply not_owned. intros t Ht Hid. now apply H in Ht.
Qed.

Lemma fresh_legs (tradeId : string) (ls : list LegRow) :
  (forall l, In l ls -> l_trade_id l <> tradeId) ->
  filter (fun l => String.eqb (l_trade_id l) tradeId) ls = [].
Proof.
  intros H. apply filter_nil_iff. intros l Hl.
  apply String.eqb_neq. now apply H.
Qed.

(** The run of createTrade when its statements are accepted and the new id
    is not in use. *)
Lemma run_createTrade (db : Db) (userId : string) (payload : TradeInput) :
  db_rejects db (InsertTrade userId) = false ->
  db_rejects db (InsertLeg (db_uuids db (db_uuidCount db))) = false ->
  db_rejects db (SelectTrade userId (db_uuids db (db_uuidCount db))) = false ->
  (forall t, In t (db_trades db) -> t_id t <> db_uuids db (db_uuidCount db)) ->
  (forall l, In l (db_legs db) -> l_trade_id l <> db_uuids db (db_uuidCount db)) ->
  let tradeId := db_uuids db (db_uuidCount db) in
  let started := db_clock db (db_ticks db) in
  let opened := nullish (in_openedAt payload) (db_clock db (S (db_ticks db))) in
  let row :=
    mkTradeRow tradeId userId (in_symbol payload) (in_strategy payload)
      (nullish (in_status payload) status_open) (toDate opened)
      (option_map toDate (in_closedAt payload))
      (option_map numeric2
         (TradeRepo.netOf credit (in_side payload) (in_entryPrice payload)
                          (in_quantity payload)))
      (option_map numeric2
         (TradeRepo.netOf debit (in_side payload) (in_entryPrice payload)
                          (in_quantity payload)))
      (in_notes payload) started started in
  let leg :=
    mkLegRow (db_uuids db (S (db_uuidCount db))) tradeId (in_optionType payload)
      (TradeRepo.positionOf (in_side payload)) (numeric2 (in_strike payload))
      (toDate (in_expiry payload)) (in_quantity payload)
      (Some (numeric4 (in_entryPrice payload))) started in
  createTrade' userId payload db
  = (Ok (mkTrade tradeId userId (in_symbol payload) (in_strategy payload)
           (nullish (in_status payload) status_open) (to_char (toDate opened))
           (option_map to_char (option_map toDate (in_closedAt payload)))
           (t_net_credit row) (t_net_debit row) (in_notes payload)
           (toISOString started) (toISOString started)
           [TradeRepo.legOfRow to_char leg]),
     mkDb (db_trades db ++ [row]) (db_legs db ++ [leg]) None (db_rejects db)
          (db_uuids db) (S (S (db_uuidCount db))) (db_clock db)
          (match in_openedAt payload with
           | Some _ => S (db_ticks db)
           | None => S (S (db_ticks db))
           end)).
Proof.
  intros Hit Hil Hsel Hfresh Hfreshl. cbv zeta.
  pose proof (fresh_trade_id _ _ userId Hfresh) as Hnone.
  pose proof (fresh_legs _ _ Hfreshl) as Hnol.
  unfold TradeRepo.createTrade, ttry, tbind.
  rewrite run_sqlBegin.
  destruct (in_openedAt payload) as [d|];
    unfold tret, readClock, accept, nextUuid, sqlNow, TradeRepo.insertLeg,
      tbind, accept, nextUuid, sqlNow, sqlCommit, withTables,
      TradeRepo.findTradeWithClient, TradeRepo.findTrade, tbind, accept;
    cbn [db_rejects db_trades db_legs db_tx db_uuids db_uuidCount db_clock
         db_ticks leg_tradeId leg_expiry leg_legType leg_position leg_strike
         leg_quantity leg_price];
    rewrite Hit; cbn beta iota;
    cbn [db_rejects db_trades db_legs db_tx db_uuids db_uuidCount db_clock
         db_ticks];
    rewrite Hil; cbn beta iota;
    cbn [db_rejects db_trades db_legs db_tx db_uuids db_uuidCount db_clock
         db_ticks];
    rewrite Hsel; cbn beta iota;
    cbn [db_rejects db_trades db_legs db_tx db_uuids db_uuidCount db_clock
         db_ticks];
    rewrite filter_app, Hnone; cbn [filter app];
    unfold TradeRepo.ownedBy at 1; cbn [t_user_id t_id];
    rewrite !String.eqb_refl; cbn [andb app];
    unfold TradeRepo.recordOfRow, TradeRepo.legsOfTrade;
    cbn [t_id t_user_id t_symbol t_strategy t_status t_opened_at t_closed_at
         t_net_credit t_net_debit t_notes t_created_at t_updated_at nullish];
    rewrite filter_app, Hnol; cbn [filter app l_trade_id];
    rewrite String.eqb_refl; reflexivity.
Qed.

Ltac run_tx :=
  unfold tret, tthrow, readClock, accept, nextUuid, sqlNow, sqlCommit,
    sqlRollback, withTables, tbind;
  cbn [db_rejects db_trades db_legs db_tx db_uuids db_uuidCount db_clock
       db_ticks leg_tradeId leg_expiry leg_legType leg_position leg_strike
       leg_quantity leg_price fst snd].

(** X17.  createTrade stores what it returns.  When the three statements are
    accepted and the generated id is not in use, the call returns a trade of
    the caller with exactly one leg, short for a credit and long for a debit,
    and with the net amount on the side that was given and null on the other;
    the transaction is closed, each table has one row more, and findTrade of
    the returned id yields the same trade. *)
Theorem createTrade_round_trip (db : Db) (owner : string) (payload : TradeInput) :
  db_rejects db (InsertTrade owner) = false ->
  db_rejects db (InsertLeg (db_uuids db (db_uuidCount db))) = false ->
  db_rejects db (SelectTrade owner (db_uuids db (db_uuidCount db))) = false ->
  (forall t, In t (db_trades db) -> t_id t <> db_uuids db (db_uuidCount db)) ->
  (forall l, In l (db_legs db) -> l_trade_id l <> db_uuids db (db_uuidCount db)) ->
  exists trade db',
    createTrade' owner payload db = (Ok trade, db') /\
    userId trade = owner /\
    symbol trade = in_symbol payload /\
    (exists l, legs trade = [l] /\
               position l = (match in_side payload with
                             | credit => short
                             | debit => long
                             end) /\
               legType l = in_optionType payload /\
               quantity l = in_quantity payload /\
               price l = Some (numeric4 (in_entryPrice payload))) /\
    classifyStrategy trade = single /\
    match in_side payload with
    | credit =>
        netCredit trade
        = Some (numeric2 (in_entryPrice payload * inject_Z (in_quantity payload)))
        /\ netDebit trade = None
    | debit =>
        netDebit trade
        = Some (numeric2 (in_entryPrice payload * inject_Z (in_quantity payload)))
        /\ netCredit trade = None
    end /\
    db_tx db' = None /\
    List.length (db_trades db') = S (List.length (db_trades db)) /\
    List.length (db_legs db') = S (List.length (db_legs db)) /\
    findTrade' owner (trade_id trade) db' = (Ok (Some trade), db').
Proof.
  intros Hit Hil Hsel Hfresh Hfreshl.
  pose proof (run_createTrade db owner payload Hit Hil Hsel Hfresh Hfreshl)
    as Hrun.
  cbv zeta in Hrun. eexists. eexists. split; [exact Hrun|].
  cbn [userId symbol legs netCredit netDebit trade_id db_tx db_trades
       db_legs t_net_credit t_net_debit].
  split; [reflexivity|]. split; [reflexivity|]. split.
  { eexists. split; [reflexivity|].
    cbn [TradeRepo.legOfRow position legType quantity price l_position
         l_leg_type l_quantity l_price].
    repeat split; reflexivity. }
  split; [reflexivity|]. split.
  { destruct (in_side payload); cbn [TradeRepo.netOf option_map];
      split; reflexivity. }
  split; [reflexivity|].
  rewrite !length_app. cbn [List.length].
  split; [lia|]. split; [lia|].
  rewrite run_findTrade by exact Hsel.
  cbn [db_trades db_legs]. rewrite filter_app.
  rewrite (fresh_trade_id _ _ owner Hfresh). cbn [filter app].
  unfold TradeRepo.ownedBy at 1. cbn [t_user_id t_id].
  rewrite !String.eqb_refl. cbn [andb].
  unfold TradeRepo.recordOfRow, TradeRepo.legsOfTrade.
  cbn [t_id t_user_id t_symbol t_strategy t_status t_opened_at t_closed_at
       t_net_credit t_net_debit t_notes t_created_at t_updated_at].
  rewrite filter_app, (fresh_legs _ _ Hfreshl). cbn [filter app l_trade_id].
  rewrite String.eqb_refl. reflexivity.
Qed.

Lemma run_createTrade_rejected (db : Db) (userId : string)
      (payload : TradeInput) :
  db_rejects db (InsertTrade userId) = true \/
  db_rejects db (InsertLeg (db_uuids db (db_uuidCount db))) = true ->
  exists db',
    createTrade' userId payload db = (Throw "query failed", db') /\
    db_trades db' = db_trades db /\ db_legs db' = db_legs db /\
    db_tx db' = None.
Proof.
  intros Hrej.
  unfold TradeRepo.createTrade, ttry. unfold tbind at 1.
  rewrite run_sqlBegin.
  destruct (db_rejects db (InsertTrade userId)) eqn:Hit.
  - destruct (in_openedAt payload) as [d|]; run_tx; rewrite Hit;
      eexists; (split; [reflexivity|]); repeat split; reflexivity.
  - destruct Hrej as [Hrej|Hil]; [discriminate|].
    destruct (in_openedAt payload) as [d|]; unfold TradeRepo.insertLeg;
      run_tx; rewrite Hit; cbn beta iota; run_tx; rewrite Hil;
      eexists; (split; [reflexivity|]); repeat split; reflexivity.
Qed.

Lemma run_createTrade_unread (db : Db) (userId : string)
      (payload : TradeInput) :
  db_rejects db (InsertTrade userId) = false ->
  db_rejects db (InsertLeg (db_uuids db (db_uuidCount db))) = false ->
  db_rejects db (SelectTrade userId (db_uuids db (db_uuidCount db))) = true ->
  exists db' row leg,
    createTrade' userId payload db = (Throw "query failed", db') /\
    db_trades db' = db_trades db ++ [row] /\
    db_legs db' = db_legs db ++ [leg] /\
    t_user_id row = userId /\ t_symbol row = in_symbol payload /\
    l_trade_id leg = t_id row.
Proof.
  intros Hit Hil Hsel.
  unfold TradeRepo.createTrade, ttry. unfold tbind at 1.
  rewrite run_sqlBegin.
  destruct (in_openedAt payload) as [d|];
    unfold TradeRepo.insertLeg, TradeRepo.findTradeWithClient,
      TradeRepo.findTrade;
    run_tx; rewrite Hit; cbn beta iota; run_tx; rewrite Hil; cbn beta iota;
    run_tx; rewrite Hsel;
    eexists; eexists; eexists; (split; [reflexivity|]);
    cbn [db_trades db_legs]; (split; [reflexivity|]);
    (split; [reflexivity|]); repeat split.
Qed.

(** X18.  createTrade is all or nothing while its transaction is open: when
    the insertion of the trade or the insertion of its leg is rejected, the
    call throws, both tables are as before the call, and no transaction is
    left open. *)
Theorem createTrade_failure_is_atomic (db : Db) (userId : string)
        (payload : TradeInput) :
  db_rejects db (InsertTrade userId) = true \/
  db_rejects db (InsertLeg (db_uuids db (db_uuidCount db))) = true ->
  fst (createTrade' userId payload db) = Throw "query failed" /\
  db_trades (snd (createTrade' userId payload db)) = db_trades db /\
  db_legs (snd (createTrade' userId payload db)) = db_legs db /\
  db_tx (snd (createTrade' userId payload db)) = None.
Proof.
  intros Hrej.
  destruct (run_createTrade_rejected db userId payload Hrej)
    as (db' & -> & Ht & Hl & Htx).
  now repeat split.
Qed.

(** X19.  The read-back of createTrade happens after COMMIT: when that
    statement is rejected the call throws although the trade and its leg are
    stored, the ROLLBACK of the handler finding no transaction to undo. *)
Theorem createTrade_can_fail_after_commit (db : Db) (userId : string)
        (payload : TradeInput) :
  db_rejects db (InsertTrade userId) = false ->
  db_rejects db (InsertLeg (db_uuids db (db_uuidCount db))) = false ->
  db_rejects db (SelectTrade userId (db_uuids db (db_uuidCount db))) = true ->
  fst (createTrade' userId payload db) = Throw "query failed" /\
  exists row leg,
    db_trades (snd (createTrade' userId payload db)) = db_trades db ++ [row] /\
    db_legs (snd (createTrade' userId payload db)) = db_legs db ++ [leg] /\
    t_user_id row = userId /\ t_symbol row = in_symbol payload /\
    l_trade_id leg = t_id row.
Proof.
  intros Hit Hil Hsel.
  destruct (run_createTrade_unread db userId payload Hit Hil Hsel)
    as (db' & row & leg & -> & Ht & Hl & Hu & Hs & Hid).
  split; [reflexivity|]. exists row, leg. now repeat split.
Qed.

End RepositoryFacts.

(** *** Other trades are never touched *)

Lemma leads_tbind {A B} (P I : Db -> Prop) (m : T A) (k : A -> T B) :
  leads P I m -> (forall a, leads I I (k a)) -> leads P I (tbind m k).
Proof.
  intros Hm Hk db HP. unfold tbind. specialize (Hm db HP).
  destruct (m db) as [[a|e] db1]; cbn [snd] in *; [now apply Hk | exact Hm].
Qed.

Lemma leads_ttry {A} (P I : Db -> Prop) (m : T A) (h : string -> T A) :
  leads P I m -> (forall e, leads I I (h e)) -> leads P I (ttry m h).
Proof.
  intros Hm Hh db HP. unfold ttry. specialize (Hm db HP).
  destruct (m db) as [[a|e] db1]; cbn [snd] in *; [exact Hm | now apply Hh].
Qed.

Section Untouched.

Variables (userId tradeId : string) (db0 : Db).

Local Abbreviation Inv := (untouched userId tradeId db0).

Lemma untouched_tret {A} (a : A) : leads Inv Inv (tret a).
Proof. intros db H. exact H. Qed.

Lemma untouched_tthrow {A} (e : string) : leads Inv Inv (@tthrow A e).
Proof. intros db H. exact H. Qed.

Lemma untouched_accept (s : Stmt) : leads Inv Inv (accept s).
Proof. intros db H. unfold accept. now destruct (db_rejects db s). Qed.

Lemma untouched_readClock : leads Inv Inv readClock.
Proof. intros db H. exact H. Qed.

Lemma untouched_nextUuid : leads Inv Inv nextUuid.
Proof. intros db H. exact H. Qed.

Lemma untouched_sqlNow : leads Inv Inv sqlNow.
Proof.
  intros db H. unfold sqlNow.
  destruct (db_tx db) as [[t [ts ls]]|] eqn:E; [exact H|].
  destruct H as [H _]. unfold untouched, readClock.
  cbn [snd db_trades db_legs db_tx]. rewrite E. split; [exact H | exact I].
Qed.

Lemma untouched_sqlBegin :
  leads (fun db => sameOthers userId tradeId db0 (db_trades db) (db_legs db))
        Inv sqlBegin.
Proof. intros db H. split; exact H. Qed.

Lemma untouched_sqlCommit : leads Inv Inv sqlCommit.
Proof. intros db [H _]. split; [exact H | exact I]. Qed.

Lemma untouched_sqlRollback : leads Inv Inv sqlRollback.
Proof.
  intros db [H Htx]. unfold sqlRollback.
  destruct (db_tx db) as [[t [ts ls]]|] eqn:E.
  - split; [exact Htx | exact I].
  - split; [exact H|]. cbn [snd]. now rewrite E.
Qed.

Lemma untouched_findTrade to_char toISOString (u i : string) :
  leads Inv Inv (TradeRepo.findTrade to_char toISOString u i).
Proof.
  apply leads_tbind; [apply untouched_accept|]. intros _ db H. exact H.
Qed.

Lemma otherLegs_added (ls : list LegRow) (l : LegRow) :
  l_trade_id l = tradeId ->
  otherLegs tradeId (ls ++ [l]) = otherLegs tradeId ls.
Proof.
  intros E. unfold otherLegs. rewrite filter_app. cbn [filter].
  rewrite E, String.eqb_refl. cbn [negb]. apply app_nil_r.
Qed.

Lemma otherLegs_deleted (ls : list LegRow) :
  otherLegs tradeId
    (filter (fun l => negb (String.eqb (l_trade_id l) tradeId)) ls)
  = otherLegs tradeId ls.
Proof. apply filter_idem. Qed.

Lemma otherTrades_updated (f : TradeRow -> TradeRow) (ts : list TradeRow) :
  (forall t, TradeRepo.ownedBy userId tradeId t = false -> f t = t) ->
  (forall t, TradeRepo.ownedBy userId tradeId t = true ->
             TradeRepo.ownedBy userId tradeId (f t) = true) ->
  otherTrades userId tradeId (map f ts) = otherTrades userId tradeId ts.
Proof.
  intros Hother Hown. unfold otherTrades.
  induction ts as [|t ts IH]; [reflexivity|]. cbn [map filter].
  destruct (TradeRepo.ownedBy userId tradeId t) eqn:E.
  - rewrite (Hown t E). exact IH.
  - rewrite (Hother t E), E. cbn [negb]. now rewrite IH.
Qed.

Lemma updateRow_other symbol strategy status openedAt closedAt netCredit
      netDebit notes updated (t : TradeRow) :
  TradeRepo.ownedBy userId tradeId t = false ->
  TradeRepo.updateRow userId tradeId symbol strategy status openedAt closedAt
                      netCredit netDebit notes updated t = t.
Proof.
  unfold TradeRepo.ownedBy, TradeRepo.updateRow. intros E.
  rewrite andb_comm, E. reflexivity.
Qed.

Lemma updateRow_owned symbol strategy status openedAt closedAt netCredit
      netDebit notes updated (t : TradeRow) :
  TradeRepo.ownedBy userId tradeId t = true ->
  TradeRepo.updateRow userId tradeId symbol strategy status openedAt closedAt
                      netCredit netDebit notes updated t
  = mkTradeRow (t_id t) (t_user_id t) symbol strategy status openedAt closedAt
               netCredit netDebit notes (t_created_at t) updated.
Proof.
  unfold TradeRepo.ownedBy, TradeRepo.updateRow. intros E.
  rewrite andb_comm, E. reflexivity.
Qed.

Lemma untouched_insertLeg toDate numeric2 numeric4 (leg : InsertLegInput) :
  leg_tradeId leg = tradeId ->
  leads Inv Inv (TradeRepo.insertLeg toDate numeric2 numeric4 leg).
Proof.
  intros E. unfold TradeRepo.insertLeg.
  apply leads_tbind; [apply untouched_accept|]. intros _.
  destruct (leg_expiry leg) as [|expiry|]; try apply untouched_tthrow.
  apply leads_tbind; [apply untouched_nextUuid|]. intros id.
  apply leads_tbind; [apply untouched_sqlNow|]. intros created.
  intros db [[Ht Hl] Htx]. split; [split|exact Htx]; [exact Ht|].
  cbn [snd withTables db_legs]. rewrite otherLegs_added; [exact Hl|].
  cbn [l_trade_id]. exact E.
Qed.

End Untouched.

Section UpdateFacts.

Variable Date_getTime : string -> option Z.
Variable toDate : Z -> Z.
Variable to_char : Z -> string.
Variable toISOString : Z -> string.
Variable numeric2 : Q -> Q.
Variable numeric4 : Q -> Q.

Local Abbreviation updateTrade' :=
  (TradeRepo.updateTrade Date_getTime toDate to_char toISOString numeric2 numeric4).

Lemma untouched_updateTrade (userId tradeId : string) (payload : TradePatch)
      (db0 : Db) :
  leads (fun db => sameOthers userId tradeId db0 (db_trades db) (db_legs db))
        (untouched userId tradeId db0) (updateTrade' userId tradeId payload).
Proof.
  unfold TradeRepo.updateTrade. apply leads_ttry.
  2:{ intros e. apply leads_tbind; [apply untouched_sqlRollback|].
      intros _. apply untouched_tthrow. }
  apply leads_tbind; [apply untouched_sqlBegin|]. intros _.
  apply leads_tbind; [apply untouched_findTrade|]. intros [current|].
  2:{ apply leads_tbind; [apply untouched_sqlRollback|].
      intros _. apply untouched_tret. }
  cbv zeta.
  apply leads_tbind; [apply untouched_accept|]. intros _.
  apply leads_tbind.
  { destruct (p_openedAt payload) as [d|];
      [|destruct (newDate (Date_getTime (openedAt current)))];
      try apply untouched_tthrow;
      (destruct (p_closedAt payload) as [c|];
       [|destruct (truthy (closedAt current));
         [destruct (newDate (Date_getTime (nullish (closedAt current) "")))|]]);
      try apply untouched_tthrow;
      (apply leads_tbind; [apply untouched_sqlNow|]; intros updated;
       intros db [[Ht Hl] Htx]; (split; [split|exact Htx]); [|exact Hl];
       cbn [snd withTables db_trades];
       rewrite otherTrades_updated; [exact Ht| |];
       intros t E; [now apply updateRow_other|];
       rewrite updateRow_owned by exact E; exact E). }
  intros _.
  apply leads_tbind; [apply untouched_accept|]. intros _.
  apply leads_tbind.
  { intros db [[Ht Hl] Htx]. split; [split|exact Htx]; [exact Ht|].
    cbn [snd withTables db_legs]. now rewrite otherLegs_deleted. }
  intros _.
  apply leads_tbind.
  { destruct (p_expiry payload) as [d|]; [apply untouched_tret|].
    destruct (hd_error (legs current)) as [l|].
    - destruct (negb (String.eqb (expiry l) "")); [apply untouched_tret|].
      apply leads_tbind; [apply untouched_readClock|].
      intros d. apply untouched_tret.
    - apply leads_tbind; [apply untouched_readClock|].
      intros d. apply untouched_tret. }
  intros expiry.
  apply leads_tbind; [now apply untouched_insertLeg|]. intros _.
  apply leads_tbind; [apply untouched_sqlCommit|]. intros _.
  apply untouched_findTrade.
Qed.

(** X20.  updateTrade touches one trade only: whatever the payload and whether
    the call returns or throws, the rows of [trades] other than the caller's
    row with the given id, and the legs of the other trades, are afterwards
    what they were. *)
Theorem updateTrade_leaves_other_trades (db : Db) (userId tradeId : string)
        (payload : TradePatch) :
  otherTrades userId tradeId
    (db_trades (snd (updateTrade' userId tradeId payload db)))
  = otherTrades userId tradeId (db_trades db) /\
  otherLegs tradeId (db_legs (snd (updateTrade' userId tradeId payload db)))
  = otherLegs tradeId (db_legs db).
Proof.
  apply (untouched_updateTrade userId tradeId payload db db).
  split; reflexivity.
Qed.

Lemma tbind_Ok {A B} (m : T A) (k : A -> T B) (db db' : Db) (b : B) :
  tbind m k db = (Ok b, db') ->
  exists a db1, m db = (Ok a, db1) /\ k a db1 = (Ok b, db').
Proof.
  unfold tbind. destruct (m db) as [[a|e] db1]; [|discriminate].
  intros H. now exists a, db1.
Qed.

Lemma ttry_rollback_Ok {A} (m : T A) (db db' : Db) (a : A) :
  ttry m (fun error => tbind sqlRollback (fun _ => tthrow error)) db
  = (Ok a, db') ->
  m db = (Ok a, db').
Proof.
  unfold ttry. destruct (m db) as [[r|e] db1]; [trivial|].
  unfold tbind, sqlRollback, tthrow.
  destruct (db_tx db1) as [[t [ts ls]]|]; discriminate.
Qed.

Lemma accept_Ok (s : Stmt) (db db' : Db) (u : unit) :
  accept s db = (Ok u, db') -> db_rejects db s = false /\ db' = db.
Proof.
  unfold accept. destruct (db_rejects db s); [discriminate|].
  intros H. now inversion H.
Qed.

Lemma filter_owned_map (userId tradeId : string) (f : TradeRow -> TradeRow)
      (ts : list TradeRow) :
  (forall t, TradeRepo.ownedBy userId tradeId (f t)
             = TradeRepo.ownedBy userId tradeId t) ->
  filter (TradeRepo.ownedBy userId tradeId) (map f ts)
  = map f (filter (TradeRepo.ownedBy userId tradeId) ts).
Proof.
  intros H. induction ts as [|t ts IH]; [reflexivity|]. cbn [map filter].
  rewrite H. destruct (TradeRepo.ownedBy userId tradeId t); cbn [map];
    now rewrite IH.
Qed.

Lemma updateRow_ownedBy userId tradeId symbol strategy status openedAt closedAt
      netCredit netDebit notes updated (t : TradeRow) :
  TradeRepo.ownedBy userId tradeId
    (TradeRepo.updateRow userId tradeId symbol strategy status openedAt
                         closedAt netCredit netDebit notes updated t)
  = TradeRepo.ownedBy userId tradeId t.
Proof.
  destruct (TradeRepo.ownedBy userId tradeId t) eqn:E.
  - rewrite updateRow_owned by exact E. exact E.
  - rewrite updateRow_other by exact E. exact E.
Qed.

Lemma legs_of_deleted (tradeId : string) (ls : list LegRow) :
  filter (fun l => String.eqb (l_trade_id l) tradeId)
         (filter (fun l => negb (String.eqb (l_trade_id l) tradeId)) ls) = [].
Proof.
  apply filter_nil_iff. intros l Hl. apply filter_In in Hl as [_ Hl].
  now apply negb_true_iff in Hl.
Qed.

Local Abbreviation findTrade' := (TradeRepo.findTrade to_char toISOString).

Local Abbreviation begun db :=
  (mkDb (db_trades db) (db_legs db)
        (Some (db_clock db (db_ticks db), (db_trades db, db_legs db)))
        (db_rejects db) (db_uuids db) (db_uuidCount db) (db_clock db)
        (S (db_ticks db))).

Lemma sqlNow_in_tx (db : Db) (t : Z) snap :
  db_tx db = Some (t, snap) -> sqlNow db = (Ok t, db).
Proof. intros E. unfold sqlNow. now rewrite E. Qed.

Lemma updateTrade_Ok_inv (db db' : Db) (owner tradeId : string)
      (payload : TradePatch) (trade : TradeRecord) :
  updateTrade' owner tradeId payload db = (Ok (Some trade), db') ->
  exists current l,
    findTrade' owner tradeId db = (Ok (Some current), db) /\
    let leg0 := hd_error (legs current) in
    let side :=
      nullish (p_side payload)
              (match netCredit current with
               | Some _ => credit
               | None => debit
               end) in
    let entryPrice :=
      nullish (p_entryPrice payload)
              (nullish (match leg0 with Some l => price l | None => None end)
                       0%Q) in
    let qty :=
      nullish (p_quantity payload) (nullish (option_map quantity leg0) 1) in
    trade_id trade = tradeId /\ userId trade = owner /\
    createdAt trade = createdAt current /\
    symbol trade = nullish (p_symbol payload) (symbol current) /\
    trade_strategy trade = (match p_strategy payload with
                            | Some s => Some s
                            | None => trade_strategy current
                            end) /\
    status trade = nullish (p_status payload) (status current) /\
    notes trade = (match p_notes payload with
                   | Some n => Some n
                   | None => notes current
                   end) /\
    (closedAt trade = None ->
     p_closedAt payload = None /\ truthy (closedAt current) = false) /\
    netCredit trade
    = option_map numeric2 (TradeRepo.netOf credit side entryPrice qty) /\
    netDebit trade
    = option_map numeric2 (TradeRepo.netOf debit side entryPrice qty) /\
    legs trade = [l] /\
    position l = TradeRepo.positionOf side /\
    quantity l = qty /\
    price l = Some (numeric4 entryPrice) /\
    legType l = nullish (p_optionType payload)
                        (nullish (option_map legType leg0) call) /\
    strike l = numeric2 (nullish (p_strike payload)
                                 (nullish (option_map strike leg0) 0%Q)) /\
    db_tx db' = None /\
    findTrade' owner tradeId db' = (Ok (Some trade), db') /\
    (exists opened,
        (p_openedAt payload = Some opened \/
         (p_openedAt payload = None /\
          Date_getTime (openedAt current) = Some opened)) /\
        openedAt trade = to_char (toDate opened)) /\
    closedAt trade
    = (match p_closedAt payload with
       | Some d => Some (to_char (toDate d))
       | None =>
           if truthy (closedAt current)
           then option_map (fun ms => to_char (toDate ms))
                           (Date_getTime (nullish (closedAt current) ""))
           else None
       end) /\
    updatedAt trade = toISOString (db_clock db (db_ticks db)).
Proof.
  intros Hbody. unfold TradeRepo.updateTrade in Hbody.
  apply ttry_rollback_Ok in Hbody.
  apply tbind_Ok in Hbody as (u0 & db1 & Hbegin & Hbody).
  rewrite run_sqlBegin in Hbegin. inversion Hbegin; subst u0 db1; clear Hbegin.
  apply tbind_Ok in Hbody as (cur & db1 & Hfind & Hbody).
  unfold TradeRepo.findTradeWithClient, TradeRepo.findTrade in Hfind.
  apply tbind_Ok in Hfind as (u0 & db2 & Hacc & Hfind).
  apply accept_Ok in Hacc as [Hsel ->]. cbn [db_rejects] in Hsel.
  cbn [db_trades db_legs] in Hfind.
  destruct (filter (TradeRepo.ownedBy owner tradeId) (db_trades db))
    as [|t0 rest] eqn:Hown.
  { inversion Hfind; subst cur db1.
    unfold tbind, sqlRollback, tret in Hbody. cbn [db_tx] in Hbody.
    discriminate Hbody. }
  inversion Hfind; subst cur db1; clear Hfind u0.
  set (current := TradeRepo.recordOfRow to_char toISOString (db_legs db) t0)
    in Hbody.
  cbv zeta in Hbody.
  set (leg0 := hd_error (legs current)) in Hbody.
  set (side := nullish (p_side payload) _) in Hbody.
  set (entryPrice := nullish (p_entryPrice payload) _) in Hbody.
  set (qty := nullish (p_quantity payload) _) in Hbody.
  set (openedP := match p_openedAt payload with Some d => _ | None => _ end)
    in Hbody.
  set (closedP := match p_closedAt payload with Some d => _ | None => _ end)
    in Hbody.
  apply tbind_Ok in Hbody as (u1 & db1 & Hacc & Hbody).
  apply accept_Ok in Hacc as [Hupd ->]. cbn [db_rejects] in Hupd.
  apply tbind_Ok in Hbody as (u2 & db2 & Hstep & Hbody).
  destruct openedP as [|opened|] eqn:Hopened; try discriminate Hstep.
  assert (Hclosed : exists closed,
             match closedP with
             | ValidDate c => Some (toDate c)
             | _ => None
             end = closed /\
             (closed = None -> closedP = NullDate) /\ closedP <> InvalidDate).
  { destruct closedP as [|c|]; try discriminate Hstep;
      eexists; (split; [reflexivity|]); split; congruence. }
  destruct Hclosed as (closed & Hclosed & Hnull & Hvalid).
  rewrite Hclosed in Hstep.
  assert (Hstep' :
    db2 = withTables (begun db)
            (map (TradeRepo.updateRow owner tradeId
                    (nullish (p_symbol payload) (symbol current))
                    (match p_strategy payload with
                     | Some s => Some s
                     | None => trade_strategy current
                     end)
                    (nullish (p_status payload) (status current))
                    (toDate opened) closed
                    (option_map numeric2
                       (TradeRepo.netOf credit side entryPrice qty))
                    (option_map numeric2
                       (TradeRepo.netOf debit side entryPrice qty))
                    (match p_notes payload with
                     | Some n => Some n
                     | None => notes current
                     end)
                    (db_clock db (db_ticks db)))
                 (db_trades db))
            (db_legs db) (db_tx (begun db))).
  { destruct closedP as [|c|]; [|  |congruence];
      unfold tbind in Hstep; cbn [sqlNow db_tx] in Hstep;
      now inversion Hstep. }
  clear Hstep. subst db2.
  match type of Hbody with context [map ?g (db_trades db)] =>
    set (f := g) in Hbody end.
  apply tbind_Ok in Hbody as (u3 & db1 & Hacc & Hbody).
  apply accept_Ok in Hacc as [Hdel ->]. cbn [db_rejects withTables] in Hdel.
  apply tbind_Ok in Hbody as (u4 & db1 & Hstep & Hbody).
  inversion Hstep; subst u4 db1; clear Hstep.
  cbn [withTables db_trades db_legs db_tx db_rejects db_uuids db_uuidCount
       db_clock db_ticks] in Hbody.
  apply tbind_Ok in Hbody as (expiryP & db1 & Hexp & Hbody).
  apply tbind_Ok in Hbody as (u5 & db2 & Hins & Hbody).
  apply tbind_Ok in Hbody as (u6 & db3 & Hcommit & Hbody).
  unfold TradeRepo.insertLeg in Hins.
  apply tbind_Ok in Hins as (u7 & db4 & Hacc & Hins).
  apply accept_Ok in Hacc as [Hil ->].
  cbn [leg_tradeId leg_expiry leg_legType leg_position leg_strike
       leg_quantity leg_price] in Hins.
  destruct expiryP as [|expiryMs|]; try discriminate Hins.
  assert (Hdb1 : exists n,
             db1 = mkDb (map f (db_trades db))
                        (filter (fun l => negb (String.eqb (l_trade_id l) tradeId))
                                (db_legs db))
                        (Some (db_clock db (db_ticks db),
                               (db_trades db, db_legs db)))
                        (db_rejects db) (db_uuids db) (db_uuidCount db)
                        (db_clock db) n).
  { destruct (p_expiry payload) as [d|];
      [|destruct leg0 as [l0|];
        [destruct (negb (String.eqb (expiry l0) ""))|]];
      inversion Hexp; eexists; reflexivity. }
  destruct Hdb1 as (n & ->). clear Hexp.
  unfold tbind, nextUuid, sqlNow, withTables in Hins.
  cbn [db_trades db_legs db_tx db_rejects db_uuids db_uuidCount db_clock
       db_ticks] in Hins.
  inversion Hins; subst u5 db2; clear Hins.
  inversion Hcommit; subst u6 db3; clear Hcommit.
  unfold TradeRepo.findTradeWithClient in Hbody.
  unfold withTables in Hbody.
  cbn [db_trades db_legs db_tx db_rejects db_uuids db_uuidCount db_clock
       db_ticks] in Hbody.
  match type of Hbody with findTrade' _ _ ?d = _ => set (dbF := d) in * end.
  pose proof Hbody as Hfinal.
  rewrite run_findTrade in Hbody by exact Hsel.
  injection Hbody as Htrade Hdb'.
  subst db'.
  assert (Htx : db_tx dbF = None) by reflexivity.
  unfold dbF in Htrade. cbn [db_trades db_legs] in Htrade.
  clearbody dbF.
  rewrite filter_owned_map, Hown in Htrade
    by (intros t; apply updateRow_ownedBy).
  cbn [map] in Htrade.
  assert (Ht0 : TradeRepo.ownedBy owner tradeId t0 = true).
  { assert (Hin : In t0 (filter (TradeRepo.ownedBy owner tradeId) (db_trades db)))
      by (rewrite Hown; now left).
    now apply filter_In in Hin. }
  pose proof Ht0 as Hids. unfold TradeRepo.ownedBy in Hids.
  apply andb_true_iff in Hids as [Hu Hi].
  apply String.eqb_eq in Hu, Hi.
  unfold f in Htrade. rewrite updateRow_owned in Htrade by exact Ht0.
  unfold TradeRepo.recordOfRow at 1, TradeRepo.legsOfTrade in Htrade.
  cbn [t_id t_user_id t_symbol t_strategy t_status t_opened_at t_closed_at
       t_net_credit t_net_debit t_notes t_created_at t_updated_at] in Htrade.
  rewrite Hi, filter_app, legs_of_deleted in Htrade.
  cbn [filter app l_trade_id] in Htrade.
  rewrite String.eqb_refl in Htrade.
  cbn [Array_sort fold_left sort_insert map] in Htrade.
  injection Htrade as Htrade.
  exists current. eexists.
  split.
  { rewrite run_findTrade by exact Hsel. now rewrite Hown. }
  cbv zeta. fold leg0. fold side. fold entryPrice. fold qty.
  subst trade.
  cbn [trade_id userId createdAt symbol trade_strategy status notes closedAt
       netCredit netDebit legs].
  split; [reflexivity|]. split; [exact Hu|].
  split; [reflexivity|]. split; [reflexivity|]. split; [reflexivity|].
  split; [reflexivity|]. split; [reflexivity|].
  split.
  { intros Hc. assert (Hn : closed = None) by now destruct closed.
    specialize (Hnull Hn). unfold closedP in Hnull.
    destruct (p_closedAt payload) as [c|]; [discriminate|].
    split; [reflexivity|].
    destruct (truthy (closedAt current)); [|reflexivity].
    unfold newDate in Hnull.
    destruct (Date_getTime (nullish (closedAt current) "")); discriminate. }
  split; [reflexivity|]. split; [reflexivity|].
  split; [reflexivity|].
  cbn [TradeRepo.legOfRow position quantity price legType strike l_position
       l_quantity l_price l_leg_type l_strike].
  split; [reflexivity|]. split; [reflexivity|]. split; [reflexivity|].
  split; [reflexivity|]. split; [reflexivity|].
  split; [exact Htx|]. split; [exact Hfinal|].
  cbn [openedAt closedAt updatedAt]. split; [|split; [|reflexivity]].
  - exists opened. split; [|reflexivity]. unfold openedP in Hopened.
    destruct (p_openedAt payload) as [d|].
    + left. now injection Hopened as ->.
    + right. split; [reflexivity|]. unfold newDate in Hopened.
      destruct (Date_getTime (openedAt current)) as [ms|];
        [now injection Hopened as -> | discriminate].
  - rewrite <- Hclosed. unfold closedP in *.
    destruct (p_closedAt payload) as [d|]; [reflexivity|].
    destruct (truthy (closedAt current)); [|reflexivity].
    unfold newDate in *.
    destruct (Date_getTime (nullish (closedAt current) "")) as [ms|];
      [reflexivity | congruence].
Qed.

(** X21.  updateTrade replaces the legs of a trade by a single one.  A trade
    that the call returns has exactly one leg, whatever legs it had before,
    so that it classifies as a single option; the leg is short and the net
    amount a credit, or the leg is long and the net amount a debit, the other
    amount being null; and the amount is the entry price times the quantity of
    that leg, coerced by the column. *)
Theorem updateTrade_collapses_to_one_leg (db db' : Db) (owner tradeId : string)
        (payload : TradePatch) (trade : TradeRecord) :
  updateTrade' owner tradeId payload db = (Ok (Some trade), db') ->
  classifyStrategy trade = single /\
  exists l entryPrice,
    legs trade = [l] /\
    price l = Some (numeric4 entryPrice) /\
    let amount := Some (numeric2 (entryPrice * inject_Z (quantity l))) in
    match position l with
    | short => netCredit trade = amount /\ netDebit trade = None
    | long => netDebit trade = amount /\ netCredit trade = None
    end.
Proof.
  intros H. apply updateTrade_Ok_inv in H as (current & l & _ & H).
  cbv zeta in H.
  destruct H as (_ & _ & _ & _ & _ & _ & _ & _ & Hc & Hd & Hl & Hp & Hq & Hpr & _).
  split.
  { unfold classifyStrategy. now rewrite Hl. }
  exists l. eexists. split; [exact Hl|]. split; [exact Hpr|].
  cbv zeta. rewrite Hp, Hc, Hd, Hq.
  match goal with |- context [TradeRepo.positionOf ?s] => destruct s end;
    cbn [TradeRepo.positionOf TradeRepo.netOf option_map]; split; reflexivity.
Qed.

(** X22.  What a successful updateTrade returns, field by field.  The trade
    is the caller's trade of the given id, created when it was and updated at
    the start of the transaction.  Symbol, strategy, status and notes are
    those of the payload where it gives them and those of the stored trade
    where it does not.  The two dates are written again in every case: the
    opening date is the stored form of the payload's date or, without one, of
    the stored text parsed anew, and so is the closed date, which the payload
    cannot remove.  The net amount is computed again in every case, whether
    or not the payload names a side, a price or a quantity: it is the entry
    price times the quantity, coerced by the column, on the side of the
    payload or else on the side the stored trade had an amount on, with the
    price and the quantity of the payload or else of the first stored leg (0
    and 1 when there is none); the other amount is null.  Reading the trade
    afterwards gives the returned record.  (The legs are X21.) *)
Theorem updateTrade_returns_patched_trade (db db' : Db) (owner tradeId : string)
        (payload : TradePatch) (trade : TradeRecord) :
  updateTrade' owner tradeId payload db = (Ok (Some trade), db') ->
  exists current,
    findTrade' owner tradeId db = (Ok (Some current), db) /\
    trade_id trade = tradeId /\ userId trade = owner /\
    createdAt trade = createdAt current /\
    updatedAt trade = toISOString (db_clock db (db_ticks db)) /\
    symbol trade = nullish (p_symbol payload) (symbol current) /\
    trade_strategy trade = (match p_strategy payload with
                            | Some s => Some s
                            | None => trade_strategy current
                            end) /\
    status trade = nullish (p_status payload) (status current) /\
    notes trade = (match p_notes payload with
                   | Some n => Some n
                   | None => notes current
                   end) /\
    (exists opened,
        (p_openedAt payload = Some opened \/
         (p_openedAt payload = None /\
          Date_getTime (openedAt current) = Some opened)) /\
        openedAt trade = to_char (toDate opened)) /\
    closedAt trade
    = (match p_closedAt payload with
       | Some d => Some (to_char (toDate d))
       | None =>
           if truthy (closedAt current)
           then option_map (fun ms => to_char (toDate ms))
                           (Date_getTime (nullish (closedAt current) ""))
           else None
       end) /\
    (truthy (closedAt current) = true -> closedAt trade <> None) /\
    (let side :=
       nullish (p_side payload)
               (match netCredit current with
                | Some _ => credit
                | None => debit
                end) in
     let entryPrice :=
       nullish (p_entryPrice payload)
               (nullish (match hd_error (legs current) with
                         | Some l => price l
                         | None => None
                         end) 0%Q) in
     let qty :=
       nullish (p_quantity payload)
               (nullish (option_map quantity (hd_error (legs current))) 1) in
     let amount := Some (numeric2 (entryPrice * inject_Z qty)) in
     match side with
     | credit => netCredit trade = amount /\ netDebit trade = None
     | debit => netDebit trade = amount /\ netCredit trade = None
     end) /\
    findTrade' owner tradeId db' = (Ok (Some trade), db').
Proof.
  intros H. apply updateTrade_Ok_inv in H as (current & l & Hcur & H).
  cbv zeta in H.
  destruct H as (Hid & Hu & Hcr & Hsy & Hst & Hstat & Hn & Hcl & Hnc & Hnd
                 & _ & _ & _ & _ & _ & _ & _ & Hfind & Hop & Hclosed & Hupd).
  exists current.
  split; [exact Hcur|]. split; [exact Hid|]. split; [exact Hu|].
  split; [exact Hcr|]. split; [exact Hupd|]. split; [exact Hsy|].
  split; [exact Hst|]. split; [exact Hstat|]. split; [exact Hn|].
  split; [exact Hop|]. split; [exact Hclosed|]. split.
  { intros Ht Hnone. destruct (Hcl Hnone) as [_ Hf]. congruence. }
  split; [|exact Hfind].
  cbv zeta. rewrite Hnc, Hnd.
  match goal with |- match ?s with _ => _ end => destruct s end;
    cbn [TradeRepo.netOf option_map]; split; reflexivity.
Qed.


(** *** A failed update changes nothing *)

Lemma triple_tbind {A B} (P : Db -> Prop) (m : T A) (Q : A -> Db -> Prop)
      (k : A -> T B) (R : B -> Db -> Prop) (E : Db -> Prop) :
  triple P m Q E -> (forall a, triple (Q a) (k a) R E) ->
  triple P (tbind m k) R E.
Proof.
  intros Hm Hk db HP. unfold tbind. specialize (Hm db HP).
  destruct (m db) as [[a|e] db1]; [now apply Hk | exact Hm].
Qed.

Section Atomic.

Variable db0 : Db.

Local Abbreviation J := (inTransaction db0).

(** A step that may throw but leaves the transaction as it is. *)
Local Abbreviation keepsTx m := (triple J m (fun _ => J) J).

Lemma keepsTx_tbind {A B} (m : T A) (k : A -> T B) :
  keepsTx m -> (forall a, keepsTx (k a)) -> keepsTx (tbind m k).
Proof. intros Hm Hk. now apply triple_tbind with (Q := fun _ => J). Qed.

Lemma keepsTx_tret {A} (a : A) : keepsTx (tret a).
Proof. intros db H. exact H. Qed.

Lemma keepsTx_tthrow {A} (e : string) : keepsTx (@tthrow A e).
Proof. intros db H. exact H. Qed.

Lemma keepsTx_accept (s : Stmt) : keepsTx (accept s).
Proof. intros db H. unfold accept. now destruct (db_rejects db s). Qed.

Lemma keepsTx_readClock : keepsTx readClock.
Proof. intros db H. exact H. Qed.

Lemma keepsTx_nextUuid : keepsTx nextUuid.
Proof. intros db H. exact H. Qed.

Lemma keepsTx_sqlNow : keepsTx sqlNow.
Proof.
  intros db H. unfold sqlNow.
  destruct (db_tx db) as [[t [ts ls]]|] eqn:E; [exact H|].
  destruct H as [[t Ht] _]. congruence.
Qed.

Lemma keepsTx_tables (f : Db -> list TradeRow) (g : Db -> list LegRow) :
  keepsTx (fun db => (Ok tt, withTables db (f db) (g db) (db_tx db))).
Proof. intros db H. exact H. Qed.

Lemma keepsTx_findTrade (userId tradeId : string) :
  keepsTx (findTrade' userId tradeId).
Proof.
  apply keepsTx_tbind; [apply keepsTx_accept|]. intros _ db H. exact H.
Qed.

Lemma keepsTx_insertLeg (leg : InsertLegInput) :
  keepsTx (TradeRepo.insertLeg toDate numeric2 numeric4 leg).
Proof.
  unfold TradeRepo.insertLeg.
  apply keepsTx_tbind; [apply keepsTx_accept|]. intros _.
  destruct (leg_expiry leg) as [|expiryMs|]; try apply keepsTx_tthrow.
  apply keepsTx_tbind; [apply keepsTx_nextUuid|]. intros id.
  apply keepsTx_tbind; [apply keepsTx_sqlNow|]. intros created.
  intros db H. exact H.
Qed.

Lemma rollback_restores (db : Db) :
  J db ->
  db_trades (snd (sqlRollback db)) = db_trades db0 /\
  db_legs (snd (sqlRollback db)) = db_legs db0 /\
  db_tx (snd (sqlRollback db)) = None.
Proof.
  intros [[t Ht] _]. unfold sqlRollback. rewrite Ht. now repeat split.
Qed.

Lemma updateTrade_throws_in_tx (userId tradeId : string) (payload : TradePatch)
      (e : string) (db' : Db) :
  db_rejects db0 (SelectTrade userId tradeId) = false ->
  updateTrade' userId tradeId payload db0 = (Throw e, db') ->
  db_trades db' = db_trades db0 /\ db_legs db' = db_legs db0 /\
  db_tx db' = None.
Proof.
  intros Hsel H. unfold TradeRepo.updateTrade, ttry in H.
  match type of H with
  | (match ?b db0 with _ => _ end) = _ =>
      assert (Hb : triple (eq db0) b (fun _ _ => True) J)
  end.
  { clear H.
    apply triple_tbind with (Q := fun _ => J).
    { intros db <-. split; [eexists; reflexivity | reflexivity]. }
    intros _.
    apply triple_tbind with (Q := fun _ => J); [apply keepsTx_findTrade|].
    intros [current|].
    2:{ intros db Hdb. unfold tbind, sqlRollback, tret.
        now destruct (db_tx db) as [[t [ts ls]]|]. }
    cbv zeta.
    apply triple_tbind with (Q := fun _ => J); [apply keepsTx_accept|].
    intros _.
    apply triple_tbind with (Q := fun _ => J).
    { destruct (p_openedAt payload) as [d|];
        [|destruct (newDate (Date_getTime (openedAt current)))];
        try apply keepsTx_tthrow;
        (destruct (p_closedAt payload) as [c|];
         [|destruct (truthy (closedAt current));
           [destruct (newDate (Date_getTime (nullish (closedAt current) "")))|]]);
        try apply keepsTx_tthrow;
        (apply keepsTx_tbind; [apply keepsTx_sqlNow|]; intros updated;
         intros db Hdb; exact Hdb). }
    intros _.
    apply triple_tbind with (Q := fun _ => J); [apply keepsTx_accept|].
    intros _.
    apply triple_tbind with (Q := fun _ => J); [intros db Hdb; exact Hdb|].
    intros _.
    apply triple_tbind with (Q := fun _ => J).
    { destruct (p_expiry payload) as [d|]; [apply keepsTx_tret|].
      destruct (hd_error (legs current)) as [l|].
      - destruct (negb (String.eqb (expiry l) "")); [apply keepsTx_tret|].
        apply keepsTx_tbind; [apply keepsTx_readClock|].
        intros d. apply keepsTx_tret.
      - apply keepsTx_tbind; [apply keepsTx_readClock|].
        intros d. apply keepsTx_tret. }
    intros expiryP.
    apply triple_tbind with (Q := fun _ => J); [apply keepsTx_insertLeg|].
    intros _.
    apply triple_tbind with (Q := fun _ db => db_rejects db = db_rejects db0).
    { intros db [_ Hdb]. exact Hdb. }
    intros _ db Hdb. unfold TradeRepo.findTradeWithClient.
    rewrite run_findTrade by (rewrite Hdb; exact Hsel). exact I. }
  specialize (Hb db0 eq_refl).
  match type of H with
  | (match ?b db0 with _ => _ end) = _ =>
      destruct (b db0) as [[r|e'] db1]; [discriminate|]
  end.
  pose proof (rollback_restores db1 Hb) as Hr.
  unfold tbind, tthrow in H.
  destruct (sqlRollback db1) as [[u|e''] db2] eqn:Hroll; cbn [snd] in Hr.
  - injection H as _ <-. exact Hr.
  - injection H as _ <-. exact Hr.
Qed.

End Atomic.

(** X23.  updateTrade is all or nothing.  When the reads of the trade are
    accepted and the call throws, because the UPDATE, the DELETE of the legs
    or the INSERT of the new leg is rejected or because a stored date does
    not parse, both tables are as they were before the call and no
    transaction is left open: the legs are never left deleted. *)
Theorem updateTrade_failure_is_atomic (db db' : Db) (owner tradeId : string)
        (payload : TradePatch) (e : string) :
  db_rejects db (SelectTrade owner tradeId) = false ->
  updateTrade' owner tradeId payload db = (Throw e, db') ->
  db_trades db' = db_trades db /\ db_legs db' = db_legs db /\
  db_tx db' = None.
Proof.
  intros Hsel H. exact (updateTrade_throws_in_tx db owner tradeId payload e db' Hsel H).
Qed.

End UpdateFacts.

(** *** Listing and deleting *)

Lemma sort_insert_sorted_by {A} (cmp : A -> A -> Z) (R : A -> A -> Prop) :
  (forall x y, cmp x y <= 0 -> R x y) ->
  (forall x y, 0 < cmp x y -> R y x) ->
  (forall x y z, R x y -> R y z -> R x z) ->
  forall x l, StronglySorted R l -> StronglySorted R (sort_insert cmp x l).
Proof.
  intros Hle Hgt Htrans x l Hs. induction Hs as [|y l Hs IH Hy].
  - cbn [sort_insert]. constructor; constructor.
  - cbn [sort_insert]. destruct (cmp x y <=? 0) eqn:E.
    + apply Z.leb_le in E. constructor; [now constructor|].
      constructor; [now apply Hle|].
      eapply Forall_impl; [|exact Hy]. intros z Hz.
      apply Htrans with y; [now apply Hle | exact Hz].
    + apply Z.leb_gt in E. constructor; [exact IH|].
      apply Forall_forall. intros z Hz.
      apply (Permutation_in _ (sort_insert_perm cmp x l)) in Hz.
      destruct Hz as [<-|Hz]; [now apply Hgt|].
      now apply (proj1 (Forall_forall _ _) Hy).
Qed.

Lemma Array_sort_sorted_by {A} (cmp : A -> A -> Z) (R : A -> A -> Prop) :
  (forall x y, cmp x y <= 0 -> R x y) ->
  (forall x y, 0 < cmp x y -> R y x) ->
  (forall x y z, R x y -> R y z -> R x z) ->
  forall l, StronglySorted R (Array_sort cmp l).
Proof.
  intros Hle Hgt Htrans l. induction l as [|x l IH]; cbn [Array_sort].
  - constructor.
  - now apply sort_insert_sorted_by.
Qed.

Lemma orderClause_sorted (ts : list TradeRow) :
  StronglySorted newerFirst (Array_sort TradeRepo.orderClause ts).
Proof.
  apply Array_sort_sorted_by; unfold newerFirst, TradeRepo.orderClause.
  - intros x y. destruct (t_opened_at x =? t_opened_at y) eqn:E.
    + apply Z.eqb_eq in E. lia.
    + apply Z.eqb_neq in E. lia.
  - intros x y. destruct (t_opened_at x =? t_opened_at y) eqn:E.
    + apply Z.eqb_eq in E. lia.
    + apply Z.eqb_neq in E. lia.
  - intros x y z. lia.
Qed.

Lemma owned_of_others (userId tradeId : string) (ts : list TradeRow) :
  filter (TradeRepo.ownedBy userId tradeId) (otherTrades userId tradeId ts) = [].
Proof.
  apply filter_nil_iff. intros t Ht. apply filter_In in Ht as [_ Ht].
  now apply negb_true_iff in Ht.
Qed.

Lemma cascade_legs (userId tradeId : string) (ts : list TradeRow)
      (ls : list LegRow) :
  filter (TradeRepo.ownedBy userId tradeId) ts <> [] ->
  filter (fun l =>
            negb (existsb (fun t => String.eqb (t_id t) (l_trade_id l))
                          (filter (TradeRepo.ownedBy userId tradeId) ts)))
         ls
  = otherLegs tradeId ls.
Proof.
  intros Hne. unfold otherLegs. apply filter_ext. intros l. f_equal.
  assert (Hall : forall t,
             In t (filter (TradeRepo.ownedBy userId tradeId) ts) ->
             t_id t = tradeId).
  { intros t Ht. apply filter_In in Ht as [_ Ht].
    unfold TradeRepo.ownedBy in Ht. apply andb_true_iff in Ht as [_ Ht].
    now apply String.eqb_eq. }
  destruct (filter (TradeRepo.ownedBy userId tradeId) ts) as [|t0 rest];
    [congruence|].
  destruct (String.eqb (l_trade_id l) tradeId) eqn:E.
  - apply String.eqb_eq in E. cbn [existsb].
    rewrite (Hall t0 (or_introl eq_refl)), E, String.eqb_refl. reflexivity.
  - destruct (existsb _ _) eqn:Ex; [|reflexivity].
    apply existsb_exists in Ex as (t & Ht & Heq).
    rewrite (Hall t Ht), String.eqb_sym, E in Heq. discriminate.
Qed.

Section ListAndRemove.

Variable to_char : Z -> string.
Variable toISOString : Z -> string.

Local Abbreviation findTrade' := (TradeRepo.findTrade to_char toISOString).
Local Abbreviation listTrades' := (TradeRepo.listTrades to_char toISOString).
Local Abbreviation recordOfRow' := (TradeRepo.recordOfRow to_char toISOString).

(** X24.  listTrades returns the caller's trades, all of them and no others,
    each once, newest opening date first and, among trades opened the same
    day, the one created last first. *)
Theorem listTrades_own_trades_newest_first (db : Db) (owner : string) :
  db_rejects db (SelectTradesOf owner) = false ->
  exists rows,
    listTrades' owner db = (Ok (map (recordOfRow' (db_legs db)) rows), db) /\
    Permutation rows
      (filter (fun t => String.eqb (t_user_id t) owner) (db_trades db)) /\
    StronglySorted newerFirst rows /\
    Forall (fun r => userId r = owner) (map (recordOfRow' (db_legs db)) rows).
Proof.
  intros Hsel.
  exists (Array_sort TradeRepo.orderClause
            (filter (fun t => String.eqb (t_user_id t) owner) (db_trades db))).
  split.
  { unfold TradeRepo.listTrades, tbind, accept. now rewrite Hsel. }
  split; [apply Array_sort_perm|]. split; [apply orderClause_sorted|].
  apply Forall_forall. intros r Hr. apply in_map_iff in Hr as (t & <- & Ht).
  apply (Permutation_in _ (Array_sort_perm _ _)) in Ht.
  apply filter_In in Ht as [_ Ht]. now apply String.eqb_eq in Ht.
Qed.

(** X25.  removeTrade deletes the caller's trade of the given id together
    with its legs and nothing else.  It answers true exactly when there was
    such a trade; afterwards the table of trades is the former one without
    it, the legs of the other trades are what they were, no leg of a deleted
    trade is left, and findTrade of the id answers null. *)
Theorem removeTrade_deletes_trade_and_legs (db : Db) (owner tradeId : string) :
  db_rejects db (DeleteTrade tradeId owner) = false ->
  db_rejects db (SelectTrade owner tradeId) = false ->
  exists removed db',
    TradeRepo.removeTrade owner tradeId db = (Ok removed, db') /\
    (removed = true <->
     exists t, In t (db_trades db) /\ t_id t = tradeId /\ t_user_id t = owner) /\
    db_trades db' = otherTrades owner tradeId (db_trades db) /\
    otherLegs tradeId (db_legs db') = otherLegs tradeId (db_legs db) /\
    (removed = true -> db_legs db' = otherLegs tradeId (db_legs db)) /\
    (removed = false -> db_legs db' = db_legs db) /\
    findTrade' owner tradeId db' = (Ok None, db').
Proof.
  intros Hdel Hsel. eexists. eexists. split.
  { unfold TradeRepo.removeTrade, tbind, accept. rewrite Hdel. reflexivity. }
  cbn [withTables db_trades db_legs].
  destruct (filter (TradeRepo.ownedBy owner tradeId) (db_trades db))
    as [|t0 rest] eqn:Hown.
  - cbn [List.length existsb negb]. split.
    { split; [discriminate|]. intros (t & Ht & Hi & Hu).
      assert (Hin : In t (filter (TradeRepo.ownedBy owner tradeId) (db_trades db))).
      { apply filter_In. split; [exact Ht|]. unfold TradeRepo.ownedBy.
        now rewrite Hi, Hu, !String.eqb_refl. }
      rewrite Hown in Hin. destruct Hin. }
    split; [reflexivity|].
    assert (Hall : filter (fun _ : LegRow => true) (db_legs db) = db_legs db)
      by (apply filter_all; reflexivity).
    rewrite Hall. split; [reflexivity|]. split; [discriminate|].
    split; [reflexivity|].
    rewrite run_findTrade by exact Hsel. unfold withTables. cbn [db_trades].
    pose proof (owned_of_others owner tradeId (db_trades db)) as Hgone.
    unfold otherTrades in Hgone. now rewrite Hgone.
  - assert (Hne : filter (TradeRepo.ownedBy owner tradeId) (db_trades db) <> [])
      by (rewrite Hown; discriminate).
    rewrite <- Hown, (cascade_legs owner tradeId _ _ Hne), Hown.
    cbn [List.length]. split.
    { split; [intros _|reflexivity]. exists t0.
      assert (Hin : In t0 (filter (TradeRepo.ownedBy owner tradeId) (db_trades db)))
        by (rewrite Hown; now left).
      apply filter_In in Hin as [Hin Ho]. unfold TradeRepo.ownedBy in Ho.
      apply andb_true_iff in Ho as [Hu Hi].
      apply String.eqb_eq in Hu, Hi. now repeat split. }
    split; [reflexivity|].
    split; [apply filter_idem|]. split; [reflexivity|].
    split; [discriminate|].
    rewrite run_findTrade by exact Hsel. unfold withTables. cbn [db_trades].
    pose proof (owned_of_others owner tradeId (db_trades db)) as Hgone.
    unfold otherTrades in Hgone. now rewrite Hgone.
Qed.

End ListAndRemove.

(* ================================================================== *)
(** * The percentage return of the trades the repository stores *)

Lemma tradeBasis_cases (t : TradeRecord) :
  let credit := nullish (netCredit t) 0%Q in
  let debit := nullish (netDebit t) 0%Q in
  (~ (debit == 0)%Q /\ tradeBasis t = Qabs debit) \/
  ((debit == 0)%Q /\ ~ (credit == 0)%Q /\ tradeBasis t = Qabs credit) \/
  ((debit == 0)%Q /\ (credit == 0)%Q /\ tradeBasis t = 1%Q).
Proof.
  intros credit debit. unfold tradeBasis. fold credit debit.
  destruct (Qgtb (Qabs debit) 0) eqn:Hd.
  - apply Qgtb_true in Hd. left.
    assert (Hnz : ~ (debit == 0)%Q).
    { intros E. apply (proj2 (Qabs_zero_iff debit)) in E. lra. }
    split; [exact Hnz|].
    destruct (Qeq_bool (Qabs debit) 0) eqn:E; [|reflexivity].
    apply Qeq_bool_iff in E. lra.
  - apply Qgtb_false in Hd. right.
    assert (Hz : (debit == 0)%Q).
    { apply Qabs_zero_iff. pose proof (Qabs_nonneg debit). lra. }
    destruct (Qeq_bool (Qabs credit) 0) eqn:Hc.
    + apply Qeq_bool_iff in Hc. apply (proj1 (Qabs_zero_iff credit)) in Hc.
      right. now repeat split.
    + left. split; [exact Hz|]. split; [|reflexivity].
      intros E. apply (proj2 (Qabs_zero_iff credit)) in E.
      apply Qeq_bool_iff in E. congruence.
Qed.

Lemma percent_of_unit_ratio (p b : Q) :
  ~ (b == 0)%Q ->
  ((p == b)%Q -> (p / b * 100 == 100)%Q) /\
  ((p == - b)%Q -> (p / b * 100 == - (100))%Q).
Proof.
  intros Hb. split; intros ->; field; exact Hb.
Qed.

(** X30.  The percentage return of a trade of which at most one net amount
    is set, the only shape createTrade and updateTrade give a trade, says
    nothing but the sign of its P&L: it is 100 when the P&L is positive, -100
    when it is negative and 0 when it is zero, whatever the amount. *)
Theorem one_sided_trade_returns_are_flat (t : TradeRecord) :
  netCredit t = None \/ netDebit t = None ->
  ((0 < tradePnl t)%Q -> (pnlPct t == 100)%Q) /\
  ((tradePnl t < 0)%Q -> (pnlPct t == - (100))%Q) /\
  ((tradePnl t == 0)%Q -> (pnlPct t == 0)%Q).
Proof.
  intros Hside. unfold pnlPct.
  pose proof (tradeBasis_cases t) as Hbasis. cbv zeta in Hbasis.
  assert (Hpnl : (tradePnl t
                  == nullish (netCredit t) 0 - nullish (netDebit t) 0)%Q)
    by reflexivity.
  set (credit := nullish (netCredit t) 0%Q) in *.
  set (debit := nullish (netDebit t) 0%Q) in *.
  set (pnl := tradePnl t) in *. clearbody pnl.
  assert (Hone : (credit == 0)%Q \/ (debit == 0)%Q).
  { destruct Hside as [E|E]; [left; subst credit|right; subst debit];
      rewrite E; reflexivity. }
  set (basis := tradeBasis t) in *. clearbody basis credit debit.
  destruct Hbasis as [[Hd ->]|[(Hd & Hc & ->)|(Hd & Hc & ->)]].
  - (* the amount is a debit *)
    destruct Hone as [Hc|Hz]; [|contradiction].
    assert (Hp : (pnl == - debit)%Q) by lra.
    destruct (Qlt_le_dec debit 0) as [Hneg|Hpos].
    + assert (Hb : ~ (- debit == 0)%Q) by lra.
      rewrite (Qabs_neg debit) by lra.
      destruct (percent_of_unit_ratio pnl (- debit) Hb) as [H1 _].
      split; [intros _; now apply H1|]. split; intros; lra.
    + assert (Hb : ~ (debit == 0)%Q) by exact Hd.
      rewrite (Qabs_pos debit) by lra.
      destruct (percent_of_unit_ratio pnl debit Hb) as [_ H2].
      split; [intros; lra|]. split; [intros _; now apply H2 | intros; lra].
  - (* the amount is a credit *)
    assert (Hp : (pnl == credit)%Q) by lra.
    destruct (Qlt_le_dec credit 0) as [Hneg|Hpos].
    + assert (Hb : ~ (- credit == 0)%Q) by lra.
      rewrite (Qabs_neg credit) by lra.
      destruct (percent_of_unit_ratio pnl (- credit) Hb) as [_ H2].
      split; [intros; lra|]. split; [intros _|intros; lra].
      apply H2. lra.
    + rewrite (Qabs_pos credit) by lra.
      destruct (percent_of_unit_ratio pnl credit Hc) as [H1 _].
      split; [intros _; now apply H1|]. split; intros; lra.
  - (* no amount at all *)
    assert (Hp : (pnl == 0)%Q) by lra.
    split; [intros; lra|]. split; [intros; lra|].
    intros _. rewrite Hp. reflexivity.
Qed.

Lemma one_sided_trade_returns_are_flat_witness :
  (pnlPct (trade "a" "2024-01-05" (Some "2024-01-10") (Some 250%Q) None []) == 100)%Q.
Proof.
  apply (one_sided_trade_returns_are_flat
           (trade "a" "2024-01-05" (Some "2024-01-10") (Some 250%Q) None [])).
  - right. reflexivity.
  - reflexivity.
Defined.

(* ================================================================== *)
(** * Market snapshots *)

Lemma afterCalls_refl (upper : string) (m : Market) : afterCalls upper 0 m m.
Proof. unfold afterCalls. repeat split. lia. Qed.

Lemma afterCalls_trans (upper : string) (n1 n2 : nat) (m1 m2 m3 : Market) :
  afterCalls upper n1 m1 m2 -> afterCalls upper n2 m2 m3 ->
  afterCalls upper (n1 + n2) m1 m3.
Proof.
  intros (A1 & A2 & A3 & A4 & A5 & A6) (B1 & B2 & B3 & B4 & B5 & B6).
  unfold afterCalls. rewrite B1, B2, B3, B4, B6, A4.
  repeat split; try assumption; [lia|].
  intros u Hu. now rewrite B5, A5.
Qed.

Lemma afterCalls_callProvider (name : SnapshotSource) (upper : string)
      (m : Market) :
  afterCalls upper 1 m (snd (callProvider name upper m)).
Proof.
  unfold afterCalls, callProvider.
  cbn [snd snapshotCache snapshotInFlight providerAnswers providerCalls
       market_clock].
  rewrite String.eqb_refl. repeat split; [lia|].
  intros u Hu. apply String.eqb_neq in Hu. now rewrite Hu.
Qed.

Lemma afterCalls_console_warn (upper msg : string) (m : Market) :
  afterCalls upper 0 m (snd (console_warn msg m)).
Proof. unfold afterCalls. cbn. repeat split. lia. Qed.

Lemma afterCalls_market_now (upper : string) (m : Market) :
  afterCalls upper 0 m (snd (market_now m)).
Proof. unfold afterCalls. cbn. repeat split. lia. Qed.

(** Taking a request off the map of requests in flight right after it was
    put there leaves the map as it was. *)
Lemma inFlight_set_delete {V} (upper : string) (v : V)
      (l : list (string * V)) :
  JsMap.get String.eqb upper l = None ->
  filter (fun kv => negb (String.eqb upper (fst kv)))
         (JsMap.set String.eqb upper v l) = l.
Proof.
  induction l as [|[k x] l IH]; intros Hget; cbn [JsMap.set JsMap.get] in *.
  - cbn [filter fst]. now rewrite String.eqb_refl.
  - destruct (String.eqb upper k) eqn:E; [discriminate|].
    cbn [filter fst]. rewrite E. cbn [negb]. now rewrite IH.
Qed.

Section MarketFacts.

Variable toUpperCase : string -> string.
Variable Date_getTime : string -> option Z.
Variable toISOString : Z -> string.
Variable preferred : string.
Variable hasMarketCredentials : bool.
Variable loadedAt : string.

Local Abbreviation resolveSnapshot' :=
  (resolveSnapshot toUpperCase Date_getTime toISOString preferred
                   hasMarketCredentials loadedAt).
Local Abbreviation request' :=
  (request Date_getTime toISOString preferred hasMarketCredentials loadedAt).
Local Abbreviation joinOrRequest' :=
  (joinOrRequest Date_getTime toISOString preferred hasMarketCredentials
                 loadedAt).
Local Abbreviation providerOrder' := (providerOrder preferred hasMarketCredentials).
Local Abbreviation priced s := (MarketSnapshot.price s <> None).

(** The loop over the providers calls each of them once for the symbol and
    touches neither the cache nor the clock. *)
Lemma collectSnapshots_frame (upper : string) (order : list SnapshotSource) :
  forall resolved m,
    afterCalls upper (List.length order) m
               (snd (collectSnapshots upper order resolved m)) /\
    market_ticks (snd (collectSnapshots upper order resolved m))
    = market_ticks m.
Proof.
  induction order as [|name order IH]; intros resolved m.
  - split; [apply afterCalls_refl | reflexivity].
  - cbn [collectSnapshots List.length]. unfold sbind.
    pose proof (afterCalls_callProvider name upper m) as Hcall.
    assert (Hticks : market_ticks (snd (callProvider name upper m))
                     = market_ticks m) by reflexivity.
    destruct (callProvider name upper m) as [answer m0]. cbn [snd] in *.
    assert (Hstep : forall r,
               afterCalls upper (S (List.length order)) m
                          (snd (collectSnapshots upper order r m0)) /\
               market_ticks (snd (collectSnapshots upper order r m0))
               = market_ticks m).
    { intros r. destruct (IH r m0) as [Hrest Ht]. split; [|congruence].
      exact (afterCalls_trans upper 1 _ _ _ _ Hcall Hrest). }
    destruct answer as [[s|]|e]; [destruct (MarketSnapshot.price s)| |];
      try apply Hstep.
    pose proof (afterCalls_console_warn upper
                  ("Market data provider failed for " ++ upper ++ ":") m0)
      as Hwarn.
    assert (Hwt : market_ticks
                    (snd (console_warn
                            ("Market data provider failed for " ++ upper ++ ":")
                            m0)) = market_ticks m0) by reflexivity.
    destruct (console_warn ("Market data provider failed for " ++ upper ++ ":")
                           m0) as [u m1].
    cbn [snd] in *. destruct (IH resolved m1) as [Hrest Ht].
    split; [|congruence].
    pose proof (afterCalls_trans upper _ _ _ _ _ Hwarn Hrest) as H01.
    exact (afterCalls_trans upper 1 _ _ _ _ Hcall H01).
Qed.

(** What the loop adds to the list has a price. *)
Lemma collectSnapshots_priced (upper : string) (order : list SnapshotSource) :
  forall resolved m,
    Forall (fun s => priced s) resolved ->
    Forall (fun s => priced s) (fst (collectSnapshots upper order resolved m)).
Proof.
  induction order as [|name order IH]; intros resolved m Hall; [exact Hall|].
  cbn [collectSnapshots]. unfold sbind, callProvider.
  destruct (providerAnswers m name upper (providerCalls m upper)) as [[s|]|e].
  - destruct (MarketSnapshot.price s) eqn:E; apply IH; [|exact Hall].
    apply Forall_app. split; [exact Hall|]. constructor; [|constructor].
    rewrite E. discriminate.
  - now apply IH.
  - unfold console_warn. now apply IH.
Qed.

(** The loop keeps what it has collected. *)
Lemma collectSnapshots_grows (upper : string) (order : list SnapshotSource) :
  forall resolved m,
    resolved <> [] -> fst (collectSnapshots upper order resolved m) <> [].
Proof.
  induction order as [|name order IH]; intros resolved m Hne; [exact Hne|].
  cbn [collectSnapshots]. unfold sbind, callProvider.
  destruct (providerAnswers m name upper (providerCalls m upper)) as [[s|]|e].
  - destruct (MarketSnapshot.price s); apply IH; [|exact Hne].
    destruct resolved; discriminate.
  - now apply IH.
  - unfold console_warn. now apply IH.
Qed.

(** A provider that answers with a price leaves a snapshot in the list. *)
Lemma collectSnapshots_finds (upper : string) (name : SnapshotSource)
      (order : list SnapshotSource) :
  In name order ->
  forall resolved m,
    (forall n, exists s, providerAnswers m name upper n = Ok (Some s) /\
                         priced s) ->
    fst (collectSnapshots upper order resolved m) <> [].
Proof.
  induction order as [|name' order IH]; intros Hin resolved m Hans;
    [destruct Hin|].
  cbn [collectSnapshots]. unfold sbind, callProvider.
  destruct Hin as [->|Hin].
  - destruct (Hans (providerCalls m upper)) as (s & -> & Hs).
    destruct (MarketSnapshot.price s); [|congruence].
    apply collectSnapshots_grows. destruct resolved; discriminate.
  - destruct (providerAnswers m name' upper (providerCalls m upper))
      as [[s|]|e];
      [destruct (MarketSnapshot.price s)| |unfold console_warn];
      apply IH; assumption.
Qed.


Lemma collectSnapshots_cons_priced (upper : string) (name : SnapshotSource)
      (order : list SnapshotSource) (resolved : list MarketSnapshot.t)
      (m : Market) (s : MarketSnapshot.t) :
  providerAnswers m name upper (providerCalls m upper) = Ok (Some s) ->
  priced s ->
  collectSnapshots upper (name :: order) resolved m
  = collectSnapshots upper order (resolved ++ [s])
      (snd (callProvider name upper m)).
Proof.
  intros Hans Hp. cbn [collectSnapshots]. unfold sbind, callProvider.
  rewrite Hans. cbn [snd]. destruct (MarketSnapshot.price s); congruence.
Qed.

Lemma mergeCandidate_price (primary candidate : MarketSnapshot.t) :
  priced primary ->
  MarketSnapshot.price (mergeCandidate primary candidate)
  = MarketSnapshot.price primary /\
  MarketSnapshot.symbol (mergeCandidate primary candidate)
  = MarketSnapshot.symbol primary /\
  MarketSnapshot.source (mergeCandidate primary candidate)
  = MarketSnapshot.source primary.
Proof.
  intros Hp. unfold mergeCandidate. cbn.
  destruct (MarketSnapshot.price primary); [now repeat split | congruence].
Qed.

Lemma merged_price (rest : list MarketSnapshot.t) :
  forall first,
    priced first ->
    MarketSnapshot.price (fold_left mergeCandidate rest first)
    = MarketSnapshot.price first /\
    MarketSnapshot.symbol (fold_left mergeCandidate rest first)
    = MarketSnapshot.symbol first /\
    MarketSnapshot.source (fold_left mergeCandidate rest first)
    = MarketSnapshot.source first.
Proof.
  induction rest as [|c rest IH]; intros first Hp; [now repeat split|].
  cbn [fold_left].
  destruct (mergeCandidate_price first c Hp) as (H1 & H2 & H3).
  destruct (IH (mergeCandidate first c)) as (I1 & I2 & I3);
    [rewrite H1; exact Hp|].
  rewrite I1, I2, I3. now repeat split.
Qed.

(** Whatever the request finds, it calls every provider of the order once
    for the symbol and leaves the requests in flight alone. *)
Lemma request_calls (upper : string) (cached : option CacheEntry.t)
      (m : Market) :
  snapshotInFlight (snd (request' upper cached m)) = snapshotInFlight m /\
  providerAnswers (snd (request' upper cached m)) = providerAnswers m /\
  providerCalls (snd (request' upper cached m)) upper
  = (providerCalls m upper + List.length providerOrder')%nat /\
  (forall u, u <> upper ->
     providerCalls (snd (request' upper cached m)) u = providerCalls m u) /\
  market_clock (snd (request' upper cached m)) = market_clock m.
Proof.
  unfold request, sbind.
  destruct (collectSnapshots_frame upper providerOrder' [] m)
    as [(_ & H2 & H3 & H4 & H5 & H6) _].
  destruct (collectSnapshots upper providerOrder' [] m) as [resolved m1].
  cbn [snd] in *.
  destruct (Array_sort _ resolved) as [|first rest];
    [destruct cached as [entry|];
     [|destruct (fallbackSnapshots loadedAt upper)]|];
    cbn; now repeat split.
Qed.


(** The request when a provider of the order always answers with a price. *)
Lemma run_request_priced (upper : string) (cached : option CacheEntry.t)
      (name : SnapshotSource) (m : Market) :
  In name providerOrder' ->
  (forall n, exists s, providerAnswers m name upper n = Ok (Some s) /\ priced s) ->
  exists result,
    fst (request' upper cached m) = result /\
    priced result /\
    snapshotCache (snd (request' upper cached m))
    = JsMap.set String.eqb upper
        (CacheEntry.mk result (market_clock m (market_ticks m)))
        (snapshotCache m) /\
    market_ticks (snd (request' upper cached m)) = S (market_ticks m).
Proof.
  intros Hin Hans. unfold request, sbind.
  pose proof (collectSnapshots_finds upper name providerOrder' Hin [] m Hans)
    as Hsome.
  pose proof (collectSnapshots_priced upper providerOrder' [] m (Forall_nil _))
    as Hpriced.
  destruct (collectSnapshots_frame upper providerOrder' [] m)
    as [(H1 & _ & _ & _ & _ & H6) H5].
  destruct (collectSnapshots upper providerOrder' [] m) as [resolved m1].
  cbn [fst snd] in *.
  pose proof (Array_sort_perm (bySourceCurrencyTime Date_getTime preferred)
                              resolved) as Hperm.
  destruct (Array_sort (bySourceCurrencyTime Date_getTime preferred) resolved)
    as [|first rest] eqn:Hsort.
  { apply Permutation_nil in Hperm. congruence. }
  assert (Hfirst : priced first).
  { apply (proj1 (Forall_forall _ _) Hpriced).
    apply (Permutation_in _ Hperm). now left. }
  destruct (merged_price rest first Hfirst) as (Hp & _ & _).
  eexists. split; [reflexivity|].
  unfold market_now, snapshotCache_set, sret.
  cbn [fst snd snapshotCache market_ticks].
  rewrite H1, H6, H5. split; [rewrite Hp; exact Hfirst|].
  now repeat split.
Qed.

(** With no request in flight for the symbol, the request is made, and the
    map of requests in flight is afterwards what it was. *)
Lemma run_joinOrRequest_idle (upper : string) (cached : option CacheEntry.t)
      (m : Market) :
  JsMap.get String.eqb upper (snapshotInFlight m) = None ->
  fst (joinOrRequest' upper cached m) = fst (request' upper cached m) /\
  snapshotCache (snd (joinOrRequest' upper cached m))
  = snapshotCache (snd (request' upper cached m)) /\
  snapshotInFlight (snd (joinOrRequest' upper cached m)) = snapshotInFlight m /\
  providerCalls (snd (joinOrRequest' upper cached m))
  = providerCalls (snd (request' upper cached m)) /\
  market_clock (snd (joinOrRequest' upper cached m))
  = market_clock (snd (request' upper cached m)) /\
  market_ticks (snd (joinOrRequest' upper cached m))
  = market_ticks (snd (request' upper cached m)).
Proof.
  intros Hidle. unfold joinOrRequest. rewrite Hidle. unfold sbind.
  destruct (request_calls upper cached m) as (Hfl & _).
  destruct (request' upper cached m) as [result m1]. cbn [fst snd] in *.
  unfold snapshotInFlight_set, snapshotInFlight_delete, sret.
  cbn [fst snd snapshotCache snapshotInFlight providerCalls market_clock
       market_ticks].
  rewrite Hfl, (inFlight_set_delete upper result _ Hidle). now repeat split.
Qed.




(** X28.  A snapshot that a provider delivers has a price and is cached.
    When the entry of a symbol is missing, no request for the symbol is in
    flight and some provider of the configured order answers with a price,
    whatever the others do, the snapshot that is returned has a price, and it
    is stored under the upper-case symbol with the time read after the
    providers were called; a second request, made less than a minute after
    that time, returns the same snapshot without calling a provider. *)
Theorem delivered_snapshot_is_priced_and_cached (m : Market) (symbol : string)
        (name : SnapshotSource) :
  JsMap.get String.eqb (toUpperCase symbol) (snapshotCache m) = None ->
  JsMap.get String.eqb (toUpperCase symbol) (snapshotInFlight m) = None ->
  In name providerOrder' ->
  (forall n, exists s,
        providerAnswers m name (toUpperCase symbol) n = Ok (Some s) /\
        MarketSnapshot.price s <> None) ->
  let result := fst (resolveSnapshot' symbol m) in
  let m1 := snd (resolveSnapshot' symbol m) in
  MarketSnapshot.price result <> None /\
  JsMap.get String.eqb (toUpperCase symbol) (snapshotCache m1)
  = Some (CacheEntry.mk result (market_clock m (market_ticks m))) /\
  (market_clock m (S (market_ticks m)) - market_clock m (market_ticks m) < 60000 ->
   fst (resolveSnapshot' symbol m1) = result /\
   providerCalls (snd (resolveSnapshot' symbol m1)) = providerCalls m1).
Proof.
  intros Hget Hidle Hin Hans result m1. subst result m1.
  assert (Hrun : resolveSnapshot' symbol m
                 = joinOrRequest' (toUpperCase symbol) None m).
  { unfold resolveSnapshot. now rewrite Hget. }
  rewrite Hrun.
  destruct (run_joinOrRequest_idle (toUpperCase symbol) None m Hidle)
    as (Hfst & Hcache' & _ & _ & Hclock' & Hticks').
  destruct (run_request_priced (toUpperCase symbol) None name m Hin Hans)
    as (result & Hres & Hp & Hcache & Hticks).
  destruct (request_calls (toUpperCase symbol) None m) as (_ & _ & _ & _ & Hclock).
  rewrite Hfst, Hres. split; [exact Hp|].
  set (m1 := snd (joinOrRequest' (toUpperCase symbol) None m)) in *.
  assert (Hentry : JsMap.get String.eqb (toUpperCase symbol) (snapshotCache m1)
                   = Some (CacheEntry.mk result
                             (market_clock m (market_ticks m)))).
  { rewrite Hcache', Hcache. apply get_set_same. apply String.eqb_eq. }
  split; [exact Hentry|]. intros Hsoon.
  assert (E : (market_clock m (S (market_ticks m))
               - market_clock m (market_ticks m) <? 60000) = true)
    by now apply Z.ltb_lt.
  assert (Hagain : resolveSnapshot' symbol m1 = (result, snd (market_now m1))).
  { unfold resolveSnapshot. rewrite Hentry. unfold sbind, market_now.
    rewrite Hclock', Hclock, Hticks', Hticks.
    cbn [CacheEntry.fetchedAt CacheEntry.snapshot]. unfold SNAPSHOT_TTL_MS.
    change (60 * 1000) with 60000. now rewrite E. }
  rewrite Hagain. split; reflexivity.
Qed.

(** X29.  With both providers delivering, the configured one wins and the
    other fills the gaps.  When credentials are present, no entry is cached,
    no request for the symbol is in flight and both providers answer with a
    price under their own name, the snapshot returned is the one of
    alphavantage if that is the configured provider and the one of yahoo
    otherwise, with the fields it lacks taken from the other. *)
Theorem configured_provider_wins (m : Market) (symbol : string)
        (fromYahoo fromAlpha : MarketSnapshot.t) :
  hasMarketCredentials = true ->
  JsMap.get String.eqb (toUpperCase symbol) (snapshotCache m) = None ->
  JsMap.get String.eqb (toUpperCase symbol) (snapshotInFlight m) = None ->
  (forall n, providerAnswers m yahoo (toUpperCase symbol) n = Ok (Some fromYahoo)) ->
  (forall n, providerAnswers m alphavantage (toUpperCase symbol) n
             = Ok (Some fromAlpha)) ->
  MarketSnapshot.price fromYahoo <> None ->
  MarketSnapshot.price fromAlpha <> None ->
  MarketSnapshot.source fromYahoo = Some yahoo ->
  MarketSnapshot.source fromAlpha = Some alphavantage ->
  let best := if String.eqb preferred "alphavantage" then fromAlpha else fromYahoo in
  let other := if String.eqb preferred "alphavantage" then fromYahoo else fromAlpha in
  fst (resolveSnapshot' symbol m) = mergeCandidate best other /\
  MarketSnapshot.price (fst (resolveSnapshot' symbol m))
  = MarketSnapshot.price best /\
  MarketSnapshot.source (fst (resolveSnapshot' symbol m))
  = MarketSnapshot.source best /\
  MarketSnapshot.changePercent (fst (resolveSnapshot' symbol m))
  = match MarketSnapshot.changePercent best with
    | Some c => Some c
    | None => MarketSnapshot.changePercent other
    end.
Proof.
  intros Hcreds Hget Hidle Hy Ha Hpy Hpa Hsy Hsa best other.
  assert (Hrun : fst (resolveSnapshot' symbol m) = mergeCandidate best other).
  { unfold resolveSnapshot. rewrite Hget.
    rewrite (proj1 (run_joinOrRequest_idle (toUpperCase symbol) None m Hidle)).
    unfold request, sbind.
    unfold providerOrder, preferredSources in *. rewrite Hcreds.
    subst best other.
    destruct (String.eqb preferred "yahoo") eqn:E1;
      destruct (String.eqb preferred "alphavantage") eqn:E2;
      cbn [app];
      repeat first
        [ rewrite (collectSnapshots_cons_priced _ yahoo _ _ _ fromYahoo)
            by (first [apply Hy | assumption])
        | rewrite (collectSnapshots_cons_priced _ alphavantage _ _ _ fromAlpha)
            by (first [apply Ha | assumption]) ];
      cbn [app collectSnapshots sret Array_sort sort_insert];
      unfold bySourceCurrencyTime, sourceRank, preferredSources;
      rewrite ?E2, ?Hsy, ?Hsa;
      cbn [nullish indexOf SnapshotSource_eqb Z.eqb Z.sub Z.add Z.opp
           Z.pos_sub negb Z.leb Z.compare Pos.compare Pos.compare_cont
           Pos.pred_double Z.succ_double Z.pred_double Z.double List.length
           Z.of_nat Pos.of_succ_nat Pos.succ fold_left fst sret];
      reflexivity. }
  rewrite Hrun. split; [reflexivity|].
  assert (Hbest : priced best) by (subst best; now destruct (String.eqb _ _)).
  destruct (mergeCandidate_price best other Hbest) as (H1 & _ & H3).
  split; [exact H1|]. split; [exact H3|]. reflexivity.
Qed.

End MarketFacts.

(* ================================================================== *)
(** * The repository and the routes on concrete data *)

Local Abbreviation createTrade0 :=
  (TradeRepo.createTrade utcDay dayText isoText (numeric 2) (numeric 4)).
Local Abbreviation updateTrade0 :=
  (TradeRepo.updateTrade isoDateMs utcDay dayText isoText (numeric 2) (numeric 4)).
Local Abbreviation findTrade0 := (TradeRepo.findTrade dayText isoText).

Lemma failed_authentication_stops_the_request_witness :
  sampleVerify "nonsense" = Throw "jwt malformed" /\
  exists message w',
    summaryRoute isoDateMs utcDay sampleVerify (fun _ => false) sampleEmail
                 (Some "Bearer nonsense") sampleWorld
    = (Ok (JsonMessage 401 message), w') /\
    analytics_summaries w' = analytics_summaries sampleWorld /\
    ticks w' = ticks sampleWorld.
Proof.
  split; [reflexivity|].
  destruct (failed_authentication_stops_the_request isoDateMs utcDay sampleVerify
              (fun _ => false) sampleEmail (Some "Bearer nonsense") sampleWorld)
    as (statusCode & message & w' & Hsum & _ & Hsame & Hstatus).
  - right. right. left. exists "nonsense", "jwt malformed".
    split; reflexivity.
  - exists message, w'. destruct Hsame as (_ & _ & Hrows & _ & _ & Hticks).
    split; [|split; assumption].
    destruct Hstatus as [[_ (token & payload & _ & _ & Hrej)]|[-> _]];
      [discriminate Hrej | exact Hsum].
Defined.

Lemma authenticated_requests_act_for_the_subject_witness :
  sampleVerify "token-a" = Ok (TokenPayload.mk "a" "a@example.org") /\
  In "a" (users sampleWorld) /\
  requireAuth sampleVerify (fun _ => false) sampleEmail
              (Some "Bearer token-a") sampleWorld
  = (Ok (AuthNext (AuthUser.mk "a" "a@example.org")), sampleWorld).
Proof.
  split; [reflexivity|]. split; [now left|].
  apply (authenticated_requests_act_for_the_subject isoDateMs utcDay sampleVerify
           (fun _ => false) sampleEmail "token-a"
           (TokenPayload.mk "a" "a@example.org") sampleWorld);
    [reflexivity | reflexivity | now left].
Defined.

Lemma foreign_trades_are_out_of_reach_witness :
  fst (findTrade0 "a" "t2" sampleDb) = Ok None /\
  fst (updateTrade0 "a" "t2" samplePatch sampleDb) = Ok None /\
  fst (TradeRepo.removeTrade "a" "t2" sampleDb) = Ok false.
Proof.
  destruct (foreign_trades_are_out_of_reach isoDateMs utcDay dayText isoText
              (numeric 2) (numeric 4) sampleDb "a" "t2" samplePatch)
    as (Hf & Hu & _ & _ & Hr & _).
  - intros t [<-|[<-|[]]]; cbn [t_id t_user_id]; intros Hid; discriminate.
  - reflexivity.
  - reflexivity.
  - now repeat split.
Defined.

Lemma createTrade_round_trip_witness :
  exists trade db',
    createTrade0 "a" sampleInput sampleDb = (Ok trade, db') /\
    netDebit trade = Some (375 # 100)%Q /\ netCredit trade = None /\
    findTrade0 "a" (trade_id trade) db' = (Ok (Some trade), db').
Proof.
  destruct (createTrade_round_trip utcDay dayText isoText (numeric 2) (numeric 4)
              sampleDb "a" sampleInput)
    as (trade & db' & Hrun & _ & _ & _ & _ & Hnet & _ & _ & _ & Hfind).
  - reflexivity.
  - reflexivity.
  - reflexivity.
  - intros t [<-|[<-|[]]]; cbn [t_id]; discriminate.
  - intros l [<-|[<-|[<-|[]]]]; cbn [l_trade_id]; discriminate.
  - exists trade, db'. split; [exact Hrun|].
    cbn [sampleInput in_side] in Hnet. destruct Hnet as [Hd Hc].
    split; [|split; assumption].
    rewrite Hd. vm_compute. reflexivity.
Defined.

Lemma createTrade_failure_is_atomic_witness :
  fst (createTrade0 "a" sampleInput (sampleDbRejecting rejectsInsertLeg))
  = Throw "query failed" /\
  db_trades (snd (createTrade0 "a" sampleInput
                    (sampleDbRejecting rejectsInsertLeg)))
  = sampleTradeRows.
Proof.
  destruct (createTrade_failure_is_atomic utcDay dayText isoText (numeric 2)
              (numeric 4) (sampleDbRejecting rejectsInsertLeg) "a" sampleInput)
    as (Hthrow & Htrades & _).
  - right. reflexivity.
  - split; assumption.
Defined.

Lemma createTrade_can_fail_after_commit_witness :
  fst (createTrade0 "a" sampleInput (sampleDbRejecting rejectsSelectTrade))
  = Throw "query failed" /\
  List.length (db_trades (snd (createTrade0 "a" sampleInput
                                 (sampleDbRejecting rejectsSelectTrade))))
  = 3%nat.
Proof.
  destruct (createTrade_can_fail_after_commit utcDay dayText isoText (numeric 2)
              (numeric 4) (sampleDbRejecting rejectsSelectTrade) "a" sampleInput)
    as (Hthrow & row & leg & Htrades & _).
  - reflexivity.
  - reflexivity.
  - reflexivity.
  - split; [exact Hthrow|]. rewrite Htrades, length_app. reflexivity.
Defined.

Lemma updateTrade_collapses_to_one_leg_witness :
  List.length (TradeRepo.legsOfTrade sampleLegRows "t1") = 2%nat /\
  exists trade db',
    updateTrade0 "a" "t1" samplePatch sampleDb = (Ok (Some trade), db') /\
    classifyStrategy trade = single.
Proof.
  split; [reflexivity|].
  destruct (updateTrade0 "a" "t1" samplePatch sampleDb)
    as [[[trade|]|e] db'] eqn:E;
    [|apply (f_equal fst) in E; vm_compute in E; discriminate E
     |apply (f_equal fst) in E; vm_compute in E; discriminate E].
  exists trade, db'. split; [reflexivity|].
  exact (proj1 (updateTrade_collapses_to_one_leg isoDateMs utcDay dayText isoText
                  (numeric 2) (numeric 4) sampleDb db' "a" "t1" samplePatch
                  trade E)).
Defined.

Lemma updateTrade_returns_patched_trade_witness :
  fst (findTrade0 "a" "t1" sampleDb)
  = Ok (Some (TradeRepo.recordOfRow dayText isoText sampleLegRows
                (mkTradeRow "t1" "a" "SPY" (Some "spread") status_closed 19727
                   (Some 19734) (Some 150%Q) None (Some "first")
                   1704448800000 1704448800000))) /\
  exists trade db',
    updateTrade0 "a" "t1" samplePatch sampleDb = (Ok (Some trade), db') /\
    symbol trade = "SPY" /\ closedAt trade = Some "2024-01-12" /\
    netCredit trade = Some (375 # 100)%Q /\ netDebit trade = None.
Proof.
  split; [vm_compute; reflexivity|].
  destruct (updateTrade0 "a" "t1" samplePatch sampleDb)
    as [[[trade|]|e] db'] eqn:E;
    [|apply (f_equal fst) in E; vm_compute in E; discriminate E
     |apply (f_equal fst) in E; vm_compute in E; discriminate E].
  exists trade, db'. split; [reflexivity|].
  destruct (updateTrade_returns_patched_trade isoDateMs utcDay dayText isoText
              (numeric 2) (numeric 4) sampleDb db' "a" "t1" samplePatch trade E)
    as (current & Hcur & _ & _ & _ & _ & Hsym & _ & _ & _ & _ & Hclosed & _
        & Hnet & _).
  apply (f_equal fst) in Hcur. vm_compute in Hcur.
  injection Hcur as Hcur. subst current.
  split; [exact Hsym|]. split; [rewrite Hclosed; vm_compute; reflexivity|].
  cbv zeta in Hnet. cbn in Hnet. destruct Hnet as [Hc Hd].
  split; [rewrite Hc; vm_compute; reflexivity | exact Hd].
Defined.

Lemma updateTrade_failure_is_atomic_witness :
  exists e db',
    updateTrade0 "a" "t1" samplePatch (sampleDbRejecting rejectsDeleteLegs)
    = (Throw e, db') /\
    db_trades db' = sampleTradeRows /\ db_legs db' = sampleLegRows.
Proof.
  destruct (updateTrade0 "a" "t1" samplePatch (sampleDbRejecting rejectsDeleteLegs))
    as [[r|e] db'] eqn:E;
    [apply (f_equal fst) in E; vm_compute in E; discriminate E|].
  exists e, db'. split; [reflexivity|].
  destruct (updateTrade_failure_is_atomic isoDateMs utcDay dayText isoText
              (numeric 2) (numeric 4) (sampleDbRejecting rejectsDeleteLegs) db'
              "a" "t1" samplePatch e eq_refl E) as (Ht & Hl & _).
  split; assumption.
Defined.

Lemma listTrades_own_trades_newest_first_witness :
  exists rows,
    TradeRepo.listTrades dayText isoText "a" sampleDb
    = (Ok (map (TradeRepo.recordOfRow dayText isoText sampleLegRows) rows),
       sampleDb) /\
    StronglySorted newerFirst rows.
Proof.
  destruct (listTrades_own_trades_newest_first dayText isoText sampleDb "a"
              eq_refl) as (rows & Hrun & _ & Hsorted & _).
  exists rows. split; assumption.
Defined.

Lemma removeTrade_deletes_trade_and_legs_witness :
  exists db',
    TradeRepo.removeTrade "a" "t1" sampleDb = (Ok true, db') /\
    findTrade0 "a" "t1" db' = (Ok None, db').
Proof.
  destruct (removeTrade_deletes_trade_and_legs dayText isoText sampleDb "a" "t1"
              eq_refl eq_refl)
    as (removed & db' & Hrun & _ & _ & _ & _ & _ & Hfind).
  exists db'. split; [|exact Hfind].
  rewrite Hrun. apply (f_equal fst) in Hrun. vm_compute in Hrun.
  injection Hrun as Hr. now rewrite <- Hr.
Defined.

Local Abbreviation resolveSnapshot0 preferred :=
  (resolveSnapshot upperText isoDateMs isoText preferred true
                   "2024-03-01T00:00:00.000Z").



Lemma delivered_snapshot_is_priced_and_cached_witness :
  MarketSnapshot.price (fst (resolveSnapshot0 "yahoo" "aapl" sampleMarket))
  <> None /\
  fst (resolveSnapshot0 "yahoo" "aapl"
         (snd (resolveSnapshot0 "yahoo" "aapl" sampleMarket)))
  = fst (resolveSnapshot0 "yahoo" "aapl" sampleMarket).
Proof.
  destruct (delivered_snapshot_is_priced_and_cached upperText isoDateMs isoText
              "yahoo" true "2024-03-01T00:00:00.000Z" sampleMarket "aapl" yahoo
              eq_refl eq_refl (or_introl eq_refl)) as (Hp & _ & Hagain).
  - intros n. exists yahooAAPL. split; [reflexivity | discriminate].
  - split; [exact Hp|]. apply Hagain. reflexivity.
Defined.

Lemma configured_provider_wins_witness :
  MarketSnapshot.source
    (fst (resolveSnapshot0 "alphavantage" "aapl" sampleMarket))
  = Some alphavantage /\
  MarketSnapshot.currency
    (fst (resolveSnapshot0 "alphavantage" "aapl" sampleMarket))
  = Some "USD".
Proof.
  destruct (configured_provider_wins upperText isoDateMs isoText "alphavantage"
              true "2024-03-01T00:00:00.000Z" sampleMarket "aapl" yahooAAPL
              alphaAAPL eq_refl eq_refl eq_refl (fun _ => eq_refl)
              (fun _ => eq_refl))
    as (Hrun & _ & Hsource & _); try discriminate; try reflexivity.
  split; [exact Hsource|]. rewrite Hrun. reflexivity.
Defined.
